(** * Misinformation tracker: a shallow embedding of [tracker.py]

    The development follows the Python source method by method.

    - [Py] holds the few builtins the script relies on ([str], [range],
      [sum], [str.join], [str.lower], [re.findall] with the pattern
      [\w+], [sorted(..., reverse=True)], [collections.Counter]).
    - [Nx] holds the part of networkx's [Graph] the script calls: the
      adjacency dictionary in insertion order, [add_node], [add_edge],
      [degree], [degree_centrality], [density].
    - [Csv] holds [csv.DictWriter] at the level of the rows handed to the
      underlying writer.
    - The class [MisinformationTracker] is a record [Tracker] with the two
      instance fields, and each method is a computation in a small
      state-and-exception monad over that record.

    Numbers: Python's unbounded [int] is [Z].  The values Python computes
    as [float] (centrality, density, average engagement) are read twice.
    [analyze_network], [analyze_engagement] and [generate_report] read
    them in exact arithmetic, as rationals [Q] without rounding or range;
    this reading serves the statements that do not depend on rounding
    (which nodes and edges there are, integer totals, bounds, order,
    what is left of the instance).  [Float] gives the arithmetic of
    CPython's [float] (IEEE 754 binary64, round to nearest, ties to even,
    [OverflowError] when a quotient of two [int] is beyond the range), a
    double being the rational it denotes; [analyze_network_float],
    [analyze_engagement_float] and [generate_report_float] are the same
    methods in that arithmetic, and the statements about the values
    returned and about the exceptions raised are made of them.

    Text: a [str] is a [string]; the character classes of [lower] and
    [\w] are given for the ASCII range (bytes above 127 are left unchanged
    by [lower] and are not word characters), so statements about the words
    themselves are for ASCII contents. *)

From Stdlib Require Import List String Ascii Bool Arith ZArith QArith Qabs.
From Stdlib Require Import Lia Lqa.
From Stdlib Require Import DecimalString DecimalZ Sorted Permutation.
Import ListNotations.
Local Open Scope string_scope.
Local Open Scope list_scope.

(* ================================================================== *)
(** * Python builtins *)

Module Py.

(** Exceptions the script can raise. *)
Inductive exn : Type :=
| ZeroDivisionError
| OverflowError.

(** Outcome of a call: a value or a raised exception. *)
Inductive result (A : Type) : Type :=
| Ok (a : A)
| Raise (e : exn).
Arguments Ok {A} a.
Arguments Raise {A} e.

Definition map_result {A B : Type} (f : A -> B) (r : result A) : result B :=
  match r with
  | Ok a => Ok (f a)
  | Raise e => Raise e
  end.

(** [str(i)] for an [int]: decimal digits, a leading minus when negative. *)
Definition str (i : Z) : string := NilEmpty.string_of_int (Z.to_int i).

(** [range(n)]: [0, 1, ..., n-1], empty when [n <= 0]. *)
Definition range (n : Z) : list Z := map Z.of_nat (seq 0 (Z.to_nat n)).

(** [sum(iterable)]: a left fold that starts at [0]. *)
Definition sum (l : list Z) : Z := fold_left Z.add l 0%Z.

(** [sep.join(l)]. *)
Fixpoint join (sep : string) (l : list string) : string :=
  match l with
  | [] => ""
  | [x] => x
  | x :: rest => x ++ sep ++ join sep rest
  end.

(** [str.lower], character by character, for text in the ASCII range:
    the letters [A] to [Z] are lowered, every other character is kept. *)
Definition lower_char (c : ascii) : ascii :=
  let n := nat_of_ascii c in
  if (65 <=? n)%nat && (n <=? 90)%nat then ascii_of_nat (n + 32) else c.

Fixpoint lower (s : string) : string :=
  match s with
  | EmptyString => EmptyString
  | String c s' => String (lower_char c) (lower s')
  end.

(** The class [\w] on text in the ASCII range: letters, digits and the
    underscore. *)
Definition is_word_char (c : ascii) : bool :=
  let n := nat_of_ascii c in
  ((48 <=? n)%nat && (n <=? 57)%nat)
  || ((65 <=? n)%nat && (n <=? 90)%nat)
  || ((97 <=? n)%nat && (n <=? 122)%nat)
  || (n =? 95)%nat.

(** The match being read, kept in reverse, becomes a token when it ends. *)
Definition flush (cur : list ascii) : list string :=
  match cur with
  | [] => []
  | _ => [string_of_list_ascii (rev cur)]
  end.

Fixpoint findall_word_from (cur : list ascii) (s : string) : list string :=
  match s with
  | EmptyString => flush cur
  | String c s' =>
      if is_word_char c then findall_word_from (c :: cur) s'
      else flush cur ++ findall_word_from [] s'
  end.

(** [re.findall(r'\w+', s)]: the maximal runs of word characters, left to
    right. *)
Definition findall_word (s : string) : list string := findall_word_from [] s.

(** [sorted(l, key=..., reverse=True)]: a stable sort into descending key
    order; [gt y x] says that the key of [y] is strictly greater than the
    key of [x].  An element is placed before the first element whose key is
    not greater than its own, so equal keys keep their input order. *)
Section Sorted.
Context {A : Type} (gt : A -> A -> bool).

Fixpoint insert_desc (x : A) (l : list A) : list A :=
  match l with
  | [] => [x]
  | y :: l' => if gt y x then y :: insert_desc x l' else x :: y :: l'
  end.

Definition sorted_desc (l : list A) : list A := fold_right insert_desc [] l.
End Sorted.

(** [collections.Counter]: a dictionary from element to count, in the order
    the elements were first met. *)
Definition Counter : Type := list (string * nat).

(** [c[w] = c.get(w, 0) + 1]. *)
Fixpoint bump (w : string) (c : Counter) : Counter :=
  match c with
  | [] => [(w, 1%nat)]
  | (k, n) :: c' =>
      if String.eqb k w then (k, S n) :: c' else (k, n) :: bump w c'
  end.

(** [Counter(iterable)]. *)
Definition count_elements (ws : list string) : Counter :=
  fold_left (fun c w => bump w c) ws [].

Definition count_gt (x y : string * nat) : bool := (snd y <? snd x)%nat.

(** [Counter.most_common(n)]: the [n] entries with the largest counts, as
    [sorted(items, key=itemgetter(1), reverse=True)[:n]]. *)
Definition most_common (n : nat) (c : Counter) : list (string * nat) :=
  firstn n (sorted_desc count_gt c).

End Py.

(* ================================================================== *)
(** * CPython's [float] *)

Module Float.

(** A double is the rational it denotes; every double is a multiple of
    [2^-1074].  The sign of a zero is not kept (a negative zero arises only
    when a negative quotient underflows). *)

(** The integer nearest to [n / d], the even one at a tie ([0 <= n],
    [0 < d]). *)
Definition rne_div (n d : Z) : Z :=
  let (q, r) := Z.div_eucl n d in
  match (2 * r ?= d)%Z with
  | Lt => q
  | Gt => (q + 1)%Z
  | Eq => if Z.even q then q else (q + 1)%Z
  end.

(** The integer part of the binary logarithm of [n / d]. *)
Definition floor_log2 (n d : Z) : Z :=
  let k := (Z.log2 n - Z.log2 d)%Z in
  if (d * 2 ^ k <=? n)%Z then k else (k - 1)%Z.

(** With [n / d] counted in units of [2^-1074]: the doubles near [n / d]
    are the multiples of [2 ^ shift], which leaves 53 significant bits, or
    all the units below [2^-1022]. *)
Definition shift (n d : Z) : Z := Z.max 0 (floor_log2 n d - 52).

Definition round_units (n d : Z) : Z :=
  let t := shift n d in (rne_div n (d * 2 ^ t) * 2 ^ t)%Z.

Definition units_per_one : Z := (2 ^ 1074)%Z.

(** The double nearest to [a / b] ([0 < a], [0 < b]). *)
Definition round_ratio (a b : Z) : Q :=
  Qred (Qmake (round_units (a * units_per_one) b) (Z.to_pos units_per_one)).

(** Rounding of an exact result to the nearest double. *)
Definition round (q : Q) : Q :=
  match Qnum (Qred q) with
  | Z0 => 0%Q
  | Zpos p => round_ratio (Zpos p) (Zpos (Qden (Qred q)))
  | Zneg p => Qopp (round_ratio (Zpos p) (Zpos (Qden (Qred q))))
  end.

(** The least magnitude that rounds beyond the largest double. *)
Definition overflow_threshold : Z := (2 ^ 1024 - 2 ^ 970)%Z.

(** [a / b] on two [int]: the quotient correctly rounded,
    [ZeroDivisionError] for a zero divisor, [OverflowError] when the
    quotient is too large for a double. *)
Definition true_div (a b : Z) : Py.result Q :=
  if (b =? 0)%Z then Py.Raise Py.ZeroDivisionError
  else if (overflow_threshold * Z.abs b <=? Z.abs a)%Z
       then Py.Raise Py.OverflowError
       else Py.Ok (round (Qmake (a * Z.sgn b) (Z.to_pos (Z.abs b)))).

(** [float(n)] for the size of a container held in memory, far below the
    range limit. *)
Definition of_int (n : Z) : Q := round (inject_Z n).

(** [x - y], [x / y] (for [y] other than zero) and [x * y] on two
    doubles whose result is within range. *)
Definition sub (x y : Q) : Q := round (x - y).
Definition div (x y : Q) : Q := round (x / y).
Definition mul (x y : Q) : Q := round (x * y).

End Float.

(* ================================================================== *)
(** * networkx: the undirected [Graph] *)

Module Nx.

(** The adjacency dictionary [_adj]: every node with the list of its
    neighbours, both in insertion order.  The node dictionary [_node] has
    the same keys. *)
Definition Graph : Type := list (string * list string).

(** [nx.Graph()]. *)
Definition empty : Graph := [].

Definition mem (v : string) (l : list string) : bool :=
  existsb (String.eqb v) l.

(** [G._adj.get(u)]. *)
Fixpoint adj (g : Graph) (u : string) : option (list string) :=
  match g with
  | [] => None
  | (k, nb) :: g' => if String.eqb k u then Some nb else adj g' u
  end.

(** [u in G]. *)
Definition has_node (g : Graph) (u : string) : bool :=
  match adj g u with
  | Some _ => true
  | None => false
  end.

(** [G.has_edge(u, v)]. *)
Definition has_edge (g : Graph) (u v : string) : bool :=
  match adj g u with
  | Some nb => mem v nb
  | None => false
  end.

(** [G.add_node(u)]: a new node gets an empty neighbour dictionary, a known
    node is left alone. *)
Definition add_node (g : Graph) (u : string) : Graph :=
  if has_node g u then g else g ++ [(u, [])].

(** [G._adj[u][v] = datadict]: [v] joins the neighbours of [u] unless it is
    one already. *)
Fixpoint link (g : Graph) (u v : string) : Graph :=
  match g with
  | [] => []
  | (k, nb) :: g' =>
      if String.eqb k u
      then (k, if mem v nb then nb else nb ++ [v]) :: g'
      else (k, nb) :: link g' u v
  end.

(** [G.add_edge(u, v)]: both end points are added when absent, then the edge
    is recorded in both directions. *)
Definition add_edge (g : Graph) (u v : string) : Graph :=
  link (link (add_node (add_node g u) v) u v) v u.

(** [len(G)]. *)
Definition number_of_nodes (g : Graph) : nat := List.length g.

(** One item of [G.degree()]: the number of neighbours, a self-loop counted
    twice. *)
Definition degree_of (e : string * list string) : nat :=
  List.length (snd e) + (if mem (fst e) (snd e) then 1 else 0).

(** [G.degree()]. *)
Definition degree (g : Graph) : list (string * nat) :=
  map (fun e => (fst e, degree_of e)) g.

(** [G.number_of_edges()]: half the sum of the degrees. *)
Definition number_of_edges (g : Graph) : nat :=
  (list_sum (map snd (degree g)) / 2)%nat.

Definition Qnat (n : nat) : Q := inject_Z (Z.of_nat n).

(** [nx.degree_centrality(G)]:
    [if len(G) <= 1: return {n: 1 for n in G}], otherwise
    [s = 1.0 / (len(G) - 1.0)] and [{n: d * s for n, d in G.degree()}]. *)
Definition degree_centrality (g : Graph) : list (string * Q) :=
  if (number_of_nodes g <=? 1)%nat
  then map (fun e => (fst e, 1%Q)) g
  else
    let s := (1 / (Qnat (number_of_nodes g) - 1))%Q in
    map (fun nd => (fst nd, (Qnat (snd nd) * s)%Q)) (degree g).

(** [nx.density(G)] for an undirected graph:
    [0] when [m == 0 or n <= 1], otherwise [m / (n * (n - 1))] doubled. *)
Definition density (g : Graph) : Q :=
  let n := number_of_nodes g in
  let m := number_of_edges g in
  if (m =? 0)%nat || (n <=? 1)%nat then 0%Q
  else ((Qnat m / Qnat (n * (n - 1))) * 2)%Q.

End Nx.

(** [nx.degree_centrality(G)] in the arithmetic of [float]:
    [s = 1.0 / (len(G) - 1.0)] and [d * s] for every degree [d]. *)
Definition degree_centrality_float (g : Nx.Graph) : list (string * Q) :=
  if (Nx.number_of_nodes g <=? 1)%nat
  then map (fun e => (fst e, 1%Q)) g
  else
    let n := Float.of_int (Z.of_nat (Nx.number_of_nodes g)) in
    let s := Float.div 1 (Float.sub n 1) in
    map (fun nd => (fst nd, Float.mul (Float.of_int (Z.of_nat (snd nd))) s))
        (Nx.degree g).

(** [nx.density(G)] in the arithmetic of [float]: [m / (n * (n - 1))] is a
    division of two [int], and [d *= 2] a product of doubles. *)
Definition density_float (g : Nx.Graph) : Py.result Q :=
  let n := Nx.number_of_nodes g in
  let m := Nx.number_of_edges g in
  if (m =? 0)%nat || (n <=? 1)%nat then Py.Ok 0%Q
  else Py.map_result (fun d => Float.mul d 2)
         (Float.true_div (Z.of_nat m) (Z.of_nat (n * (n - 1)))).

(* ================================================================== *)
(** * The post records and the tracker *)

(** [post['engagement']]. *)
Record Engagement : Type := mkEngagement {
  likes : Z;
  shares : Z
}.

(** One post: the dictionary built by [collect_posts], key by key. *)
Record Post : Type := mkPost {
  timestamp : string;
  platform : string;
  content : string;
  user : string;
  engagement : Engagement;
  links : list string;
  hashtags : list string
}.

(** Python compares two dictionaries key by key, so [post != other_post] is
    decided on every field of the record. *)
Definition Post_eq_dec (p q : Post) : {p = q} + {p <> q}.
Proof.
  repeat decide equality.
Defined.

Definition post_ne (p q : Post) : bool :=
  if Post_eq_dec p q then false else true.

(** The instance: [self.data] and [self.network]. *)
Record Tracker : Type := mkTracker {
  data : list Post;
  network : Nx.Graph
}.

(** The result dictionaries of the three analyses and of the report. *)
Record NetworkAnalysis : Type := mkNetworkAnalysis {
  central_nodes : list (string * Q);
  community_count : nat;
  density : Q
}.

Record NarrativeAnalysis : Type := mkNarrativeAnalysis {
  common_words : list (string * nat);
  common_hashtags : list (string * nat)
}.

Record EngagementAnalysis : Type := mkEngagementAnalysis {
  total_likes : Z;
  total_shares : Z;
  avg_engagement : Q
}.

Record Report : Type := mkReport {
  report_timestamp : string;
  data_points : nat;
  network_analysis : NetworkAnalysis;
  narrative_analysis : NarrativeAnalysis;
  engagement_analysis : EngagementAnalysis
}.

(** ** Methods as computations on the instance

    A method receives the instance and gives back its outcome together with
    the instance as it stands afterwards, also when it raises. *)

Definition M (A : Type) : Type := Tracker -> Py.result A * Tracker.

Definition ret {A : Type} (a : A) : M A := fun t => (Py.Ok a, t).

Definition raise {A : Type} (e : Py.exn) : M A := fun t => (Py.Raise e, t).

Definition bind {A B : Type} (m : M A) (k : A -> M B) : M B :=
  fun t =>
    match m t with
    | (Py.Ok a, t') => k a t'
    | (Py.Raise e, t') => (Py.Raise e, t')
    end.

Definition get_data : M (list Post) := fun t => (Py.Ok (data t), t).

Definition get_network : M Nx.Graph := fun t => (Py.Ok (network t), t).

Definition set_data (d : list Post) : M unit :=
  fun t => (Py.Ok tt, mkTracker d (network t)).

Definition set_network (g : Nx.Graph) : M unit :=
  fun t => (Py.Ok tt, mkTracker (data t) g).

(** The outcome of a library call that leaves the instance alone. *)
Definition lift {A : Type} (r : Py.result A) : M A := fun t => (r, t).

Declare Scope tracker_scope.
Delimit Scope tracker_scope with tracker.
Notation "x <- c1 ;; c2" := (bind c1 (fun x => c2))
  (at level 100, c1 at next level, right associativity) : tracker_scope.
Notation "c1 ;; c2" := (bind c1 (fun _ => c2))
  (at level 100, right associativity) : tracker_scope.

(** [__init__]. *)
Definition init : Tracker := mkTracker [] Nx.empty.

(** ** [collect_posts]

    [now i] is what [datetime.now().isoformat()] answers while the record of
    index [i] is built. *)
Definition sample_post (now : Z -> string) (keywords platform : string)
    (i : Z) : Post :=
  {| timestamp := now i;
     platform := platform;
     content := "Sample post containing " ++ keywords;
     user := "user_" ++ Py.str i;
     engagement := {| likes := i * 10; shares := i * 2 |};
     links := [("http://example" ++ Py.str i ++ ".com")%string];
     hashtags := [("#" ++ keywords)%string; "#sample"] |}.

Definition collect_posts (now : Z -> string) (keywords platform : string)
    (limit : Z) : M unit :=
  set_data (map (sample_post now keywords platform) (Py.range limit)).

(** ** [analyze_network] *)

(** [set(post['hashtags']).intersection(other_post['hashtags'])]. *)
Definition common_tags (post other_post : Post) : list string :=
  filter (fun tag => Nx.mem tag (hashtags other_post))
         (nodup string_dec (hashtags post)).

(** Truth value of a set: non-empty. *)
Definition truthy {A : Type} (s : list A) : bool :=
  match s with
  | [] => false
  | _ :: _ => true
  end.

(** Body of the inner loop. *)
Definition connect (post : Post) (g : Nx.Graph) (other_post : Post)
    : Nx.Graph :=
  if post_ne post other_post then
    if truthy (common_tags post other_post)
    then Nx.add_edge g (user post) (user other_post)
    else g
  else g.

(** Body of the outer loop. *)
Definition visit (batch : list Post) (g : Nx.Graph) (post : Post)
    : Nx.Graph :=
  fold_left (connect post) batch (Nx.add_node g (user post)).

(** The two nested loops over [self.data], acting on [self.network]. *)
Definition build_network (batch : list Post) (g : Nx.Graph) : Nx.Graph :=
  fold_left (visit batch) batch g.

(** Key order of [sorted(centrality.items(), key=lambda x: x[1], ...)]. *)
Definition centrality_gt (x y : string * Q) : bool :=
  negb (Qle_bool (snd x) (snd y)).

Section Analysis.

(** [nx.community.greedy_modularity_communities]: the partition routine
    of the graph library, taken as given. *)
Variable greedy_modularity_communities : Nx.Graph -> list (list string).

Definition analyze_network : M NetworkAnalysis :=
  (batch <- get_data ;;
   g0 <- get_network ;;
   set_network (build_network batch g0) ;;
   g <- get_network ;;
   let centrality := Nx.degree_centrality g in
   let communities := greedy_modularity_communities g in
   ret {| central_nodes :=
            firstn 10 (Py.sorted_desc centrality_gt centrality);
          community_count := List.length communities;
          density := Nx.density g |})%tracker.

(** ** [identify_narratives] *)
Definition identify_narratives : M NarrativeAnalysis :=
  (batch <- get_data ;;
   let all_content := Py.join " " (map content batch) in
   let words := Py.findall_word (Py.lower all_content) in
   let word_freq := Py.most_common 20 (Py.count_elements words) in
   let tags := flat_map hashtags batch in
   let hashtag_freq := Py.most_common 10 (Py.count_elements tags) in
   ret {| common_words := word_freq;
          common_hashtags := hashtag_freq |})%tracker.

(** ** [analyze_engagement]

    [pd.DataFrame(self.data)] builds a table that is never used and leaves
    the batch alone, so it has no counterpart here.  The three sums are
    evaluated in the order of the dictionary display; the division raises
    when [len(self.data)] is [0]. *)
Definition true_div (a : Z) (b : nat) : M Q :=
  match b with
  | O => raise Py.ZeroDivisionError
  | S _ => ret (inject_Z a / Nx.Qnat b)%Q
  end.

Definition analyze_engagement : M EngagementAnalysis :=
  (batch <- get_data ;;
   let tl := Py.sum (map (fun p => likes (engagement p)) batch) in
   let ts := Py.sum (map (fun p => shares (engagement p)) batch) in
   avg <- true_div
            (Py.sum (map (fun p => likes (engagement p)
                                   + shares (engagement p))%Z batch))
            (List.length batch) ;;
   ret {| total_likes := tl;
          total_shares := ts;
          avg_engagement := avg |})%tracker.

(** ** [generate_report]

    [now] is the reading of the clock when the report is assembled. *)
Definition generate_report (now : string) : M Report :=
  (network_analysis <- analyze_network ;;
   narrative_analysis <- identify_narratives ;;
   engagement_analysis <- analyze_engagement ;;
   batch <- get_data ;;
   ret {| report_timestamp := now;
          data_points := List.length batch;
          network_analysis := network_analysis;
          narrative_analysis := narrative_analysis;
          engagement_analysis := engagement_analysis |})%tracker.

End Analysis.

(** ** The methods in the arithmetic of [float]

    [analyze_engagement] with the division as CPython performs it on two
    [int]. *)
Definition true_div_float (a : Z) (b : nat) : M Q :=
  lift (Float.true_div a (Z.of_nat b)).

Definition analyze_engagement_float : M EngagementAnalysis :=
  (batch <- get_data ;;
   let tl := Py.sum (map (fun p => likes (engagement p)) batch) in
   let ts := Py.sum (map (fun p => shares (engagement p)) batch) in
   avg <- true_div_float
            (Py.sum (map (fun p => likes (engagement p)
                                   + shares (engagement p))%Z batch))
            (List.length batch) ;;
   ret {| total_likes := tl;
          total_shares := ts;
          avg_engagement := avg |})%tracker.

Section AnalysisFloat.

Variable greedy_modularity_communities : Nx.Graph -> list (list string).

(** [analyze_network] with the centrality and the density as networkx
    computes them; the entries of the result are evaluated in the order of
    the dictionary display. *)
Definition analyze_network_float : M NetworkAnalysis :=
  (batch <- get_data ;;
   g0 <- get_network ;;
   set_network (build_network batch g0) ;;
   g <- get_network ;;
   let centrality := degree_centrality_float g in
   let communities := greedy_modularity_communities g in
   d <- lift (density_float g) ;;
   ret {| central_nodes :=
            firstn 10 (Py.sorted_desc centrality_gt centrality);
          community_count := List.length communities;
          density := d |})%tracker.

(** [generate_report] over the two methods above. *)
Definition generate_report_float (now : string) : M Report :=
  (network_analysis <- analyze_network_float ;;
   narrative_analysis <- identify_narratives ;;
   engagement_analysis <- analyze_engagement_float ;;
   batch <- get_data ;;
   ret {| report_timestamp := now;
          data_points := List.length batch;
          network_analysis := network_analysis;
          narrative_analysis := narrative_analysis;
          engagement_analysis := engagement_analysis |})%tracker.

End AnalysisFloat.

(** The report without its time stamp. *)
Definition report_body (r : Report)
    : nat * NetworkAnalysis * NarrativeAnalysis * EngagementAnalysis :=
  (data_points r, network_analysis r, narrative_analysis r,
   engagement_analysis r).

(* ================================================================== *)
(** * [csv.DictWriter] and [export_data] *)

Module Csv.

(** A value handed to the writer; the writer renders it as text. *)
Inductive Cell : Type :=
| CStr (s : string)
| CEngagement (e : Engagement)
| CList (l : list string).

Definition Row : Type := list Cell.

(** The files, by name; a file is the sequence of rows written to it. *)
Definition FileSystem : Type := string -> option (list Row).

(** [open(filename, 'w')] followed by the writes: the file holds what was
    written, whatever it held before. *)
Definition write_file (fs : FileSystem) (filename : string)
    (rows : list Row) : FileSystem :=
  fun name => if String.eqb name filename then Some rows else fs name.

Definition fieldnames : list string :=
  ["timestamp"; "platform"; "content"; "user"; "engagement"; "links";
   "hashtags"].

(** [rowdict.get(key)]. *)
Definition post_get (p : Post) (key : string) : option Cell :=
  if String.eqb key "timestamp" then Some (CStr (timestamp p))
  else if String.eqb key "platform" then Some (CStr (platform p))
  else if String.eqb key "content" then Some (CStr (content p))
  else if String.eqb key "user" then Some (CStr (user p))
  else if String.eqb key "engagement" then Some (CEngagement (engagement p))
  else if String.eqb key "links" then Some (CList (links p))
  else if String.eqb key "hashtags" then Some (CList (hashtags p))
  else None.

(** [DictWriter._dict_to_list]: [rowdict.get(key, restval)] for every field
    name, with [restval = ''].  A post has exactly the seven keys, so the
    check for extra keys passes. *)
Definition dict_to_list (p : Post) : Row :=
  map (fun key => match post_get p key with
                  | Some c => c
                  | None => CStr ""
                  end) fieldnames.

(** [writer.writeheader()]. *)
Definition writeheader (f : list Row) : list Row :=
  f ++ [map CStr fieldnames].

(** [writer.writerows(rowdicts)]. *)
Definition writerows (f : list Row) (rowdicts : list Post) : list Row :=
  fold_left (fun f p => f ++ [dict_to_list p]) rowdicts f.

End Csv.

(** [export_data]: the instance is read, the file system is written. *)
Definition export_data (filename : string) (t : Tracker)
    (fs : Csv.FileSystem) : Csv.FileSystem :=
  Csv.write_file fs filename (Csv.writerows (Csv.writeheader []) (data t)).

(** [main] without the exports: collect, then report. *)
Definition collect_and_report
    (gm : Nx.Graph -> list (list string))
    (now_posts : Z -> string) (now_report : string)
    (keywords platform : string) (limit : Z) : M Report :=
  (collect_posts now_posts keywords platform limit ;;
   generate_report gm now_report)%tracker.

Definition collect_and_report_float
    (gm : Nx.Graph -> list (list string))
    (now_posts : Z -> string) (now_report : string)
    (keywords platform : string) (limit : Z) : M Report :=
  (collect_posts now_posts keywords platform limit ;;
   generate_report_float gm now_report)%tracker.

(* ================================================================== *)
(** * Notions used in the statements *)

(** The sum of [f] over a batch, post by post. *)
Definition sum_of (f : Post -> Z) (batch : list Post) : Z :=
  fold_right (fun p acc => (f p + acc)%Z) 0%Z batch.

(** [sigma f n] is the sum of [f i] for [0 <= i < n]. *)
Fixpoint sigma_nat (f : Z -> Z) (n : nat) : Z :=
  match n with
  | O => 0%Z
  | S k => (sigma_nat f k + f (Z.of_nat k))%Z
  end.

Definition sigma (f : Z -> Z) (n : Z) : Z := sigma_nat f (Z.to_nat n).

(** Two posts have a hashtag in common. *)
Definition share_hashtag (p q : Post) : Prop :=
  exists tag, In tag (hashtags p) /\ In tag (hashtags q).

(** Position at which [w] is first met in [ws] ([length ws] when it never
    is). *)
Fixpoint index_of (w : string) (ws : list string) : nat :=
  match ws with
  | [] => O
  | x :: rest => if String.eqb x w then O else S (index_of w rest)
  end.

(** The order of a frequency list over the tokens [ws]: larger counts
    first, and among equal counts the element met first in [ws]. *)
Definition ranked (ws : list string) (e1 e2 : string * nat) : Prop :=
  (snd e2 < snd e1)%nat
  \/ (snd e1 = snd e2 /\ (index_of (fst e1) ws < index_of (fst e2) ws)%nat).

(** The counts of a frequency list, added up. *)
Definition total (l : list (string * nat)) : nat := list_sum (map snd l).

(** The adjacency dictionary is well formed: a node has one entry, the
    neighbours of a node are nodes and are listed once. *)
Definition graph_wf (g : Nx.Graph) : Prop :=
  NoDup (map fst g)
  /\ Forall (fun e => NoDup (snd e)
                      /\ forall v, In v (snd e) -> In v (map fst g)) g.

(** No node is its own neighbour. *)
Definition loop_free (g : Nx.Graph) : Prop :=
  Forall (fun e => ~ In (fst e) (snd e)) g.

(** [e1] was first met before [e2] in [ws]. *)
Definition met_before (ws : list string) (e1 e2 : string * nat) : Prop :=
  (index_of (fst e1) ws < index_of (fst e2) ws)%nat.

(** A computation that gives the instance back as it received it. *)
Definition reads_only {A : Type} (m : M A) : Prop :=
  forall t, snd (m t) = t.

(** The guard of the inner loop: the posts differ and share a hashtag. *)
Definition fires (p q : Post) : bool :=
  post_ne p q && truthy (common_tags p q).

(** [x, y] are the authors of [p, q], in either order. *)
Definition joins (p q : Post) (x y : string) : bool :=
  (String.eqb (user p) x && String.eqb (user q) y)
  || (String.eqb (user q) x && String.eqb (user p) y).

(** The entries of a graph, checked against a set of known nodes [K]. *)
Definition entries_ok (K : list string) (g : Nx.Graph) : Prop :=
  Forall (fun e => NoDup (snd e) /\ forall v, In v (snd e) -> In v K) g.

(** No author has two different posts in the batch that share a hashtag. *)
Definition no_self_pair (batch : list Post) : Prop :=
  forall p q, In p batch -> In q batch -> p <> q -> share_hashtag p q ->
              user p <> user q.

(** The value [c] that [degree_centrality] gives to a node of degree [d]
    in a graph of [n] nodes. *)
Definition centrality_value (n d : nat) (c : Q) : Prop :=
  ((2 <= n)%nat -> (c == Nx.Qnat d / (Nx.Qnat n - 1))%Q)
  /\ ((n <= 1)%nat -> c = 1%Q).

(** Keys of a counter listed in the order they were first met in [ws]. *)
Definition met_in_order (ws : list string) (keys : list string) : Prop :=
  StronglySorted (fun k1 k2 => (index_of k1 ws < index_of k2 ws)%nat) keys.

(** What a counter built from [ws] looks like. *)
Record counts (ws : list string) (c : Py.Counter) : Prop := mkCounts {
  counts_nodup : NoDup (map fst c);
  counts_keys : forall k, In k (map fst c) <-> In k ws;
  counts_exact : forall k n, In (k, n) c -> n = count_occ string_dec ws k;
  counts_order : met_in_order ws (map fst c);
  counts_total : total c = List.length ws
}.

(** The graph is undirected: an edge is recorded at both end points. *)
Definition symmetric (g : Nx.Graph) : Prop :=
  forall u v, Nx.has_edge g u v = Nx.has_edge g v u.

(** Every post of the batch has an author of its own. *)
Definition distinct_authors (batch : list Post) : Prop :=
  NoDup (map user batch).

(** Every two different posts of the batch have a hashtag in common. *)
Definition all_share (batch : list Post) : Prop :=
  forall p q, In p batch -> In q batch -> p <> q -> share_hashtag p q.

(** No two different posts of the batch have a hashtag in common. *)
Definition none_share (batch : list Post) : Prop :=
  forall p q, In p batch -> In q batch -> p <> q -> ~ share_hashtag p q.

(** Descending order of centrality. *)
Definition centrality_ge (x y : string * Q) : Prop := (snd y <= snd x)%Q.

(** The batch read back from a row: the seven cells in header order. *)
Definition row_post (r : Csv.Row) : option Post :=
  match r with
  | [Csv.CStr ts; Csv.CStr pf; Csv.CStr c; Csv.CStr u; Csv.CEngagement e;
     Csv.CList l; Csv.CList h] =>
      Some {| timestamp := ts; platform := pf; content := c; user := u;
              engagement := e; links := l; hashtags := h |}
  | _ => None
  end.

(** An upper-case letter of the ASCII range. *)
Definition is_upper (c : ascii) : bool :=
  (65 <=? nat_of_ascii c)%nat && (nat_of_ascii c <=? 90)%nat.

(** A text whose characters are all in the ASCII range. *)
Definition is_ascii_text (s : string) : Prop :=
  Forall (fun c => (nat_of_ascii c < 128)%nat) (list_ascii_of_string s).

(** Half the distance between [1] and the next double, and the least
    positive double with 53 significant bits. *)
Definition unit_roundoff : Q := 1 # (2 ^ 53).

Definition least_normal : Q := 1 # (2 ^ 1022).

(** [c] is [x], rounded twice on the way ([0 <= x]). *)
Definition within_two_roundings (x c : Q) : Prop :=
  ((1 - unit_roundoff) * ((1 - unit_roundoff) * x) <= c
   /\ c <= (1 + unit_roundoff) * ((1 + unit_roundoff) * x))%Q.

(** The double that [degree_centrality] gives to a node of degree [d] in a
    graph of [n] nodes. *)
Definition centrality_double (n d : nat) : Q :=
  Float.mul (Float.of_int (Z.of_nat d))
            (Float.div 1 (Float.sub (Float.of_int (Z.of_nat n)) 1)).

(** The value [c] of that node, in the arithmetic of [float]. *)
Definition centrality_value_float (n d : nat) (c : Q) : Prop :=
  ((2 <= n)%nat ->
   c = centrality_double n d
   /\ within_two_roundings (Nx.Qnat d / (Nx.Qnat n - 1)) c)
  /\ ((n <= 1)%nat -> c = 1%Q).

(** The sum of likes and shares over a batch. *)
Definition likes_and_shares (batch : list Post) : Z :=
  sum_of (fun p => likes (engagement p) + shares (engagement p))%Z batch.

(* ================================================================== *)
(** * Sample inputs *)

(** Two clocks. *)
Definition clock0 : Z -> string := fun _ => "2024-01-01T00:00:00".

Definition clock1 : Z -> string :=
  fun i => ("2025-06-30T12:00:0" ++ Py.str i)%string.

(** A stand-in for the partition routine in the sample runs. *)
Definition no_communities : Nx.Graph -> list (list string) := fun _ => [].

(** A new tracker that collected a batch of one post. *)
Definition tracker_fresh_batch : Tracker :=
  snd (collect_posts clock0 "b" "twitter" 1 init).

(** A tracker that analysed a batch of two posts before it collected that
    same batch of one post. *)
Definition tracker_after_earlier_batch : Tracker :=
  snd (collect_posts clock0 "b" "twitter" 1
         (snd (analyze_network no_communities
                 (snd (collect_posts clock0 "a" "twitter" 2 init))))).

(** A new tracker and one post. *)
Definition tracker_one_post : Tracker :=
  snd (collect_posts clock0 "k" "twitter" 1 init).

(** A hand-made post under the hashtag [#t]. *)
Definition post_of (author text : string) : Post :=
  {| timestamp := "2024-01-01T00:00:00";
     platform := "twitter";
     content := text;
     user := author;
     engagement := {| likes := 0; shares := 0 |};
     links := [];
     hashtags := ["#t"] |}.

(** One author with two different posts under the same hashtag, and a
    second author using it too. *)
Definition tracker_repeated_author : Tracker :=
  mkTracker [post_of "a" "first"; post_of "a" "second"; post_of "b" "third"]
            Nx.empty.

(** Two authors under one hashtag, and two authors under different ones. *)
Definition batch_shared : list Post :=
  [post_of "a" "first"; post_of "b" "second"].

Definition batch_unrelated : list Post :=
  [ {| timestamp := "2024-01-01T00:00:00";
       platform := "twitter";
       content := "first";
       user := "a";
       engagement := {| likes := 1; shares := 0 |};
       links := [];
       hashtags := ["#x"] |};
    {| timestamp := "2024-01-01T00:00:00";
       platform := "twitter";
       content := "second";
       user := "b";
       engagement := {| likes := 0; shares := 1 |};
       links := [];
       hashtags := ["#y"] |} ].

(** One post with more likes than a double can hold. *)
Definition tracker_huge_likes : Tracker :=
  mkTracker
    [ {| timestamp := "2024-01-01T00:00:00";
         platform := "twitter";
         content := "one post";
         user := "user_0";
         engagement := {| likes := 10 ^ 400; shares := 0 |};
         links := [];
         hashtags := ["#a"] |} ]
    Nx.empty.

(** A tracker that has collected three posts and reported on them. *)
Definition tracker_after_three_posts : Tracker :=
  snd (collect_and_report no_communities clock0 "2024-01-01T00:00:01"
         "k" "twitter" 3 init).

(** Two posts in upper and lower case, with digits and an underscore. *)
Definition tracker_mixed_case : Tracker :=
  mkTracker [post_of "a" "Breaking NEWS: fact_check 2024!";
             post_of "b" "breaking news"]
            Nx.empty.

(** A post that carries eleven different hashtags. *)
Definition tracker_eleven_tags : Tracker :=
  mkTracker
    [ {| timestamp := "2024-01-01T00:00:00";
         platform := "twitter";
         content := "one post";
         user := "user_0";
         engagement := {| likes := 0; shares := 0 |};
         links := [];
         hashtags := ["#a"; "#b"; "#c"; "#d"; "#e"; "#f"; "#g"; "#h"; "#i";
                      "#j"; "#k"] |} ]
    Nx.empty.

(* ================================================================== *)
(** * Engagement *)

Lemma fold_left_add_shift (l : list Z) (a : Z) :
  fold_left Z.add l a = (a + fold_left Z.add l 0)%Z.
Proof.
  revert a; induction l as [|x l IH]; intros a; simpl.
  - lia.
  - rewrite IH, (IH x). lia.
Qed.

Lemma sum_map_sum_of (f : Post -> Z) (batch : list Post) :
  Py.sum (map f batch) = sum_of f batch.
Proof.
  unfold Py.sum.
  induction batch as [|p batch IH]; simpl; [reflexivity|].
  rewrite fold_left_add_shift, IH. lia.
Qed.

Lemma sum_of_plus (f g : Post -> Z) (batch : list Post) :
  sum_of (fun p => (f p + g p)%Z) batch = (sum_of f batch + sum_of g batch)%Z.
Proof.
  induction batch as [|p batch IH]; simpl; lia.
Qed.

Lemma analyze_engagement_nonempty (p : Post) (rest : list Post) (g : Nx.Graph) :
  analyze_engagement (mkTracker (p :: rest) g)
  = (Py.Ok {| total_likes := sum_of (fun q => likes (engagement q)) (p :: rest);
              total_shares := sum_of (fun q => shares (engagement q)) (p :: rest);
              avg_engagement :=
                (inject_Z (sum_of (fun q => likes (engagement q)
                                            + shares (engagement q))%Z (p :: rest))
                 / Nx.Qnat (List.length (p :: rest)))%Q |},
     mkTracker (p :: rest) g).
Proof.
  unfold analyze_engagement, bind, get_data, true_div, ret.
  cbn [data network List.length fst snd].
  rewrite !sum_map_sum_of. reflexivity.
Qed.

(** In exact arithmetic [analyze_engagement] raises [ZeroDivisionError]
    exactly when the batch is empty; on a non-empty batch it returns the
    sum of the likes, the sum of the shares, and the sum of likes plus
    shares divided by the number of posts. *)
Lemma analyze_engagement_fails_iff_empty (t : Tracker) :
  (fst (analyze_engagement t) = Py.Raise Py.ZeroDivisionError <-> data t = [])
  /\ (data t <> [] ->
      fst (analyze_engagement t)
      = Py.Ok {| total_likes := sum_of (fun p => likes (engagement p)) (data t);
                 total_shares := sum_of (fun p => shares (engagement p)) (data t);
                 avg_engagement :=
                   (inject_Z (sum_of (fun p => likes (engagement p)
                                               + shares (engagement p))%Z (data t))
                    / Nx.Qnat (List.length (data t)))%Q |}).
Proof.
  destruct t as [batch g]. cbn [data].
  destruct batch as [|p rest].
  - split.
    + split; reflexivity.
    + intros H. now contradiction H.
  - rewrite analyze_engagement_nonempty. cbn [fst]. split.
    + split; discriminate.
    + reflexivity.
Qed.

(** ** The synthetic batch *)

Lemma range_length (n : Z) : List.length (Py.range n) = Z.to_nat n.
Proof.
  unfold Py.range. now rewrite length_map, length_seq.
Qed.

Lemma sum_of_sample_posts (now : Z -> string) (kw pf : string)
    (f : Post -> Z) (h : Z -> Z) (k : nat) :
  (forall i, f (sample_post now kw pf i) = h i) ->
  sum_of f (map (sample_post now kw pf) (map Z.of_nat (seq 0 k)))
  = sigma_nat h k.
Proof.
  intros Hf. induction k as [|k IH].
  - reflexivity.
  - rewrite seq_S, !map_app. cbn [map Nat.add].
    assert (Happ : forall l1 l2, sum_of f (l1 ++ l2)
                                 = (sum_of f l1 + sum_of f l2)%Z).
    { intros l1 l2. induction l1 as [|x l1 IHl]; simpl; [reflexivity|].
      rewrite IHl. lia. }
    rewrite Happ, IH. simpl. rewrite Hf. lia.
Qed.

Lemma sigma_nat_linear (c : Z) (k : nat) :
  (2 * sigma_nat (fun i => c * i) k = c * Z.of_nat k * (Z.of_nat k - 1))%Z.
Proof.
  induction k as [|k IH].
  - cbn. lia.
  - cbn [sigma_nat]. rewrite Nat2Z.inj_succ. nia.
Qed.

(** C4. After [collect_posts] with count [N >= 1] the engagement analysis
    succeeds with [total_likes] the sum of [10 * i], [total_shares] the sum
    of [2 * i] and [avg_engagement] the sum of [12 * i] divided by [N], for
    [i] in [[0, N)]; with [N = 5] these are 100, 20 and 24. *)
Theorem engagement_of_synthetic_batch
    (now : Z -> string) (kw pf : string) (t : Tracker) (N : Z) :
  (1 <= N)%Z ->
  exists e,
    fst (analyze_engagement (snd (collect_posts now kw pf N t))) = Py.Ok e
    /\ total_likes e = sigma (fun i => 10 * i)%Z N
    /\ total_shares e = sigma (fun i => 2 * i)%Z N
    /\ (avg_engagement e == inject_Z (sigma (fun i => 12 * i)%Z N) / inject_Z N)%Q
    /\ (N = 5%Z ->
        total_likes e = 100%Z /\ total_shares e = 20%Z
        /\ (avg_engagement e == 24)%Q).
Proof.
  intros HN.
  unfold collect_posts, set_data. cbn [snd].
  unfold Py.range.
  destruct (Z.to_nat N) as [|k] eqn:Hk; [lia|].
  assert (Hlen : Z.of_nat (S k) = N) by lia.
  remember (map (sample_post now kw pf) (map Z.of_nat (seq 0 (S k)))) as batch
    eqn:Hb.
  assert (Hl : List.length batch = S k)
    by (subst batch; now rewrite !length_map, length_seq).
  destruct batch as [|p rest]; [discriminate|].
  rewrite analyze_engagement_nonempty. cbn [fst].
  eexists. split; [reflexivity|].
  cbn [total_likes total_shares avg_engagement].
  rewrite Hb.
  rewrite (sum_of_sample_posts now kw pf _ (fun i => 10 * i)%Z)
    by (intros i; unfold sample_post; cbn [likes shares engagement]; lia).
  rewrite (sum_of_sample_posts now kw pf _ (fun i => 2 * i)%Z)
    by (intros i; unfold sample_post; cbn [likes shares engagement]; lia).
  rewrite (sum_of_sample_posts now kw pf _ (fun i => 12 * i)%Z)
    by (intros i; unfold sample_post; cbn [likes shares engagement]; lia).
  rewrite <- Hb, Hl. unfold sigma. rewrite Hk. unfold Nx.Qnat. rewrite Hlen.
  split; [reflexivity|]. split; [reflexivity|]. split; [reflexivity|].
  intros H5. assert (k = 4%nat) by lia. subst k N.
  repeat split; reflexivity.
Qed.

(** The run of the claim's example: a new tracker and five posts. *)
Lemma engagement_of_five_posts :
  (1 <= 5)%Z
  /\ exists e,
       fst (analyze_engagement
              (snd (collect_posts clock0 "election2024" "twitter" 5 init)))
       = Py.Ok e
       /\ total_likes e = 100%Z /\ total_shares e = 20%Z
       /\ (avg_engagement e == 24)%Q.
Proof.
  split; [lia|].
  destruct (engagement_of_synthetic_batch clock0 "election2024" "twitter"
              init 5 ltac:(lia)) as (e & He & _ & _ & _ & H5).
  exists e. split; [exact He|]. exact (H5 eq_refl).
Defined.

(* ================================================================== *)
(** * Export *)

Lemma writerows_app (f : list Csv.Row) (rowdicts : list Post) :
  Csv.writerows f rowdicts = f ++ map Csv.dict_to_list rowdicts.
Proof.
  unfold Csv.writerows. revert f.
  induction rowdicts as [|p rowdicts IH]; intros f; simpl.
  - now rewrite app_nil_r.
  - rewrite IH, <- app_assoc. reflexivity.
Qed.

(** C8. For a batch of [M] posts, [M = 0] included, [export_data] leaves in
    the file one header row with the columns timestamp, platform, content,
    user, engagement, links, hashtags in that order, followed by exactly
    [M] data rows, one per post. *)
Theorem export_data_header_and_rows
    (filename : string) (t : Tracker) (fs : Csv.FileSystem) :
  exists rows,
    export_data filename t fs filename
    = Some ([Csv.CStr "timestamp"; Csv.CStr "platform"; Csv.CStr "content";
             Csv.CStr "user"; Csv.CStr "engagement"; Csv.CStr "links";
             Csv.CStr "hashtags"] :: rows)
    /\ List.length rows = List.length (data t)
    /\ rows = map Csv.dict_to_list (data t).
Proof.
  exists (map Csv.dict_to_list (data t)).
  unfold export_data, Csv.write_file.
  rewrite String.eqb_refl, writerows_app.
  split; [reflexivity|]. split; [apply length_map | reflexivity].
Qed.

(* ================================================================== *)
(** * Methods that only read the instance *)

Lemma reads_only_ret {A : Type} (a : A) : reads_only (ret a).
Proof. intros t. reflexivity. Qed.

Lemma reads_only_raise {A : Type} (e : Py.exn) : reads_only (@raise A e).
Proof. intros t. reflexivity. Qed.

Lemma reads_only_get_data : reads_only get_data.
Proof. intros t. reflexivity. Qed.

Lemma reads_only_get_network : reads_only get_network.
Proof. intros t. reflexivity. Qed.

Lemma reads_only_bind {A B : Type} (m : M A) (k : A -> M B) :
  reads_only m -> (forall a, reads_only (k a)) -> reads_only (bind m k).
Proof.
  intros Hm Hk t. unfold bind.
  specialize (Hm t). destruct (m t) as [[a|e] t']; cbn [snd] in Hm; subst t'.
  - apply Hk.
  - reflexivity.
Qed.

Lemma reads_only_true_div (a : Z) (b : nat) : reads_only (true_div a b).
Proof.
  destruct b; [apply reads_only_raise | apply reads_only_ret].
Qed.

Create HintDb readers.
#[local] Hint Resolve reads_only_ret reads_only_raise reads_only_get_data
  reads_only_get_network reads_only_true_div : readers.

Ltac reader :=
  repeat (apply reads_only_bind; [|intros ?]); auto with readers.

(** C9. [identify_narratives] and [analyze_engagement] only read the
    instance: after either call, whether it returns or raises, [self.data]
    and [self.network] are what they were before. *)
Theorem narratives_and_engagement_read_only (t : Tracker) :
  (data (snd (identify_narratives t)) = data t
   /\ network (snd (identify_narratives t)) = network t)
  /\ (data (snd (analyze_engagement t)) = data t
      /\ network (snd (analyze_engagement t)) = network t).
Proof.
  assert (Hn : reads_only identify_narratives)
    by (unfold identify_narratives; reader).
  assert (He : reads_only analyze_engagement)
    by (unfold analyze_engagement; reader).
  rewrite (Hn t), (He t). repeat split.
Qed.

(* ================================================================== *)
(** * The graph operations *)

Lemma mem_In (v : string) (l : list string) : Nx.mem v l = true <-> In v l.
Proof.
  unfold Nx.mem. rewrite existsb_exists. split.
  - intros (x & Hx & E). apply String.eqb_eq in E. now subst.
  - intros H. exists v. split; [exact H | apply String.eqb_refl].
Qed.

Lemma mem_snoc (y v : string) (nb : list string) :
  Nx.mem y (nb ++ [v]) = Nx.mem y nb || String.eqb y v.
Proof.
  unfold Nx.mem. rewrite existsb_app. simpl. now rewrite orb_false_r.
Qed.

Lemma adj_snoc (g : Nx.Graph) (u x : string) :
  Nx.adj (g ++ [(u, [])]) x
  = match Nx.adj g x with
    | Some nb => Some nb
    | None => if String.eqb u x then Some [] else None
    end.
Proof.
  induction g as [|[k nb] g IH]; simpl.
  - reflexivity.
  - destruct (String.eqb k x); [reflexivity | exact IH].
Qed.

Lemma adj_link (g : Nx.Graph) (u v x : string) :
  Nx.adj (Nx.link g u v) x
  = match Nx.adj g x with
    | Some nb =>
        Some (if String.eqb u x
              then if Nx.mem v nb then nb else nb ++ [v]
              else nb)
    | None => None
    end.
Proof.
  induction g as [|[k nb] g IH]; simpl.
  - reflexivity.
  - destruct (String.eqb_spec k u) as [->|Hku]; simpl.
    + destruct (String.eqb_spec u x) as [->|Hux].
      * reflexivity.
      * destruct (Nx.adj g x); reflexivity.
    + destruct (String.eqb_spec k x) as [->|Hkx].
      * destruct (String.eqb_spec u x) as [->|Hux]; [congruence | reflexivity].
      * exact IH.
Qed.

Lemma has_node_add_node (g : Nx.Graph) (u x : string) :
  Nx.has_node (Nx.add_node g u) x = Nx.has_node g x || String.eqb u x.
Proof.
  unfold Nx.add_node.
  destruct (Nx.has_node g u) eqn:Hu.
  - destruct (String.eqb_spec u x) as [->|Hux].
    + now rewrite Hu.
    + now rewrite orb_false_r.
  - unfold Nx.has_node. rewrite adj_snoc.
    destruct (Nx.adj g x); [reflexivity|].
    destruct (String.eqb u x); reflexivity.
Qed.

Lemma has_edge_add_node (g : Nx.Graph) (u x y : string) :
  Nx.has_edge (Nx.add_node g u) x y = Nx.has_edge g x y.
Proof.
  unfold Nx.add_node.
  destruct (Nx.has_node g u); [reflexivity|].
  unfold Nx.has_edge. rewrite adj_snoc.
  destruct (Nx.adj g x); [reflexivity|].
  destruct (String.eqb u x); reflexivity.
Qed.

Lemma has_node_link (g : Nx.Graph) (u v x : string) :
  Nx.has_node (Nx.link g u v) x = Nx.has_node g x.
Proof.
  unfold Nx.has_node. rewrite adj_link. destruct (Nx.adj g x); reflexivity.
Qed.

Lemma has_edge_link (g : Nx.Graph) (u v x y : string) :
  Nx.has_edge (Nx.link g u v) x y
  = Nx.has_edge g x y
    || (Nx.has_node g x && String.eqb u x && String.eqb y v).
Proof.
  unfold Nx.has_edge, Nx.has_node. rewrite adj_link.
  destruct (Nx.adj g x) as [nb|]; [|reflexivity].
  destruct (String.eqb u x); simpl.
  - destruct (Nx.mem v nb) eqn:Hv.
    + destruct (String.eqb_spec y v) as [->|Hyv].
      * now rewrite Hv.
      * now rewrite orb_false_r.
    + apply mem_snoc.
  - now rewrite orb_false_r.
Qed.

Lemma has_node_add_edge (g : Nx.Graph) (u v x : string) :
  Nx.has_node (Nx.add_edge g u v) x
  = Nx.has_node g x || String.eqb u x || String.eqb v x.
Proof.
  unfold Nx.add_edge. now rewrite !has_node_link, !has_node_add_node.
Qed.

Lemma has_edge_add_edge (g : Nx.Graph) (u v x y : string) :
  Nx.has_edge (Nx.add_edge g u v) x y
  = Nx.has_edge g x y
    || (String.eqb u x && String.eqb v y)
    || (String.eqb v x && String.eqb u y).
Proof.
  unfold Nx.add_edge.
  rewrite !has_edge_link, !has_node_link, !has_node_add_node,
    !has_edge_add_node.
  rewrite (String.eqb_sym y v), (String.eqb_sym y u).
  destruct (Nx.has_edge g x y), (Nx.has_node g x);
    destruct (String.eqb_spec u x), (String.eqb_spec v x);
    destruct (String.eqb v y), (String.eqb u y); reflexivity.
Qed.

Lemma add_node_known (g : Nx.Graph) (u : string) :
  Nx.has_node g u = true -> Nx.add_node g u = g.
Proof.
  intros H. unfold Nx.add_node. now rewrite H.
Qed.

Lemma link_known (g : Nx.Graph) (u v : string) :
  Nx.has_edge g u v = true -> Nx.link g u v = g.
Proof.
  unfold Nx.has_edge.
  induction g as [|[k nb] g IH]; simpl; [reflexivity|].
  destruct (String.eqb k u).
  - intros ->. reflexivity.
  - intros H. now rewrite IH.
Qed.

Lemma has_edge_has_node (g : Nx.Graph) (u v : string) :
  Nx.has_edge g u v = true -> Nx.has_node g u = true.
Proof.
  unfold Nx.has_edge, Nx.has_node. destruct (Nx.adj g u); [reflexivity | discriminate].
Qed.

Lemma add_edge_known (g : Nx.Graph) (u v : string) :
  Nx.has_edge g u v = true -> Nx.has_edge g v u = true ->
  Nx.add_edge g u v = g.
Proof.
  intros Huv Hvu. unfold Nx.add_edge.
  rewrite (add_node_known g u) by (eapply has_edge_has_node; eassumption).
  rewrite (add_node_known g v) by (eapply has_edge_has_node; eassumption).
  rewrite (link_known g u v) by assumption.
  now apply link_known.
Qed.

(* ================================================================== *)
(** * The loops of [analyze_network] *)

Lemma post_ne_true (p q : Post) : post_ne p q = true <-> p <> q.
Proof.
  unfold post_ne. destruct (Post_eq_dec p q); split; congruence.
Qed.

Lemma truthy_exists {A : Type} (l : list A) :
  truthy l = true <-> exists x, In x l.
Proof.
  destruct l as [|a l]; simpl; split.
  - discriminate.
  - intros (x & []).
  - intros _. exists a. now left.
  - reflexivity.
Qed.

Lemma common_tags_share (p q : Post) :
  truthy (common_tags p q) = true <-> share_hashtag p q.
Proof.
  rewrite truthy_exists. unfold common_tags, share_hashtag.
  split; intros (tag & H); exists tag.
  - apply filter_In in H. destruct H as [Hp Hq].
    apply nodup_In in Hp. apply mem_In in Hq. now split.
  - destruct H as [Hp Hq]. apply filter_In. split.
    + now apply nodup_In.
    + now apply mem_In.
Qed.

Lemma fires_iff (p q : Post) :
  fires p q = true <-> p <> q /\ share_hashtag p q.
Proof.
  unfold fires. now rewrite andb_true_iff, post_ne_true, common_tags_share.
Qed.

Lemma joins_iff (p q : Post) (x y : string) :
  joins p q x y = true
  <-> (user p = x /\ user q = y) \/ (user q = x /\ user p = y).
Proof.
  unfold joins.
  now rewrite orb_true_iff, !andb_true_iff, !String.eqb_eq.
Qed.

Lemma share_hashtag_sym (p q : Post) : share_hashtag p q -> share_hashtag q p.
Proof.
  intros (tag & Hp & Hq). exists tag. now split.
Qed.

Lemma connect_unfold (p : Post) (g : Nx.Graph) (q : Post) :
  connect p g q = if fires p q then Nx.add_edge g (user p) (user q) else g.
Proof.
  unfold connect, fires. destruct (post_ne p q); [|reflexivity].
  destruct (truthy (common_tags p q)); reflexivity.
Qed.

Lemma has_edge_connect (p q : Post) (g : Nx.Graph) (x y : string) :
  Nx.has_edge (connect p g q) x y
  = Nx.has_edge g x y || (fires p q && joins p q x y).
Proof.
  rewrite connect_unfold. unfold joins. destruct (fires p q); simpl.
  - rewrite has_edge_add_edge. now rewrite orb_assoc.
  - now rewrite orb_false_r.
Qed.

Lemma has_node_connect (p q : Post) (g : Nx.Graph) (x : string) :
  Nx.has_node (connect p g q) x
  = Nx.has_node g x
    || (fires p q && (String.eqb (user p) x || String.eqb (user q) x)).
Proof.
  rewrite connect_unfold. destruct (fires p q); simpl.
  - rewrite has_node_add_edge. now rewrite orb_assoc.
  - now rewrite orb_false_r.
Qed.

Lemma has_edge_inner (p : Post) (l : list Post) (g : Nx.Graph) (x y : string) :
  Nx.has_edge (fold_left (connect p) l g) x y
  = Nx.has_edge g x y || existsb (fun q => fires p q && joins p q x y) l.
Proof.
  revert g. induction l as [|q l IH]; intros g; simpl.
  - now rewrite orb_false_r.
  - rewrite IH, has_edge_connect. now rewrite orb_assoc.
Qed.

Lemma has_node_inner (p : Post) (l : list Post) (g : Nx.Graph) (x : string) :
  Nx.has_node (fold_left (connect p) l g) x
  = Nx.has_node g x
    || existsb (fun q => fires p q
                         && (String.eqb (user p) x || String.eqb (user q) x)) l.
Proof.
  revert g. induction l as [|q l IH]; intros g; simpl.
  - now rewrite orb_false_r.
  - rewrite IH, has_node_connect. now rewrite orb_assoc.
Qed.

Lemma has_edge_outer (batch ps : list Post) (g : Nx.Graph) (x y : string) :
  Nx.has_edge (fold_left (visit batch) ps g) x y
  = Nx.has_edge g x y
    || existsb (fun p => existsb (fun q => fires p q && joins p q x y) batch) ps.
Proof.
  revert g. induction ps as [|p ps IH]; intros g; simpl.
  - now rewrite orb_false_r.
  - rewrite IH. unfold visit.
    rewrite has_edge_inner, has_edge_add_node. now rewrite orb_assoc.
Qed.

Lemma has_node_outer (batch ps : list Post) (g : Nx.Graph) (x : string) :
  Nx.has_node (fold_left (visit batch) ps g) x
  = Nx.has_node g x
    || existsb (fun p =>
                  String.eqb (user p) x
                  || existsb (fun q => fires p q
                                       && (String.eqb (user p) x
                                           || String.eqb (user q) x)) batch) ps.
Proof.
  revert g. induction ps as [|p ps IH]; intros g; simpl.
  - now rewrite orb_false_r.
  - rewrite IH. unfold visit.
    rewrite has_node_inner, has_node_add_node. now rewrite !orb_assoc.
Qed.

(** The edges after the loops: those held before, and one between the
    authors of every two different posts of the batch that share a
    hashtag. *)
Lemma build_network_edges (batch : list Post) (g : Nx.Graph) (x y : string) :
  Nx.has_edge (build_network batch g) x y = true
  <-> Nx.has_edge g x y = true
      \/ exists p q, In p batch /\ In q batch /\ p <> q /\ share_hashtag p q
                     /\ x = user p /\ y = user q.
Proof.
  unfold build_network. rewrite has_edge_outer, orb_true_iff, existsb_exists.
  split; (intros [H|H]; [now left | right]).
  - destruct H as (p & Hp & H). apply existsb_exists in H.
    destruct H as (q & Hq & H). apply andb_true_iff in H.
    destruct H as [Hf Hj]. apply fires_iff in Hf. destruct Hf as [Hne Hs].
    apply joins_iff in Hj. destruct Hj as [[<- <-]|[<- <-]].
    + exists p, q. auto 10.
    + exists q, p. repeat split; auto using share_hashtag_sym.
  - destruct H as (p & q & Hp & Hq & Hne & Hs & -> & ->).
    exists p. split; [exact Hp|]. apply existsb_exists.
    exists q. split; [exact Hq|]. apply andb_true_iff. split.
    + apply fires_iff. now split.
    + apply joins_iff. now left.
Qed.

(** The nodes after the loops: those held before, and the author of every
    post of the batch. *)
Lemma build_network_nodes (batch : list Post) (g : Nx.Graph) (x : string) :
  Nx.has_node (build_network batch g) x = true
  <-> Nx.has_node g x = true \/ exists p, In p batch /\ user p = x.
Proof.
  unfold build_network. rewrite has_node_outer, orb_true_iff, existsb_exists.
  split; (intros [H|H]; [now left | right]).
  - destruct H as (p & Hp & H). apply orb_true_iff in H.
    destruct H as [H|H].
    + apply String.eqb_eq in H. now exists p.
    + apply existsb_exists in H. destruct H as (q & Hq & H).
      apply andb_true_iff in H. destruct H as [_ H].
      apply orb_true_iff in H. destruct H as [H|H]; apply String.eqb_eq in H.
      * now exists p.
      * now exists q.
  - destruct H as (p & Hp & <-). exists p. split; [exact Hp|].
    now rewrite String.eqb_refl.
Qed.

Lemma analyze_network_state
    (gm : Nx.Graph -> list (list string)) (t : Tracker) :
  snd (analyze_network gm t)
  = mkTracker (data t) (build_network (data t) (network t)).
Proof. reflexivity. Qed.

(** C1. After [analyze_network] the author of every post is a node; for
    every two different posts of the batch whose hashtag sets intersect
    the graph has an edge between their authors; and every edge of the
    graph was there before the call or joins the authors of two different
    posts that share a hashtag, so no post is paired with itself.  Posts
    are different when they differ in some field, which is what Python's
    [!=] decides on two dictionaries. *)
Theorem analyze_network_connects_sharing_posts
    (gm : Nx.Graph -> list (list string)) (t : Tracker) :
  let g' := network (snd (analyze_network gm t)) in
  (forall p, In p (data t) -> Nx.has_node g' (user p) = true)
  /\ (forall p q, In p (data t) -> In q (data t) -> p <> q ->
                  share_hashtag p q ->
                  Nx.has_edge g' (user p) (user q) = true
                  /\ Nx.has_edge g' (user q) (user p) = true)
  /\ (forall u v, Nx.has_edge g' u v = true ->
                  Nx.has_edge (network t) u v = true
                  \/ exists p q, In p (data t) /\ In q (data t) /\ p <> q
                                 /\ share_hashtag p q
                                 /\ u = user p /\ v = user q).
Proof.
  rewrite analyze_network_state. cbn [network].
  split; [|split].
  - intros p Hp. apply build_network_nodes. right. now exists p.
  - intros p q Hp Hq Hne Hs. split; apply build_network_edges; right.
    + exists p, q. auto 10.
    + exists q, p. repeat split; auto using share_hashtag_sym.
  - intros u v H. now apply build_network_edges in H.
Qed.

(** A record that occurs twice in a batch is one post to the inner loop:
    the two occurrences are equal, so they are not paired and their author
    gets no self-loop. *)
Lemma identical_records_not_paired :
  network (snd (analyze_network no_communities
                  (mkTracker [post_of "a" "first"; post_of "a" "first"]
                             Nx.empty)))
  = [("a", [])].
Proof. vm_compute. reflexivity. Qed.

(** ** The graph is kept between calls *)

Lemma inner_fixed (p : Post) (l : list Post) (g : Nx.Graph) :
  (forall q, In q l -> fires p q = true ->
             Nx.has_edge g (user p) (user q) = true
             /\ Nx.has_edge g (user q) (user p) = true) ->
  fold_left (connect p) l g = g.
Proof.
  induction l as [|q l IH]; intros H; simpl; [reflexivity|].
  assert (Hq : connect p g q = g).
  { rewrite connect_unfold. destruct (fires p q) eqn:Hf; [|reflexivity].
    destruct (H q (or_introl eq_refl) Hf) as [H1 H2].
    now apply add_edge_known. }
  rewrite Hq. apply IH. intros q' Hq'. apply H. now right.
Qed.

Lemma outer_fixed (batch ps : list Post) (g : Nx.Graph) :
  (forall p, In p ps -> Nx.has_node g (user p) = true) ->
  (forall p q, In p ps -> In q batch -> fires p q = true ->
               Nx.has_edge g (user p) (user q) = true
               /\ Nx.has_edge g (user q) (user p) = true) ->
  fold_left (visit batch) ps g = g.
Proof.
  induction ps as [|p ps IH]; intros Hn He; simpl; [reflexivity|].
  assert (Hp : visit batch g p = g).
  { unfold visit. rewrite add_node_known by (apply Hn; now left).
    apply inner_fixed. intros q Hq. apply He; [now left | exact Hq]. }
  rewrite Hp. apply IH.
  - intros p' Hp'. apply Hn. now right.
  - intros p' q Hp'. apply He. now right.
Qed.

Lemma build_network_twice (batch : list Post) (g : Nx.Graph) :
  build_network batch (build_network batch g) = build_network batch g.
Proof.
  unfold build_network at 1. apply outer_fixed.
  - intros p Hp. apply build_network_nodes. right. now exists p.
  - intros p q Hp Hq Hf. apply fires_iff in Hf. destruct Hf as [Hne Hs].
    split; apply build_network_edges; right.
    + exists p, q. auto 10.
    + exists q, p. repeat split; auto using share_hashtag_sym.
Qed.

(** C5, as stated, fails: two trackers hold the same current batch, and the
    graph analysed by [analyze_network] still has the node and the edge of
    the batch analysed earlier on one of them. *)
Lemma earlier_batch_stays_in_graph :
  data tracker_after_earlier_batch = data tracker_fresh_batch
  /\ network (snd (analyze_network no_communities tracker_fresh_batch))
     = [("user_0", [])]
  /\ network (snd (analyze_network no_communities tracker_after_earlier_batch))
     = [("user_0", ["user_1"]); ("user_1", ["user_0"])]
  /\ exists a b,
       fst (analyze_network no_communities tracker_fresh_batch) = Py.Ok a
       /\ fst (analyze_network no_communities tracker_after_earlier_batch)
          = Py.Ok b
       /\ (density a == 0)%Q /\ (density b == 1)%Q.
Proof.
  split; [reflexivity|]. split; [reflexivity|]. split; [reflexivity|].
  eexists. eexists. split; [reflexivity|]. split; [reflexivity|].
  split; reflexivity.
Qed.

(** C5, amended. [analyze_network] works on the graph the tracker holds and
    adds to it: the batch is left as it is, the nodes and the edges
    afterwards are those held before the call together with those of the
    current batch, and analysing the same batch once more changes neither
    the graph nor the result. *)
Theorem analyze_network_extends_graph
    (gm : Nx.Graph -> list (list string)) (t : Tracker) :
  let t' := snd (analyze_network gm t) in
  data t' = data t
  /\ (forall x, Nx.has_node (network t') x = true
                <-> Nx.has_node (network t) x = true
                    \/ exists p, In p (data t) /\ user p = x)
  /\ (forall x y, Nx.has_edge (network t') x y = true
                  <-> Nx.has_edge (network t) x y = true
                      \/ exists p q, In p (data t) /\ In q (data t) /\ p <> q
                                     /\ share_hashtag p q
                                     /\ x = user p /\ y = user q)
  /\ analyze_network gm t' = (fst (analyze_network gm t), t').
Proof.
  rewrite analyze_network_state. cbn [data network].
  split; [reflexivity|]. split; [|split].
  - intros x. apply build_network_nodes.
  - intros x y. apply build_network_edges.
  - unfold analyze_network, bind, get_data, get_network, set_network, ret.
    cbn [data network fst snd]. now rewrite build_network_twice.
Qed.

(* ================================================================== *)
(** * Well-formed graphs and the size of a neighbourhood *)

Lemma keys_link (g : Nx.Graph) (u v : string) :
  map fst (Nx.link g u v) = map fst g.
Proof.
  induction g as [|[k nb] g IH]; simpl; [reflexivity|].
  destruct (String.eqb k u); simpl; [reflexivity | now rewrite IH].
Qed.

Lemma has_node_keys (g : Nx.Graph) (u : string) :
  Nx.has_node g u = true <-> In u (map fst g).
Proof.
  unfold Nx.has_node.
  induction g as [|[k nb] g IH]; simpl.
  - split; [discriminate | intros []].
  - destruct (String.eqb_spec k u) as [->|Hku].
    + split; auto.
    + rewrite IH. split; [now right | now intros [|]].
Qed.

Lemma keys_add_node (g : Nx.Graph) (u : string) :
  forall x, In x (map fst (Nx.add_node g u)) <-> In x (map fst g) \/ x = u.
Proof.
  intros x. unfold Nx.add_node. destruct (Nx.has_node g u) eqn:Hu.
  - apply has_node_keys in Hu. split; [now left | now intros [ H | -> ]].
  - rewrite map_app, in_app_iff. simpl. intuition.
Qed.

Lemma entries_ok_weaken (K K' : list string) (g : Nx.Graph) :
  (forall v, In v K -> In v K') -> entries_ok K g -> entries_ok K' g.
Proof.
  intros HK H. unfold entries_ok in *. eapply Forall_impl; [|exact H].
  intros e [Hn Hi]. split; auto.
Qed.

Lemma entries_ok_link (K : list string) (g : Nx.Graph) (u v : string) :
  In v K -> entries_ok K g -> entries_ok K (Nx.link g u v).
Proof.
  intros Hv. unfold entries_ok.
  induction g as [|[k nb] g IH]; intros H; simpl; [constructor|].
  inversion H as [|e g' [Hn Hi] Hg]; subst.
  destruct (String.eqb k u).
  - constructor; [|exact Hg]. cbn [snd] in *.
    destruct (Nx.mem v nb) eqn:Hm; [now split|].
    split.
    + apply NoDup_app; [exact Hn | repeat constructor; intros [] |].
      intros x Hx [<-|[]].
      apply mem_In in Hx. congruence.
    + intros x Hx. apply in_app_iff in Hx. destruct Hx as [Hx|[<-|[]]]; auto.
  - constructor; [now split | now apply IH].
Qed.

Lemma graph_wf_empty : graph_wf Nx.empty.
Proof. split; constructor. Qed.

Lemma graph_wf_add_node (g : Nx.Graph) (u : string) :
  graph_wf g -> graph_wf (Nx.add_node g u).
Proof.
  intros [Hk He]. split.
  - unfold Nx.add_node. destruct (Nx.has_node g u) eqn:Hu; [exact Hk|].
    rewrite map_app. simpl. apply NoDup_app; [exact Hk | repeat constructor; intros [] |].
    intros x Hx [<-|[]].
    apply has_node_keys in Hx. congruence.
  - fold (entries_ok (map fst (Nx.add_node g u)) (Nx.add_node g u)).
    assert (Hw : entries_ok (map fst (Nx.add_node g u)) g).
    { apply (entries_ok_weaken (map fst g)); [|exact He].
      intros v Hv. apply keys_add_node. now left. }
    unfold Nx.add_node at 2. destruct (Nx.has_node g u); [exact Hw|].
    apply Forall_app. split; [exact Hw|].
    repeat constructor. intros v [].
Qed.

Lemma graph_wf_link (g : Nx.Graph) (u v : string) :
  In v (map fst g) -> graph_wf g -> graph_wf (Nx.link g u v).
Proof.
  intros Hv [Hk He]. split; rewrite keys_link; [exact Hk|].
  now apply entries_ok_link.
Qed.

Lemma graph_wf_add_edge (g : Nx.Graph) (u v : string) :
  graph_wf g -> graph_wf (Nx.add_edge g u v).
Proof.
  intros H. unfold Nx.add_edge.
  apply graph_wf_link.
  - rewrite keys_link. apply keys_add_node. left. apply keys_add_node. now right.
  - apply graph_wf_link.
    + apply keys_add_node. now right.
    + now apply graph_wf_add_node, graph_wf_add_node.
Qed.

Lemma loop_free_add_node (g : Nx.Graph) (u : string) :
  loop_free g -> loop_free (Nx.add_node g u).
Proof.
  intros H. unfold Nx.add_node. destruct (Nx.has_node g u); [exact H|].
  apply Forall_app. split; [exact H|]. repeat constructor. intros [].
Qed.

Lemma loop_free_link (g : Nx.Graph) (u v : string) :
  u <> v -> loop_free g -> loop_free (Nx.link g u v).
Proof.
  intros Huv. unfold loop_free.
  induction g as [|[k nb] g IH]; intros H; simpl; [constructor|].
  inversion H as [|e g' Hl Hg]; subst. cbn [fst snd] in Hl.
  destruct (String.eqb_spec k u) as [->|Hku].
  - constructor; [|exact Hg]. cbn [fst snd].
    destruct (Nx.mem v nb); [exact Hl|].
    intros Hin. apply in_app_iff in Hin. destruct Hin as [Hin|[<-|[]]]; auto.
  - constructor; [exact Hl | now apply IH].
Qed.

Lemma loop_free_add_edge (g : Nx.Graph) (u v : string) :
  u <> v -> loop_free g -> loop_free (Nx.add_edge g u v).
Proof.
  intros Huv H. unfold Nx.add_edge.
  apply loop_free_link; [congruence|].
  apply loop_free_link; [exact Huv|].
  now apply loop_free_add_node, loop_free_add_node.
Qed.

Lemma fold_left_invariant {A B : Type} (P : A -> Prop) (f : A -> B -> A)
    (l : list B) (a : A) :
  (forall a b, In b l -> P a -> P (f a b)) -> P a -> P (fold_left f l a).
Proof.
  revert a. induction l as [|b l IH]; intros a Hf Ha; simpl; [exact Ha|].
  apply IH.
  - intros a' b' Hb'. apply Hf. now right.
  - apply Hf; [now left | exact Ha].
Qed.

Lemma graph_wf_build_network (batch : list Post) (g : Nx.Graph) :
  graph_wf g -> graph_wf (build_network batch g).
Proof.
  unfold build_network. apply fold_left_invariant.
  intros g1 p _ Hg1. unfold visit. apply fold_left_invariant.
  - intros g2 q _ Hg2. rewrite connect_unfold.
    destruct (fires p q); [now apply graph_wf_add_edge | exact Hg2].
  - now apply graph_wf_add_node.
Qed.

Lemma loop_free_build_network (batch : list Post) (g : Nx.Graph) :
  no_self_pair batch -> loop_free g -> loop_free (build_network batch g).
Proof.
  intros Hb. unfold build_network. apply fold_left_invariant.
  intros g1 p Hp Hg1. unfold visit. apply fold_left_invariant.
  - intros g2 q Hq Hg2. rewrite connect_unfold.
    destruct (fires p q) eqn:Hf; [|exact Hg2].
    apply fires_iff in Hf. destruct Hf as [Hne Hs].
    apply loop_free_add_edge; [|exact Hg2]. now apply Hb.
  - now apply loop_free_add_node.
Qed.

(** In a well-formed graph without self-loops a node has at most
    [n - 1] neighbours. *)
Lemma degree_of_bound (g : Nx.Graph) (e : string * list string) :
  graph_wf g -> loop_free g -> In e g ->
  (Nx.degree_of e + 1 <= Nx.number_of_nodes g)%nat.
Proof.
  intros [_ He] Hl Hin.
  unfold loop_free in Hl. rewrite Forall_forall in He, Hl.
  destruct (He e Hin) as [Hn Hi]. specialize (Hl e Hin).
  unfold Nx.degree_of, Nx.number_of_nodes.
  destruct (Nx.mem (fst e) (snd e)) eqn:Hm.
  - apply mem_In in Hm. contradiction.
  - assert (Hle : (List.length (fst e :: snd e) <= List.length (map fst g))%nat).
    { apply NoDup_incl_length.
      - now constructor.
      - intros x [<-|Hx]; [now apply in_map | now apply Hi]. }
    rewrite length_map in Hle. simpl in Hle. lia.
Qed.

(* ================================================================== *)
(** * Sorting keeps the elements *)

Lemma insert_desc_perm {A : Type} (gt : A -> A -> bool) (x : A) (l : list A) :
  Permutation (Py.insert_desc gt x l) (x :: l).
Proof.
  induction l as [|y l IH]; simpl.
  - apply Permutation_refl.
  - destruct (gt y x).
    + eapply perm_trans; [apply perm_skip, IH | apply perm_swap].
    + apply Permutation_refl.
Qed.

Lemma sorted_desc_perm {A : Type} (gt : A -> A -> bool) (l : list A) :
  Permutation (Py.sorted_desc gt l) l.
Proof.
  induction l as [|x l IH]; simpl.
  - apply perm_nil.
  - eapply perm_trans; [apply insert_desc_perm | now apply perm_skip].
Qed.

Lemma In_firstn {A : Type} (n : nat) (l : list A) (x : A) :
  In x (firstn n l) -> In x l.
Proof.
  intros H. rewrite <- (firstn_skipn n l). apply in_app_iff. now left.
Qed.

Lemma In_top_sorted {A : Type} (gt : A -> A -> bool) (n : nat) (l : list A)
    (x : A) :
  In x (firstn n (Py.sorted_desc gt l)) -> In x l.
Proof.
  intros H. apply In_firstn in H.
  eapply Permutation_in; [apply sorted_desc_perm | exact H].
Qed.

(* ================================================================== *)
(** * Degree centrality *)

Lemma Forall2_map_same {A B C : Type} (R : B -> C -> Prop)
    (f : A -> B) (h : A -> C) (l : list A) :
  (forall x, In x l -> R (f x) (h x)) -> Forall2 R (map f l) (map h l).
Proof.
  induction l as [|a l IH]; intros H; simpl; constructor.
  - apply H. now left.
  - apply IH. intros x Hx. apply H. now right.
Qed.

Lemma degree_centrality_pointwise (g : Nx.Graph) :
  Forall2 (fun vc vd => fst vc = fst vd
                        /\ centrality_value (Nx.number_of_nodes g)
                             (snd vd) (snd vc))
          (Nx.degree_centrality g) (Nx.degree g).
Proof.
  unfold Nx.degree_centrality, Nx.degree.
  destruct (Nat.leb_spec (Nx.number_of_nodes g) 1) as [Hn|Hn].
  - apply Forall2_map_same. intros e _. split; [reflexivity|].
    split; [lia | reflexivity].
  - rewrite map_map. apply Forall2_map_same. intros e _. cbn [fst snd].
    split; [reflexivity|]. split; [|lia].
    intros _. unfold Qdiv. ring.
Qed.

(** C2, as stated, fails: with one post the graph has one node, and the
    centrality computed for it is 1, not 0. *)
Lemma single_node_centrality_is_one :
  exists a,
    fst (analyze_network no_communities tracker_one_post) = Py.Ok a
    /\ Nx.number_of_nodes
         (network (snd (analyze_network no_communities tracker_one_post)))
       = 1%nat
    /\ Nx.degree_centrality
         (network (snd (analyze_network no_communities tracker_one_post)))
       = [("user_0", 1%Q)]
    /\ central_nodes a = [("user_0", 1%Q)]
    /\ ~ (1 == 0)%Q.
Proof.
  eexists. split; [reflexivity|]. split; [reflexivity|].
  split; [reflexivity|]. split; [reflexivity|]. discriminate.
Qed.

(** In exact arithmetic the degree centrality computed for each node of
    the graph built by [analyze_network] is that node's degree divided by
    (node count - 1) when the graph has two nodes or more, and is 1 for
    every node when the graph has at most one node; the values returned in
    [central_nodes] are among the computed ones, ten of them or all. *)
Lemma degree_centrality_of_built_graph
    (gm : Nx.Graph -> list (list string)) (t : Tracker) :
  let g := network (snd (analyze_network gm t)) in
  exists a,
    fst (analyze_network gm t) = Py.Ok a
    /\ Forall2 (fun vc vd => fst vc = fst vd
                             /\ centrality_value (Nx.number_of_nodes g)
                                  (snd vd) (snd vc))
               (Nx.degree_centrality g) (Nx.degree g)
    /\ (forall vc, In vc (central_nodes a) -> In vc (Nx.degree_centrality g))
    /\ List.length (central_nodes a)
       = Nat.min 10 (Nx.number_of_nodes g).
Proof.
  rewrite analyze_network_state. cbn [network].
  eexists. split; [reflexivity|]. cbn [central_nodes].
  split; [apply degree_centrality_pointwise|]. split.
  - intros vc. apply In_top_sorted.
  - rewrite length_firstn. f_equal.
    rewrite (Permutation_length (sorted_desc_perm _ _)).
    unfold Nx.degree_centrality, Nx.degree, Nx.number_of_nodes.
    destruct (_ <=? 1)%nat; now rewrite ?length_map.
Qed.

(* ================================================================== *)
(** * Bounds on centrality and density *)

Lemma Qnat_ratio_bounds (a b : nat) :
  (a <= b)%nat -> (0 < b)%nat -> (0 <= Nx.Qnat a / Nx.Qnat b <= 1)%Q.
Proof.
  intros Hab Hb. unfold Nx.Qnat.
  assert (Hpos : (0 < inject_Z (Z.of_nat b))%Q).
  { change 0%Q with (inject_Z 0). rewrite <- Zlt_Qlt. lia. }
  split.
  - apply Qle_shift_div_l; [exact Hpos|].
    rewrite Qmult_0_l. change 0%Q with (inject_Z 0). rewrite <- Zle_Qle. lia.
  - apply Qle_shift_div_r; [exact Hpos|].
    rewrite Qmult_1_l. rewrite <- Zle_Qle. lia.
Qed.

Lemma Qnat_pred (n : nat) :
  (1 <= n)%nat -> (Nx.Qnat n - 1 == Nx.Qnat (n - 1))%Q.
Proof.
  intros Hn. unfold Nx.Qnat.
  replace (Z.of_nat (n - 1)) with (Z.of_nat n + - 1)%Z by lia.
  rewrite inject_Z_plus. reflexivity.
Qed.

Lemma list_sum_bound {A : Type} (f : A -> nat) (k : nat) (l : list A) :
  (forall x, In x l -> (f x <= k)%nat) ->
  (list_sum (map f l) <= List.length l * k)%nat.
Proof.
  induction l as [|a l IH]; intros H; simpl; [lia|].
  assert (f a <= k)%nat by (apply H; now left).
  assert (list_sum (map f l) <= List.length l * k)%nat
    by (apply IH; intros x Hx; apply H; now right).
  lia.
Qed.

Lemma degree_centrality_bounds (g : Nx.Graph) (v : string) (c : Q) :
  graph_wf g -> loop_free g ->
  In (v, c) (Nx.degree_centrality g) -> (0 <= c <= 1)%Q.
Proof.
  intros Hwf Hlf. unfold Nx.degree_centrality, Nx.degree.
  destruct (Nat.leb_spec (Nx.number_of_nodes g) 1) as [Hn|Hn].
  - intros H. apply in_map_iff in H. destruct H as (e & [= _ <-] & _).
    split; discriminate.
  - rewrite map_map. intros H. apply in_map_iff in H.
    destruct H as (e & [= _ <-] & He). cbn [snd].
    pose proof (degree_of_bound g e Hwf Hlf He) as Hd.
    assert (E : (Nx.Qnat (Nx.degree_of e) * (1 / (Nx.Qnat (Nx.number_of_nodes g) - 1))
                 == Nx.Qnat (Nx.degree_of e)
                    / Nx.Qnat (Nx.number_of_nodes g - 1))%Q).
    { rewrite Qnat_pred by lia. unfold Qdiv. ring. }
    rewrite E. apply Qnat_ratio_bounds; lia.
Qed.

Lemma density_bounds (g : Nx.Graph) :
  graph_wf g -> loop_free g -> (0 <= Nx.density g <= 1)%Q.
Proof.
  intros Hwf Hlf. unfold Nx.density.
  destruct (Nat.eqb_spec (Nx.number_of_edges g) 0) as [Hm|Hm]; cbn [orb].
  - split; discriminate.
  - destruct (Nat.leb_spec (Nx.number_of_nodes g) 1) as [Hn|Hn].
    + split; discriminate.
    + set (n := Nx.number_of_nodes g) in *.
      set (m := Nx.number_of_edges g) in *.
      assert (Hsum : (2 * m <= n * (n - 1))%nat).
      { subst m. unfold Nx.number_of_edges, Nx.degree. rewrite map_map.
        cbn [snd].
        etransitivity; [apply Nat.Div0.mul_div_le|].
        apply list_sum_bound. intros e He.
        pose proof (degree_of_bound g e Hwf Hlf He). fold n in H. lia. }
      assert (E : (Nx.Qnat m / Nx.Qnat (n * (n - 1)) * 2
                   == Nx.Qnat (2 * m) / Nx.Qnat (n * (n - 1)))%Q).
      { unfold Nx.Qnat. rewrite (Nat2Z.inj_mul 2 m), inject_Z_mult.
        unfold Qdiv. change (inject_Z (Z.of_nat 2)) with 2%Q. ring. }
      rewrite E. apply Qnat_ratio_bounds; nia.
Qed.

(** C6, as stated, fails: on this non-empty batch the author with two posts
    gets a self-loop, the centrality returned for that author is 3 and the
    density returned is 2. *)
Lemma repeated_author_exceeds_one :
  data tracker_repeated_author <> []
  /\ exists a,
       fst (analyze_network no_communities tracker_repeated_author) = Py.Ok a
       /\ network (snd (analyze_network no_communities tracker_repeated_author))
          = [("a", ["a"; "b"]); ("b", ["a"])]
       /\ (exists c, In ("a", c) (central_nodes a) /\ (c == 3)%Q
                     /\ ~ (c <= 1)%Q)
       /\ (density a == 2)%Q /\ ~ (density a <= 1)%Q.
Proof.
  split; [discriminate|].
  exists {| central_nodes := [("a", 3 # 1); ("b", 1 # 1)];
            community_count := 0;
            density := 4 # 2 |}.
  split; [vm_compute; reflexivity|]. split; [vm_compute; reflexivity|].
  cbn [central_nodes density]. split.
  - exists (3 # 1). split; [now left|]. split; [reflexivity|].
    intros H. vm_compute in H. now apply H.
  - split; [reflexivity|]. intros H. vm_compute in H. now apply H.
Qed.

(** C6, amended. When the graph held before the call is well formed and
    has no self-loop, and no author has two different posts of the batch
    that share a hashtag, every degree centrality value returned by
    [analyze_network] lies in [[0, 1]] and so does the returned density. *)
Theorem centrality_and_density_in_unit_interval
    (gm : Nx.Graph -> list (list string)) (t : Tracker) :
  graph_wf (network t) -> loop_free (network t) -> no_self_pair (data t) ->
  exists a,
    fst (analyze_network gm t) = Py.Ok a
    /\ (forall v c, In (v, c) (central_nodes a) -> (0 <= c <= 1)%Q)
    /\ (0 <= density a <= 1)%Q.
Proof.
  intros Hwf Hlf Hb.
  pose proof (graph_wf_build_network (data t) _ Hwf) as Hwf'.
  pose proof (loop_free_build_network (data t) _ Hb Hlf) as Hlf'.
  eexists. split; [reflexivity|]. cbn [central_nodes density]. split.
  - intros v c H. apply In_top_sorted in H.
    now apply (degree_centrality_bounds _ v c Hwf' Hlf').
  - now apply density_bounds.
Qed.

(** The synthetic batch of three posts on a new tracker meets the
    conditions: every post has an author of its own. *)
Lemma unit_interval_for_three_posts :
  graph_wf (network (snd (collect_posts clock0 "k" "twitter" 3 init)))
  /\ loop_free (network (snd (collect_posts clock0 "k" "twitter" 3 init)))
  /\ no_self_pair (data (snd (collect_posts clock0 "k" "twitter" 3 init)))
  /\ exists a,
       fst (analyze_network no_communities
              (snd (collect_posts clock0 "k" "twitter" 3 init))) = Py.Ok a
       /\ (forall v c, In (v, c) (central_nodes a) -> (0 <= c <= 1)%Q)
       /\ (0 <= density a <= 1)%Q.
Proof.
  assert (Hwf : graph_wf
                  (network (snd (collect_posts clock0 "k" "twitter" 3 init))))
    by (split; constructor).
  assert (Hlf : loop_free
                  (network (snd (collect_posts clock0 "k" "twitter" 3 init))))
    by constructor.
  assert (Hb : no_self_pair
                 (data (snd (collect_posts clock0 "k" "twitter" 3 init)))).
  { intros p q Hp Hq Hne _. simpl in Hp, Hq.
    destruct Hp as [<-|[<-|[<-|[]]]]; destruct Hq as [<-|[<-|[<-|[]]]];
      solve [now contradiction Hne | discriminate]. }
  split; [exact Hwf|]. split; [exact Hlf|]. split; [exact Hb|].
  exact (centrality_and_density_in_unit_interval no_communities _ Hwf Hlf Hb).
Defined.

(* ================================================================== *)
(** * Counting *)

Lemma count_elements_snoc (ws : list string) (w : string) :
  Py.count_elements (ws ++ [w]) = Py.bump w (Py.count_elements ws).
Proof.
  unfold Py.count_elements. now rewrite fold_left_app.
Qed.

(** [bump] either appends a new entry or increments the entry of [w]. *)
Lemma bump_split (w : string) (c : Py.Counter) :
  (~ In w (map fst c) /\ Py.bump w c = c ++ [(w, 1%nat)])
  \/ (exists c1 n c2,
        c = c1 ++ (w, n) :: c2 /\ ~ In w (map fst c1)
        /\ Py.bump w c = c1 ++ (w, S n) :: c2).
Proof.
  induction c as [|[k n] c IH]; simpl.
  - left. split; [intros [] | reflexivity].
  - destruct (String.eqb_spec k w) as [->|Hkw].
    + right. exists [], n, c. repeat split. intros [].
    + destruct IH as [[Hn Hb]|(c1 & m & c2 & Hc & Hn & Hb)].
      * left. split; [now intros [|] | now rewrite Hb].
      * right. exists ((k, n) :: c1), m, c2. simpl.
        split; [now rewrite Hc|]. split; [now intros [|] | now rewrite Hb].
Qed.

Lemma index_of_app_in (k : string) (ws l : list string) :
  In k ws -> index_of k (ws ++ l) = index_of k ws.
Proof.
  induction ws as [|x ws IH]; simpl; [intros []|].
  destruct (String.eqb_spec x k) as [->|Hxk]; [reflexivity|].
  intros [H|H]; [contradiction | now rewrite IH].
Qed.

Lemma index_of_lt (k : string) (ws : list string) :
  In k ws -> (index_of k ws < List.length ws)%nat.
Proof.
  induction ws as [|x ws IH]; simpl; [intros []|].
  destruct (String.eqb_spec x k) as [->|Hxk]; [lia|].
  intros [H|H]; [contradiction | apply IH in H; lia].
Qed.

Lemma index_of_new (k : string) (ws : list string) :
  ~ In k ws -> index_of k (ws ++ [k]) = List.length ws.
Proof.
  induction ws as [|x ws IH]; simpl; intros H.
  - now rewrite String.eqb_refl.
  - destruct (String.eqb_spec x k) as [->|Hxk]; [tauto|].
    rewrite IH; tauto.
Qed.

Lemma met_in_order_snoc_old (ws keys : list string) (w : string) :
  (forall k, In k keys -> In k ws) ->
  met_in_order ws keys -> met_in_order (ws ++ [w]) keys.
Proof.
  unfold met_in_order. intros Hin H.
  induction H as [|k keys Hs IH Hf]; constructor.
  - apply IH. intros k' Hk'. apply Hin. now right.
  - rewrite Forall_forall in *. intros k' Hk'.
    rewrite !index_of_app_in; [now apply Hf | |]; apply Hin;
      [now right | now left].
Qed.

Lemma met_in_order_snoc_new (ws keys : list string) (w : string) :
  (forall k, In k keys -> In k ws) -> ~ In w ws ->
  met_in_order ws keys -> met_in_order (ws ++ [w]) (keys ++ [w]).
Proof.
  unfold met_in_order. intros Hin Hw H.
  induction H as [|k keys Hs IH Hf]; simpl.
  - repeat constructor.
  - constructor.
    + apply IH. intros k' Hk'. apply Hin. now right.
    + apply Forall_app. split.
      * rewrite Forall_forall in *. intros k' Hk'.
        rewrite !index_of_app_in; [now apply Hf | |]; apply Hin;
          [now right | now left].
      * repeat constructor.
        rewrite index_of_new by exact Hw.
        rewrite index_of_app_in by (apply Hin; now left).
        apply index_of_lt, Hin. now left.
Qed.

Lemma total_app (c1 c2 : list (string * nat)) :
  total (c1 ++ c2) = (total c1 + total c2)%nat.
Proof.
  unfold total. now rewrite map_app, list_sum_app.
Qed.

Lemma count_occ_snoc (ws : list string) (w k : string) :
  count_occ string_dec (ws ++ [w]) k
  = (count_occ string_dec ws k + if string_dec w k then 1 else 0)%nat.
Proof.
  rewrite count_occ_app. simpl. destruct (string_dec w k); reflexivity.
Qed.

Lemma counts_bump (ws : list string) (c : Py.Counter) (w : string) :
  counts ws c -> counts (ws ++ [w]) (Py.bump w c).
Proof.
  intros [Hnd Hk Hex Hord Htot].
  destruct (bump_split w c) as [[Hn Hb]|(c1 & n & c2 & Hc & Hn & Hb)];
    rewrite Hb.
  - (* a new element *)
    assert (Hw : ~ In w ws) by (now rewrite <- Hk).
    constructor.
    + rewrite map_app. simpl. apply NoDup_app; [exact Hnd | repeat constructor; intros [] |].
      intros x Hx [<-|[]]. contradiction.
    + intros k. rewrite map_app, !in_app_iff, Hk. simpl. intuition.
    + intros k m H. apply in_app_iff in H. rewrite count_occ_snoc.
      destruct H as [H|[[= <- <-]|[]]].
      * rewrite (Hex k m H). destruct (string_dec w k) as [->|]; [|lia].
        exfalso. apply Hn. apply (in_map fst) in H. exact H.
      * rewrite (count_occ_not_In string_dec ws w) in Hw. rewrite Hw.
        destruct (string_dec w w); [reflexivity | congruence].
    + rewrite map_app. simpl. apply met_in_order_snoc_new; auto.
      intros k. apply Hk.
    + rewrite total_app, Htot, length_app. reflexivity.
  - (* a known element *)
    assert (Hkeys : map fst (c1 ++ (w, S n) :: c2) = map fst c)
      by (rewrite Hc, !map_app; reflexivity).
    assert (Hw : In w ws)
      by (apply Hk; rewrite Hc, map_app; apply in_app_iff; right; now left).
    assert (Hnd' := Hnd). rewrite Hc, map_app in Hnd'. simpl in Hnd'.
    apply NoDup_remove_2 in Hnd'.
    constructor.
    + now rewrite Hkeys.
    + intros k. rewrite Hkeys, Hk, in_app_iff. simpl. intuition. now subst.
    + intros k m H. rewrite count_occ_snoc.
      apply in_app_iff in H. destruct H as [H|[[= <- <-]|H]].
      * assert (k <> w).
        { intros ->. apply Hnd', in_app_iff. left.
          apply (in_map fst) in H. exact H. }
        rewrite (Hex k m) by (rewrite Hc; apply in_app_iff; now left).
        destruct (string_dec w k); [congruence | lia].
      * rewrite <- (Hex w n) by (rewrite Hc; apply in_app_iff; right; now left).
        destruct (string_dec w w); [lia | congruence].
      * assert (k <> w).
        { intros ->. apply Hnd', in_app_iff. right.
          apply (in_map fst) in H. exact H. }
        rewrite (Hex k m) by (rewrite Hc; apply in_app_iff; right; now right).
        destruct (string_dec w k); [congruence | lia].
    + rewrite Hkeys. apply met_in_order_snoc_old; [|exact Hord].
      intros k. apply Hk.
    + rewrite length_app, <- Htot, Hc, !total_app. unfold total. simpl. lia.
Qed.

Lemma count_elements_counts (ws : list string) :
  counts ws (Py.count_elements ws).
Proof.
  induction ws as [|w ws IH] using rev_ind.
  - constructor; simpl; try constructor; tauto.
  - rewrite count_elements_snoc. now apply counts_bump.
Qed.

(* ================================================================== *)
(** * The most common elements *)

Section MostCommon.

Variable ws : list string.

Lemma ranked_count_le (y z : string * nat) :
  ranked ws y z -> (snd z <= snd y)%nat.
Proof.
  intros [H|[H _]]; lia.
Qed.

Lemma insert_ranked (x : string * nat) (l : list (string * nat)) :
  StronglySorted (ranked ws) l -> Forall (met_before ws x) l ->
  StronglySorted (ranked ws) (Py.insert_desc Py.count_gt x l).
Proof.
  induction l as [|y l IH]; intros Hs Hb; simpl.
  - repeat constructor.
  - apply StronglySorted_inv in Hs. destruct Hs as [Hs Hy].
    unfold Py.count_gt at 1. destruct (Nat.ltb_spec (snd x) (snd y)) as [Hlt|Hge].
    + constructor.
      * apply IH; [exact Hs | now inversion Hb].
      * eapply Permutation_Forall.
        { apply Permutation_sym, insert_desc_perm. }
        constructor; [now left | exact Hy].
    + constructor; [now constructor|].
      rewrite Forall_forall in *. intros z Hz.
      assert (Hzy : (snd z <= snd y)%nat).
      { destruct Hz as [<-|Hz]; [lia | now apply ranked_count_le, Hy]. }
      destruct (Nat.eq_dec (snd x) (snd z)) as [E|E].
      * right. split; [exact E | now apply Hb].
      * left. lia.
Qed.

Lemma sorted_ranked (l : list (string * nat)) :
  StronglySorted (met_before ws) l ->
  StronglySorted (ranked ws) (Py.sorted_desc Py.count_gt l).
Proof.
  induction l as [|x l IH]; intros Hs; simpl.
  - constructor.
  - apply StronglySorted_inv in Hs. destruct Hs as [Hs Hx].
    apply insert_ranked; [now apply IH|].
    eapply Permutation_Forall; [|exact Hx].
    apply Permutation_sym, sorted_desc_perm.
Qed.

Lemma before_of_keys (c : Py.Counter) :
  met_in_order ws (map fst c) -> StronglySorted (met_before ws) c.
Proof.
  unfold met_in_order.
  induction c as [|e c IH]; simpl; intros H; [constructor|].
  apply StronglySorted_inv in H. destruct H as [Hs He].
  constructor; [now apply IH|].
  rewrite Forall_forall in *. intros z Hz. apply He. now apply in_map.
Qed.

End MostCommon.

Lemma StronglySorted_firstn {A : Type} (R : A -> A -> Prop) (n : nat)
    (l : list A) :
  StronglySorted R l -> StronglySorted R (firstn n l).
Proof.
  revert l. induction n as [|n IH]; intros l H; [constructor|].
  destruct l as [|a l]; [constructor|]. simpl.
  apply StronglySorted_inv in H. destruct H as [Hs Ha].
  constructor; [now apply IH|].
  rewrite Forall_forall in *. intros x Hx. apply Ha.
  now apply In_firstn in Hx.
Qed.

Lemma total_perm (l1 l2 : list (string * nat)) :
  Permutation l1 l2 -> total l1 = total l2.
Proof.
  intros H. unfold total. induction H; simpl; lia.
Qed.

Lemma total_firstn (n : nat) (l : list (string * nat)) :
  (total (firstn n l) <= total l)%nat.
Proof.
  rewrite <- (firstn_skipn n l) at 2. rewrite total_app. lia.
Qed.

(** The frequency list [most_common n (Counter ws)]: ranked by count and
    then by first meeting, exact counts, and no more than the number of
    elements of [ws] in total, all of them when [ws] has at most [n]
    different elements. *)
Lemma most_common_counts (n : nat) (ws : list string) :
  let out := Py.most_common n (Py.count_elements ws) in
  StronglySorted (ranked ws) out
  /\ (forall w m, In (w, m) out -> m = count_occ string_dec ws w)
  /\ (total out <= List.length ws)%nat
  /\ ((List.length (nodup string_dec ws) <= n)%nat ->
      total out = List.length ws).
Proof.
  destruct (count_elements_counts ws) as [Hnd Hk Hex Hord Htot].
  cbv zeta. unfold Py.most_common.
  assert (Hp := sorted_desc_perm Py.count_gt (Py.count_elements ws)).
  split; [|split; [|split]].
  - apply StronglySorted_firstn, sorted_ranked, before_of_keys, Hord.
  - intros w m H. apply In_top_sorted in H. now apply Hex.
  - rewrite <- Htot, <- (total_perm _ _ Hp). apply total_firstn.
  - intros Hlen. rewrite firstn_all2.
    + now rewrite (total_perm _ _ Hp).
    + rewrite (Permutation_length Hp), <- (length_map fst).
      rewrite (Permutation_length
                 (NoDup_Permutation Hnd (NoDup_nodup string_dec ws)
                    (fun k => iff_trans (Hk k)
                                (iff_sym (nodup_In string_dec ws k))))).
      exact Hlen.
Qed.

(** C7, as stated, fails: the batch has eleven hashtag occurrences, the
    returned list has ten bins of count one. *)
Lemma eleven_tags_ten_bins :
  exists r,
    fst (identify_narratives tracker_eleven_tags) = Py.Ok r
    /\ List.length (flat_map hashtags (data tracker_eleven_tags)) = 11%nat
    /\ List.length (common_hashtags r) = 10%nat
    /\ total (common_hashtags r) = 10%nat
    /\ total (common_hashtags r)
       <> List.length (flat_map hashtags (data tracker_eleven_tags)).
Proof.
  eexists. split; [reflexivity|].
  split; [reflexivity|]. split; [reflexivity|]. split; [reflexivity|].
  vm_compute. discriminate.
Qed.

(** C7, amended. The word and hashtag lists returned by
    [identify_narratives] are in descending order of count, equal counts in
    the order the elements were first met; every bin holds the exact number
    of occurrences of its element; the counts of the returned bins add up
    to at most the number of word tokens, respectively hashtag occurrences,
    of the input, and to exactly that number when the input has at most 20
    different words, respectively 10 different hashtags. *)
Theorem narratives_ranked_and_counted (t : Tracker) :
  let words :=
    Py.findall_word (Py.lower (Py.join " " (map content (data t)))) in
  let tags := flat_map hashtags (data t) in
  exists r,
    fst (identify_narratives t) = Py.Ok r
    /\ (StronglySorted (ranked words) (common_words r)
        /\ StronglySorted (ranked tags) (common_hashtags r))
    /\ ((forall w n, In (w, n) (common_words r) ->
                     n = count_occ string_dec words w)
        /\ (forall h n, In (h, n) (common_hashtags r) ->
                        n = count_occ string_dec tags h))
    /\ ((total (common_words r) <= List.length words)%nat
        /\ (total (common_hashtags r) <= List.length tags)%nat)
    /\ (((List.length (nodup string_dec words) <= 20)%nat ->
         total (common_words r) = List.length words)
        /\ ((List.length (nodup string_dec tags) <= 10)%nat ->
            total (common_hashtags r) = List.length tags)).
Proof.
  cbv zeta. eexists. split; [reflexivity|].
  cbn [common_words common_hashtags].
  destruct (most_common_counts 20
              (Py.findall_word (Py.lower (Py.join " " (map content (data t))))))
    as (Hs1 & He1 & Hl1 & Ht1).
  destruct (most_common_counts 10 (flat_map hashtags (data t)))
    as (Hs2 & He2 & Hl2 & Ht2).
  repeat split; assumption.
Qed.

(* ================================================================== *)
(** * The report does not depend on the clock *)

Lemma str_inj (i j : Z) : Py.str i = Py.str j -> i = j.
Proof.
  unfold Py.str. intros H.
  apply (f_equal NilEmpty.int_of_string) in H.
  rewrite !NilEmpty.isi in H. injection H as H.
  now apply DecimalZ.to_int_inj.
Qed.

Lemma sample_post_user_inj (now1 now2 : Z -> string) (kw pf : string)
    (i j : Z) :
  user (sample_post now1 kw pf i) = user (sample_post now2 kw pf j) -> i = j.
Proof.
  cbn [user sample_post]. intros H. simpl in H.
  injection H as H. now apply str_inj.
Qed.

(** Whether two synthetic posts differ is decided by their indices. *)
Lemma post_ne_sample (now : Z -> string) (kw pf : string) (i j : Z) :
  post_ne (sample_post now kw pf i) (sample_post now kw pf j)
  = negb (Z.eqb i j).
Proof.
  destruct (Z.eqb_spec i j) as [->|Hij]; simpl.
  - unfold post_ne. destruct (Post_eq_dec _ _); [reflexivity | congruence].
  - apply post_ne_true. intros H. apply Hij.
    apply (f_equal user) in H. now apply sample_post_user_inj in H.
Qed.

Lemma fold_left_map {A B C : Type} (f : A -> B -> A) (h : C -> B)
    (l : list C) (a : A) :
  fold_left f (map h l) a = fold_left (fun a x => f a (h x)) l a.
Proof.
  revert a. induction l as [|x l IH]; intros a; simpl; [reflexivity|].
  apply IH.
Qed.

Lemma fold_left_ext {A B : Type} (f f' : A -> B -> A) (l : list B) (a : A) :
  (forall a x, f a x = f' a x) -> fold_left f l a = fold_left f' l a.
Proof.
  intros H. revert a. induction l as [|x l IH]; intros a; simpl;
    [reflexivity|].
  rewrite H. apply IH.
Qed.

Lemma connect_sample (now1 now2 : Z -> string) (kw pf : string) (i j : Z)
    (g : Nx.Graph) :
  connect (sample_post now1 kw pf i) g (sample_post now1 kw pf j)
  = connect (sample_post now2 kw pf i) g (sample_post now2 kw pf j).
Proof.
  unfold connect. rewrite !post_ne_sample. reflexivity.
Qed.

Lemma build_network_sample (now1 now2 : Z -> string) (kw pf : string)
    (idx : list Z) (g : Nx.Graph) :
  build_network (map (sample_post now1 kw pf) idx) g
  = build_network (map (sample_post now2 kw pf) idx) g.
Proof.
  unfold build_network. rewrite !fold_left_map.
  apply fold_left_ext. intros g' i. unfold visit. rewrite !fold_left_map.
  cbn [user sample_post].
  apply fold_left_ext. intros g'' j. apply connect_sample.
Qed.

Lemma flat_map_map {A B C : Type} (f : B -> list C) (h : A -> B)
    (l : list A) :
  flat_map f (map h l) = flat_map (fun x => f (h x)) l.
Proof.
  induction l as [|x l IH]; simpl; [reflexivity | now rewrite IH].
Qed.

(** The report is decided by the graph built, the contents, the hashtags
    and the engagement counts of the posts. *)
Lemma generate_report_agree
    (gm : Nx.Graph -> list (list string)) (d1 d2 : list Post) (g : Nx.Graph)
    (at1 at2 : string) :
  build_network d1 g = build_network d2 g ->
  map content d1 = map content d2 ->
  map hashtags d1 = map hashtags d2 ->
  map engagement d1 = map engagement d2 ->
  Py.map_result report_body (fst (generate_report gm at1 (mkTracker d1 g)))
  = Py.map_result report_body (fst (generate_report gm at2 (mkTracker d2 g)))
  /\ network (snd (generate_report gm at1 (mkTracker d1 g)))
     = network (snd (generate_report gm at2 (mkTracker d2 g))).
Proof.
  intros Hb Hc Hh He.
  assert (Hlen : List.length d1 = List.length d2)
    by (rewrite <- (length_map content d1), Hc; apply length_map).
  unfold generate_report, analyze_network, identify_narratives,
    analyze_engagement, bind, get_data, get_network, set_network, ret.
  cbn [fst snd data network].
  rewrite !flat_map_concat_map, Hb, Hc, Hh, Hlen.
  rewrite <- !(map_map engagement (fun e => likes e)).
  rewrite <- !(map_map engagement (fun e => shares e)).
  rewrite <- !(map_map engagement (fun e => (likes e + shares e)%Z)).
  rewrite He.
  destruct (List.length d2) eqn:Hd2;
    cbn [true_div raise ret fst snd Py.map_result network data report_body
         data_points network_analysis narrative_analysis engagement_analysis].
  - split; reflexivity.
  - rewrite Hlen, Hd2. split; reflexivity.
Qed.

(** C10, as stated, fails: the same keyword, platform and count, and even
    the same clock, give different reports on a new tracker and on one
    that has reported on three posts before, because the graph of the
    earlier run is still there. *)
Lemma report_depends_on_earlier_runs :
  exists r1 r2,
    fst (collect_and_report no_communities clock0 "2024-01-01T00:00:02"
           "k" "twitter" 1 init) = Py.Ok r1
    /\ fst (collect_and_report no_communities clock0 "2024-01-01T00:00:02"
              "k" "twitter" 1 tracker_after_three_posts) = Py.Ok r2
    /\ central_nodes (network_analysis r1) = [("user_0", 1%Q)]
    /\ density (network_analysis r1) = 0%Q
    /\ map fst (central_nodes (network_analysis r2))
       = ["user_0"; "user_1"; "user_2"]
    /\ (density (network_analysis r2) == 1)%Q
    /\ report_body r1 <> report_body r2.
Proof.
  eexists. eexists. split; [vm_compute; reflexivity|].
  split; [vm_compute; reflexivity|].
  cbn [network_analysis central_nodes density].
  split; [reflexivity|]. split; [reflexivity|]. split; [reflexivity|].
  split; [reflexivity|]. intros H. discriminate H.
Qed.

(** C10, amended. Two runs of [collect_posts] followed by
    [generate_report] with the same keywords, platform and count, on
    trackers that hold the same graph when the run starts (two new
    trackers, for one), agree on everything but the time stamps: both raise, or both return reports with the same post count and
    the same network, narrative and engagement analyses, whatever the clock
    answered in either run; the graphs they leave are the same too. *)
Theorem report_independent_of_clock
    (gm : Nx.Graph -> list (list string))
    (now1 now2 : Z -> string) (at1 at2 : string)
    (kw pf : string) (N : Z) (t1 t2 : Tracker) :
  network t1 = network t2 ->
  Py.map_result report_body
    (fst (collect_and_report gm now1 at1 kw pf N t1))
  = Py.map_result report_body
      (fst (collect_and_report gm now2 at2 kw pf N t2))
  /\ network (snd (collect_and_report gm now1 at1 kw pf N t1))
     = network (snd (collect_and_report gm now2 at2 kw pf N t2)).
Proof.
  intros Hg.
  assert (Hrun : forall now at_ t,
             collect_and_report gm now at_ kw pf N t
             = generate_report gm at_
                 (mkTracker (map (sample_post now kw pf) (Py.range N))
                            (network t)))
    by reflexivity.
  rewrite !Hrun, Hg.
  apply generate_report_agree.
  - apply build_network_sample.
  - rewrite !map_map. reflexivity.
  - rewrite !map_map. reflexivity.
  - rewrite !map_map. reflexivity.
Qed.

(** Two new trackers, two different clocks, three posts. *)
Lemma report_independent_of_clock_new_trackers :
  network init = network init
  /\ Py.map_result report_body
       (fst (collect_and_report no_communities clock0 "2024-01-01T00:00:01"
               "election2024" "twitter" 3 init))
     = Py.map_result report_body
         (fst (collect_and_report no_communities clock1 "2025-06-30T12:00:09"
                 "election2024" "twitter" 3 init))
  /\ network (snd (collect_and_report no_communities clock0
                     "2024-01-01T00:00:01" "election2024" "twitter" 3 init))
     = network (snd (collect_and_report no_communities clock1
                       "2025-06-30T12:00:09" "election2024" "twitter" 3 init)).
Proof.
  split; [reflexivity|].
  exact (report_independent_of_clock no_communities clock0 clock1
           "2024-01-01T00:00:01" "2025-06-30T12:00:09"
           "election2024" "twitter" 3 init init eq_refl).
Defined.

(* ================================================================== *)
(** * The synthetic batch on a new tracker *)

Lemma no_self_pair_sample (now : Z -> string) (kw pf : string)
    (idx : list Z) :
  no_self_pair (map (sample_post now kw pf) idx).
Proof.
  intros p q Hp Hq Hne _ Hu.
  apply in_map_iff in Hp. destruct Hp as (i & <- & _).
  apply in_map_iff in Hq. destruct Hq as (j & <- & _).
  apply sample_post_user_inj in Hu. now subst.
Qed.

(** Every batch made by [collect_posts] gives each post an author of its
    own, so on a new tracker the centrality values and the density that
    [analyze_network] returns lie in [[0, 1]], whatever the count. *)
Theorem synthetic_batch_in_unit_interval
    (gm : Nx.Graph -> list (list string))
    (now : Z -> string) (kw pf : string) (N : Z) :
  exists a,
    fst (analyze_network gm (snd (collect_posts now kw pf N init))) = Py.Ok a
    /\ (forall v c, In (v, c) (central_nodes a) -> (0 <= c <= 1)%Q)
    /\ (0 <= density a <= 1)%Q.
Proof.
  set (batch := map (sample_post now kw pf) (Py.range N)).
  assert (Hwf : graph_wf (build_network batch Nx.empty))
    by apply graph_wf_build_network, graph_wf_empty.
  assert (Hlf : loop_free (build_network batch Nx.empty)).
  { apply loop_free_build_network; [apply no_self_pair_sample | constructor]. }
  eexists. split; [reflexivity|]. cbn [central_nodes density]. split.
  - intros v c H. apply In_top_sorted in H.
    now apply (degree_centrality_bounds _ v c Hwf Hlf).
  - now apply density_bounds.
Qed.

(* ================================================================== *)
(** * What [collect_posts] leaves in the tracker *)

Lemma NoDup_map_on {A B : Type} (f : A -> B) (l : list A) :
  NoDup l -> (forall x y, In x l -> In y l -> f x = f y -> x = y) ->
  NoDup (map f l).
Proof.
  induction 1 as [|a l Ha Hl IH]; intros Hf; simpl; constructor.
  - intros Hin. apply in_map_iff in Hin. destruct Hin as (x & Hx & Hxl).
    assert (x = a) by (apply Hf; [now right | now left | exact Hx]).
    now subst.
  - apply IH. intros x y Hx Hy. apply Hf; now right.
Qed.

Lemma range_NoDup (n : Z) : NoDup (Py.range n).
Proof.
  unfold Py.range. apply NoDup_map_on; [apply seq_NoDup|].
  intros x y _ _. apply Nat2Z.inj.
Qed.

Lemma range_bounds (n i : Z) : In i (Py.range n) -> (0 <= i < n)%Z.
Proof.
  unfold Py.range. intros H. apply in_map_iff in H.
  destruct H as (k & <- & Hk). apply in_seq in Hk. lia.
Qed.

Lemma sample_distinct_authors (now : Z -> string) (kw pf : string) (N : Z) :
  distinct_authors (map (sample_post now kw pf) (Py.range N)).
Proof.
  unfold distinct_authors. rewrite map_map.
  apply NoDup_map_on; [apply range_NoDup|].
  intros i j _ _. apply sample_post_user_inj.
Qed.

Lemma sample_share (now : Z -> string) (kw pf : string) (idx : list Z)
    (p q : Post) :
  In p (map (sample_post now kw pf) idx) ->
  In q (map (sample_post now kw pf) idx) -> share_hashtag p q.
Proof.
  intros Hp Hq.
  apply in_map_iff in Hp. destruct Hp as (i & <- & _).
  apply in_map_iff in Hq. destruct Hq as (j & <- & _).
  exists "#sample". cbn [hashtags sample_post]. split; right; now left.
Qed.

(** X2. [collect_posts] succeeds for every count, leaves the graph alone
    and replaces the batch, whatever it was, by [max 0 N] posts: their
    authors are pairwise different, every two of them share the hashtag
    [#sample], and each has five likes per share, none negative. *)
Theorem collect_posts_batch
    (now : Z -> string) (kw pf : string) (N : Z) (t : Tracker) :
  let t' := snd (collect_posts now kw pf N t) in
  fst (collect_posts now kw pf N t) = Py.Ok tt
  /\ network t' = network t
  /\ List.length (data t') = Z.to_nat N
  /\ distinct_authors (data t')
  /\ (forall p q, In p (data t') -> In q (data t') -> share_hashtag p q)
  /\ (forall p, In p (data t') ->
                platform p = pf
                /\ (0 <= shares (engagement p))%Z
                /\ likes (engagement p) = (5 * shares (engagement p))%Z).
Proof.
  cbv zeta. unfold collect_posts, set_data. cbn [fst snd data network].
  split; [reflexivity|]. split; [reflexivity|].
  split; [now rewrite length_map, range_length|]. split; [|split].
  - apply sample_distinct_authors.
  - intros p q. apply sample_share.
  - intros p Hp. apply in_map_iff in Hp. destruct Hp as (i & <- & Hi).
    apply range_bounds in Hi. cbn [platform engagement likes shares sample_post].
    repeat split; lia.
Qed.

(* ================================================================== *)
(** * The graph stays a sound undirected graph *)

Lemma adj_Some_In (g : Nx.Graph) (u : string) (nb : list string) :
  Nx.adj g u = Some nb -> In (u, nb) g.
Proof.
  induction g as [|[k nb'] g IH]; simpl; [discriminate|].
  destruct (String.eqb_spec k u) as [->|Hku].
  - intros [= ->]. now left.
  - intros H. right. now apply IH.
Qed.

Lemma adj_In (g : Nx.Graph) (u : string) (nb : list string) :
  NoDup (map fst g) -> In (u, nb) g -> Nx.adj g u = Some nb.
Proof.
  induction g as [|[k nb'] g IH]; simpl; intros Hnd Hin; [contradiction|].
  inversion Hnd as [|k' ks Hk Hks]; subst.
  destruct Hin as [[= -> ->]|Hin].
  - now rewrite String.eqb_refl.
  - destruct (String.eqb_spec k u) as [->|Hku].
    + exfalso. apply Hk. apply (in_map fst) in Hin. exact Hin.
    + now apply IH.
Qed.

Lemma symmetric_build_network (batch : list Post) (g : Nx.Graph) :
  symmetric g -> symmetric (build_network batch g).
Proof.
  intros Hs u v. apply eq_true_iff_eq.
  rewrite !build_network_edges, (Hs u v).
  split; (intros [H|(p & q & Hp & Hq & Hne & Hsh & -> & ->)]; [now left|]);
    right; exists q, p; repeat split; auto using share_hashtag_sym.
Qed.

Lemma has_edge_nodes (g : Nx.Graph) (u v : string) :
  graph_wf g -> Nx.has_edge g u v = true ->
  Nx.has_node g u = true /\ Nx.has_node g v = true.
Proof.
  intros [_ He] H. split; [eapply has_edge_has_node; eassumption|].
  unfold Nx.has_edge in H. destruct (Nx.adj g u) as [nb|] eqn:Hadj;
    [|discriminate].
  apply adj_Some_In in Hadj. rewrite Forall_forall in He.
  destruct (He _ Hadj) as [_ Hin]. apply has_node_keys, Hin.
  now apply mem_In.
Qed.

(** X3. [analyze_network] keeps the graph a sound undirected graph: when
    the graph held before is well formed and symmetric, so is the graph
    afterwards, and both end points of each of its edges are nodes. *)
Theorem analyze_network_keeps_graph_sound
    (gm : Nx.Graph -> list (list string)) (t : Tracker) :
  graph_wf (network t) -> symmetric (network t) ->
  let g' := network (snd (analyze_network gm t)) in
  graph_wf g' /\ symmetric g'
  /\ (forall u v, Nx.has_edge g' u v = true ->
                  Nx.has_node g' u = true /\ Nx.has_node g' v = true).
Proof.
  intros Hwf Hs. rewrite analyze_network_state. cbn [network].
  assert (Hwf' := graph_wf_build_network (data t) _ Hwf).
  split; [exact Hwf'|]. split; [now apply symmetric_build_network|].
  intros u v. now apply has_edge_nodes.
Qed.

Lemma analyze_network_keeps_graph_sound_repeated_author :
  graph_wf (network tracker_repeated_author)
  /\ symmetric (network tracker_repeated_author)
  /\ graph_wf (network (snd (analyze_network no_communities
                               tracker_repeated_author)))
  /\ symmetric (network (snd (analyze_network no_communities
                                tracker_repeated_author))).
Proof.
  assert (Hwf : graph_wf (network tracker_repeated_author))
    by (split; constructor).
  assert (Hs : symmetric (network tracker_repeated_author))
    by (intros u v; reflexivity).
  split; [exact Hwf|]. split; [exact Hs|].
  destruct (analyze_network_keeps_graph_sound no_communities
              tracker_repeated_author Hwf Hs) as (H1 & H2 & _).
  split; [exact H1 | exact H2].
Defined.

(* ================================================================== *)
(** * Node count, complete graphs and edgeless graphs *)

Lemma keys_build_network (batch : list Post) (g : Nx.Graph) (x : string) :
  In x (map fst (build_network batch g))
  <-> In x (map fst g) \/ In x (map user batch).
Proof.
  rewrite <- !has_node_keys, build_network_nodes, in_map_iff.
  split; (intros [H|(p & H1 & H2)]; [now left | right; exists p; tauto]).
Qed.

(** X4. On a tracker whose graph is empty, the graph analysed by
    [analyze_network] has one node per different author of the batch. *)
Theorem node_count_is_author_count
    (gm : Nx.Graph -> list (list string)) (batch : list Post) :
  Nx.number_of_nodes
    (network (snd (analyze_network gm (mkTracker batch Nx.empty))))
  = List.length (nodup string_dec (map user batch)).
Proof.
  rewrite analyze_network_state. cbn [data network].
  unfold Nx.number_of_nodes. rewrite <- (length_map fst).
  apply Permutation_length, NoDup_Permutation.
  - apply graph_wf_build_network, graph_wf_empty.
  - apply NoDup_nodup.
  - intros x. rewrite keys_build_network, nodup_In. simpl. tauto.
Qed.

Lemma distinct_authors_no_self_pair (batch : list Post) :
  distinct_authors batch -> no_self_pair batch.
Proof.
  unfold distinct_authors. intros Hnd p q Hp Hq Hne _ Hu. apply Hne.
  clear Hne. induction batch as [|a batch IH]; [contradiction|].
  simpl in Hnd. inversion Hnd as [|x xs Ha Hb]; subst.
  destruct Hp as [->|Hp], Hq as [->|Hq].
  - reflexivity.
  - exfalso. apply Ha. rewrite Hu. now apply in_map.
  - exfalso. apply Ha. rewrite <- Hu. now apply in_map.
  - now apply IH.
Qed.

Lemma list_sum_const {A : Type} (f : A -> nat) (k : nat) (l : list A) :
  (forall x, In x l -> f x = k) ->
  list_sum (map f l) = (List.length l * k)%nat.
Proof.
  induction l as [|a l IH]; intros H; simpl; [reflexivity|].
  rewrite (H a) by now left. rewrite IH by (intros x Hx; apply H; now right).
  reflexivity.
Qed.

Lemma consecutive_even (n : nat) : exists k, (n * (n - 1) = 2 * k)%nat.
Proof.
  induction n as [|n [k Hk]].
  - now exists 0%nat.
  - exists (k + n)%nat. destruct n as [|n]; [simpl in *; lia|].
    replace (S (S n) - 1)%nat with (S n) by lia.
    replace (S n - 1)%nat with n in Hk by lia. nia.
Qed.

Lemma Qnat_self_ratio (a : nat) :
  (0 < a)%nat -> (Nx.Qnat a / Nx.Qnat a == 1)%Q.
Proof.
  intros Ha. unfold Qdiv. apply Qmult_inv_r.
  unfold Nx.Qnat. intros H. unfold Qeq in H. simpl in H. lia.
Qed.

Section Complete.

Variable batch : list Post.
Hypothesis Hauthors : distinct_authors batch.
Hypothesis Hshare : all_share batch.

Let g : Nx.Graph := build_network batch Nx.empty.

Lemma complete_wf : graph_wf g.
Proof. apply graph_wf_build_network, graph_wf_empty. Qed.

Lemma complete_loop_free : loop_free g.
Proof.
  apply loop_free_build_network;
    [now apply distinct_authors_no_self_pair | constructor].
Qed.

Lemma complete_node_count : Nx.number_of_nodes g = List.length batch.
Proof.
  unfold Nx.number_of_nodes.
  rewrite <- (length_map fst), <- (length_map user batch).
  apply Permutation_length, NoDup_Permutation.
  - apply complete_wf.
  - exact Hauthors.
  - intros x. unfold g. rewrite keys_build_network. simpl. tauto.
Qed.

Lemma complete_edge (u v : string) :
  In u (map fst g) -> In v (map fst g) -> u <> v ->
  Nx.has_edge g u v = true.
Proof.
  intros Hu Hv Huv. unfold g in *.
  apply keys_build_network in Hu. destruct Hu as [[]|Hu].
  apply keys_build_network in Hv. destruct Hv as [[]|Hv].
  apply in_map_iff in Hu. destruct Hu as (p & <- & Hp).
  apply in_map_iff in Hv. destruct Hv as (q & <- & Hq).
  apply build_network_edges. right. exists p, q.
  assert (p <> q) by congruence. auto 10.
Qed.

Lemma complete_degree (e : string * list string) :
  In e g -> (Nx.degree_of e + 1 = Nx.number_of_nodes g)%nat.
Proof.
  intros He. destruct complete_wf as [Hk Hent].
  pose proof complete_loop_free as Hlf. unfold loop_free in Hlf.
  rewrite Forall_forall in Hent, Hlf.
  destruct (Hent e He) as [Hnd Hin]. specialize (Hlf e He).
  destruct e as [u nb]. cbn [fst snd] in *.
  unfold Nx.degree_of, Nx.number_of_nodes. cbn [fst snd].
  destruct (Nx.mem u nb) eqn:Hm; [apply mem_In in Hm; contradiction|].
  assert (Hp : Permutation (u :: nb) (map fst g)).
  { apply NoDup_Permutation; [now constructor | exact Hk |].
    intros x. split.
    - intros [<-|Hx]; [apply (in_map fst) in He; exact He | now apply Hin].
    - intros Hx. destruct (string_dec u x) as [->|Hux]; [now left|].
      right. apply mem_In.
      assert (Hedge : Nx.has_edge g u x = true).
      { apply complete_edge; [|exact Hx|exact Hux].
        apply (in_map fst) in He. exact He. }
      unfold Nx.has_edge in Hedge. now rewrite (adj_In g u nb Hk He) in Hedge. }
  apply Permutation_length in Hp. rewrite length_map in Hp. simpl in Hp. lia.
Qed.

Lemma complete_centrality (v : string) (c : Q) :
  (2 <= List.length batch)%nat ->
  In (v, c) (Nx.degree_centrality g) -> (c == 1)%Q.
Proof.
  intros Hn. rewrite <- complete_node_count in Hn.
  unfold Nx.degree_centrality, Nx.degree.
  destruct (Nat.leb_spec (Nx.number_of_nodes g) 1) as [H1|H1]; [lia|].
  rewrite map_map. intros H. apply in_map_iff in H.
  destruct H as (e & [= _ <-] & He). cbn [snd].
  pose proof (complete_degree e He) as Hd.
  rewrite Qnat_pred by lia.
  replace (Nx.degree_of e) with (Nx.number_of_nodes g - 1)%nat by lia.
  transitivity (Nx.Qnat (Nx.number_of_nodes g - 1)
                / Nx.Qnat (Nx.number_of_nodes g - 1))%Q.
  - unfold Qdiv. ring.
  - apply Qnat_self_ratio. lia.
Qed.

Lemma complete_density :
  (2 <= List.length batch)%nat -> (Nx.density g == 1)%Q.
Proof.
  intros Hn. rewrite <- complete_node_count in Hn.
  unfold Nx.density.
  set (n := Nx.number_of_nodes g) in *.
  assert (Hsum : list_sum (map snd (Nx.degree g)) = (n * (n - 1))%nat).
  { unfold Nx.degree. rewrite map_map. cbn [snd].
    rewrite (list_sum_const _ (n - 1)%nat); [reflexivity|].
    intros e He. pose proof (complete_degree e He). fold n in H. lia. }
  destruct (consecutive_even n) as [k Hk].
  assert (Hm : Nx.number_of_edges g = k).
  { unfold Nx.number_of_edges. rewrite Hsum, Hk, Nat.mul_comm.
    now apply Nat.div_mul. }
  rewrite Hm.
  assert (Hkpos : (1 <= k)%nat) by nia.
  destruct (Nat.eqb_spec k 0) as [H0|H0]; [lia|]. cbn [orb].
  destruct (Nat.leb_spec n 1) as [H1|H1]; [lia|].
  rewrite Hk.
  assert (E : (Nx.Qnat k / Nx.Qnat (2 * k) * 2
               == Nx.Qnat (2 * k) / Nx.Qnat (2 * k))%Q).
  { unfold Nx.Qnat at 3. rewrite (Nat2Z.inj_mul 2 k), inject_Z_mult.
    unfold Qdiv, Nx.Qnat. change (inject_Z (Z.of_nat 2)) with 2%Q. ring. }
  rewrite E. apply Qnat_self_ratio. lia.
Qed.

End Complete.

(** ** No shared hashtag, no edge *)

Lemma edgeless_entries (batch : list Post) (e : string * list string) :
  none_share batch -> In e (build_network batch Nx.empty) -> snd e = [].
Proof.
  intros Hns He.
  destruct (graph_wf_build_network batch Nx.empty graph_wf_empty) as [Hk _].
  destruct e as [u nb]. cbn [snd]. destruct nb as [|v nb]; [reflexivity|].
  exfalso.
  assert (Hedge : Nx.has_edge (build_network batch Nx.empty) u v = true).
  { unfold Nx.has_edge. rewrite (adj_In _ u (v :: nb) Hk He).
    apply mem_In. now left. }
  apply build_network_edges in Hedge.
  destruct Hedge as [Hedge|(p & q & Hp & Hq & Hne & Hsh & _)];
    [discriminate|].
  exact (Hns p q Hp Hq Hne Hsh).
Qed.

(** X6. When no two different posts of the batch share a hashtag, the
    graph built on an empty graph has no edge: the density returned is 0,
    and with two nodes or more every centrality returned is 0. *)
Theorem no_shared_hashtag_gives_edgeless_graph
    (gm : Nx.Graph -> list (list string)) (batch : list Post) :
  none_share batch ->
  let g' := network (snd (analyze_network gm (mkTracker batch Nx.empty))) in
  exists a,
    fst (analyze_network gm (mkTracker batch Nx.empty)) = Py.Ok a
    /\ (forall u v, Nx.has_edge g' u v = false)
    /\ Nx.number_of_edges g' = 0%nat
    /\ density a = 0%Q
    /\ ((2 <= Nx.number_of_nodes g')%nat ->
        forall v c, In (v, c) (central_nodes a) -> (c == 0)%Q).
Proof.
  intros Hns. rewrite analyze_network_state. cbn [data network].
  set (g := build_network batch Nx.empty).
  assert (Hdeg : forall e, In e g -> Nx.degree_of e = 0%nat).
  { intros e He. unfold Nx.degree_of.
    rewrite (edgeless_entries batch e Hns He). reflexivity. }
  assert (Hm : Nx.number_of_edges g = 0%nat).
  { unfold Nx.number_of_edges, Nx.degree. rewrite map_map. cbn [snd].
    rewrite (list_sum_const _ 0%nat) by exact Hdeg.
    rewrite Nat.mul_0_r. reflexivity. }
  eexists. split; [reflexivity|]. cbn [central_nodes density data network].
  fold g. split; [|split; [exact Hm|split]].
  - intros u v. destruct (Nx.has_edge g u v) eqn:H; [|reflexivity].
    apply build_network_edges in H.
    destruct H as [H|(p & q & Hp & Hq & Hne & Hsh & _)]; [discriminate|].
    destruct (Hns p q Hp Hq Hne Hsh).
  - unfold Nx.density. cbv zeta. now rewrite Hm.
  - intros Hn v c H. apply In_top_sorted in H.
    unfold Nx.degree_centrality, Nx.degree in H.
    destruct (Nat.leb_spec (Nx.number_of_nodes g) 1) as [H1|H1]; [lia|].
    rewrite map_map in H. apply in_map_iff in H.
    destruct H as (e & [= _ <-] & He). cbn [snd].
    rewrite (Hdeg e He). unfold Nx.Qnat. simpl. apply Qmult_0_l.
Qed.

Lemma no_shared_hashtag_gives_edgeless_graph_two_authors :
  none_share batch_unrelated
  /\ exists a,
       fst (analyze_network no_communities
              (mkTracker batch_unrelated Nx.empty)) = Py.Ok a
       /\ density a = 0%Q.
Proof.
  assert (Hns : none_share batch_unrelated).
  { intros p q Hp Hq Hne (tag & H1 & H2). simpl in Hp, Hq.
    destruct Hp as [<-|[<-|[]]]; destruct Hq as [<-|[<-|[]]];
      simpl in H1, H2; intuition congruence. }
  split; [exact Hns|].
  destruct (no_shared_hashtag_gives_edgeless_graph no_communities
              batch_unrelated Hns) as (a & H1 & _ & _ & H2 & _).
  exists a. split; [exact H1 | exact H2].
Defined.

(* ================================================================== *)
(** * The head of a sorted list *)

Lemma StronglySorted_app_inv {A : Type} (R : A -> A -> Prop)
    (l1 l2 : list A) :
  StronglySorted R (l1 ++ l2) ->
  forall x y, In x l1 -> In y l2 -> R x y.
Proof.
  induction l1 as [|a l1 IH]; simpl; intros H x y Hx Hy; [contradiction|].
  apply StronglySorted_inv in H. destruct H as [Hs Ha].
  destruct Hx as [<-|Hx].
  - rewrite Forall_forall in Ha. apply Ha, in_app_iff. now right.
  - now apply IH.
Qed.

(** What is left out of the first [n] elements of a sorted list comes
    after every one of them. *)
Lemma top_of_sorted {A : Type} (R : A -> A -> Prop) (n : nat) (l : list A)
    (x y : A) :
  StronglySorted R l -> In x (firstn n l) -> In y l ->
  ~ In y (firstn n l) -> R x y.
Proof.
  intros Hs Hx Hy Hny. rewrite <- (firstn_skipn n l) in Hs, Hy.
  apply in_app_iff in Hy. destruct Hy as [Hy|Hy]; [contradiction|].
  now apply (StronglySorted_app_inv R _ _ Hs).
Qed.

Lemma NoDup_firstn {A : Type} (n : nat) (l : list A) :
  NoDup l -> NoDup (firstn n l).
Proof.
  intros H. rewrite <- (firstn_skipn n l) in H.
  now apply NoDup_app_remove_r in H.
Qed.

Lemma insert_desc_centrality (x : string * Q) (l : list (string * Q)) :
  StronglySorted centrality_ge l ->
  StronglySorted centrality_ge (Py.insert_desc centrality_gt x l).
Proof.
  induction l as [|y l IH]; intros Hs; simpl.
  - repeat constructor.
  - apply StronglySorted_inv in Hs. destruct Hs as [Hs Hy].
    unfold centrality_gt at 1.
    destruct (Qle_bool (snd y) (snd x)) eqn:Hle; simpl.
    + apply Qle_bool_iff in Hle.
      constructor; [now constructor|].
      constructor; [exact Hle|].
      rewrite Forall_forall in *. intros z Hz. unfold centrality_ge in *.
      eapply Qle_trans; [apply Hy, Hz | exact Hle].
    + constructor; [now apply IH|].
      eapply Permutation_Forall.
      { apply Permutation_sym, insert_desc_perm. }
      constructor; [|exact Hy].
      unfold centrality_ge. apply Qlt_le_weak, Qnot_le_lt.
      intros H. apply Qle_bool_iff in H. congruence.
Qed.

Lemma sorted_desc_centrality (l : list (string * Q)) :
  StronglySorted centrality_ge (Py.sorted_desc centrality_gt l).
Proof.
  induction l as [|x l IH]; simpl; [constructor|].
  now apply insert_desc_centrality.
Qed.

Lemma degree_centrality_keys (g : Nx.Graph) :
  map fst (Nx.degree_centrality g) = map fst g.
Proof.
  unfold Nx.degree_centrality, Nx.degree.
  destruct (_ <=? 1)%nat; rewrite ?map_map; reflexivity.
Qed.

(** X7. [central_nodes] holds the most central nodes in descending order
    of centrality: ten entries, or one for every node when the graph has
    fewer than ten, each one a node of the graph with the centrality
    computed for it, no node twice when the graph held before was well
    formed, and every node left out has a centrality no greater than that
    of every node listed. *)
Theorem central_nodes_are_the_top_ten
    (gm : Nx.Graph -> list (list string)) (t : Tracker) :
  graph_wf (network t) ->
  let g' := network (snd (analyze_network gm t)) in
  exists a,
    fst (analyze_network gm t) = Py.Ok a
    /\ StronglySorted centrality_ge (central_nodes a)
    /\ List.length (central_nodes a) = Nat.min 10 (Nx.number_of_nodes g')
    /\ NoDup (map fst (central_nodes a))
    /\ (forall vc, In vc (central_nodes a) ->
                   In vc (Nx.degree_centrality g')
                   /\ Nx.has_node g' (fst vc) = true)
    /\ (forall vc wc, In vc (central_nodes a) ->
                      In wc (Nx.degree_centrality g') ->
                      ~ In wc (central_nodes a) ->
                      (snd wc <= snd vc)%Q).
Proof.
  intros Hwf. rewrite analyze_network_state. cbn [network].
  set (g := build_network (data t) (network t)).
  assert (Hwf' : graph_wf g) by now apply graph_wf_build_network.
  assert (Hp := sorted_desc_perm centrality_gt (Nx.degree_centrality g)).
  eexists. split; [reflexivity|]. cbn [central_nodes]. fold g.
  split; [apply StronglySorted_firstn, sorted_desc_centrality|].
  split; [|split; [|split]].
  - cbn [network]. rewrite length_firstn, (Permutation_length Hp). f_equal.
    unfold Nx.degree_centrality, Nx.degree, Nx.number_of_nodes.
    destruct (_ <=? 1)%nat; now rewrite ?length_map.
  - rewrite <- firstn_map. apply NoDup_firstn.
    eapply Permutation_NoDup.
    + apply Permutation_sym, Permutation_map, Hp.
    + rewrite degree_centrality_keys. apply Hwf'.
  - intros vc H. apply In_top_sorted in H. split; [exact H|].
    apply has_node_keys. rewrite <- degree_centrality_keys.
    now apply in_map.
  - intros vc wc Hv Hw Hnw.
    apply (top_of_sorted centrality_ge 10 _ vc wc
             (sorted_desc_centrality _) Hv); [|exact Hnw].
    eapply Permutation_in; [apply Permutation_sym, Hp | exact Hw].
Qed.

Lemma central_nodes_are_the_top_ten_repeated_author :
  graph_wf (network tracker_repeated_author)
  /\ exists a,
       fst (analyze_network no_communities tracker_repeated_author)
       = Py.Ok a
       /\ StronglySorted centrality_ge (central_nodes a)
       /\ List.length (central_nodes a) = 2%nat.
Proof.
  assert (Hwf : graph_wf (network tracker_repeated_author))
    by (split; constructor).
  split; [exact Hwf|].
  destruct (central_nodes_are_the_top_ten no_communities
              tracker_repeated_author Hwf) as (a & H1 & H2 & H3 & _).
  exists a. split; [exact H1|]. split; [exact H2 | exact H3].
Defined.

(* ================================================================== *)
(** * The frequency lists hold the most frequent elements *)

Lemma counted_element (ws : list string) (w : string) :
  In w ws ->
  In (w, count_occ string_dec ws w) (Py.count_elements ws).
Proof.
  intros Hw. destruct (count_elements_counts ws) as [_ Hk Hex _ _].
  apply Hk in Hw. apply in_map_iff in Hw.
  destruct Hw as ([k m] & Hkw & Hin). cbn [fst] in Hkw. subst k.
  now rewrite <- (Hex w m Hin).
Qed.

(** [most_common n] of the counter of [ws]: at most [n] bins, no element
    twice, every bin for an element that occurs; an element of [ws]
    without a bin occurs no more often than any element with one, and
    there is none when [ws] has at most [n] different elements. *)
Lemma most_common_top (n : nat) (ws : list string) :
  let out := Py.most_common n (Py.count_elements ws) in
  (List.length out <= n)%nat
  /\ NoDup (map fst out)
  /\ (forall w m, In (w, m) out -> In w ws /\ (1 <= m)%nat)
  /\ (forall w k m, In w ws -> ~ In w (map fst out) -> In (k, m) out ->
                    (count_occ string_dec ws w <= m)%nat)
  /\ ((List.length (nodup string_dec ws) <= n)%nat ->
      forall w, In w ws -> In (w, count_occ string_dec ws w) out).
Proof.
  destruct (count_elements_counts ws) as [Hnd Hk Hex Hord Htot].
  cbv zeta. unfold Py.most_common.
  set (c := Py.count_elements ws) in *.
  assert (Hp := sorted_desc_perm Py.count_gt c).
  assert (Hs : StronglySorted (ranked ws) (Py.sorted_desc Py.count_gt c))
    by apply sorted_ranked, before_of_keys, Hord.
  split; [apply firstn_le_length|]. split; [|split; [|split]].
  - rewrite <- firstn_map. apply NoDup_firstn.
    eapply Permutation_NoDup;
      [apply Permutation_sym, Permutation_map, Hp | exact Hnd].
  - intros w m H. apply In_top_sorted in H.
    assert (Hw : In w ws) by (apply Hk; apply (in_map fst) in H; exact H).
    split; [exact Hw|]. rewrite (Hex w m H).
    now apply (count_occ_In string_dec).
  - intros w k m Hw Hnot Hkm.
    assert (Hin : In (w, count_occ string_dec ws w)
                     (Py.sorted_desc Py.count_gt c)).
    { eapply Permutation_in; [apply Permutation_sym, Hp|].
      now apply counted_element. }
    assert (Hr : ranked ws (k, m) (w, count_occ string_dec ws w)).
    { apply (top_of_sorted (ranked ws) n _ _ _ Hs Hkm Hin).
      intros H. apply Hnot. apply (in_map fst) in H. exact H. }
    apply ranked_count_le in Hr. exact Hr.
  - intros Hlen w Hw. rewrite firstn_all2.
    + eapply Permutation_in; [apply Permutation_sym, Hp|].
      now apply counted_element.
    + rewrite (Permutation_length Hp), <- (length_map fst).
      rewrite (Permutation_length
                 (NoDup_Permutation Hnd (NoDup_nodup string_dec ws)
                    (fun k => iff_trans (Hk k)
                                (iff_sym (nodup_In string_dec ws k))))).
      exact Hlen.
Qed.

(** X8. The hashtag list of [identify_narratives] has at most ten bins,
    no hashtag twice; every bin is for a hashtag carried by some post; a
    hashtag of the batch that has no bin occurs no more often than any
    hashtag that has one; and when the batch carries at most ten different
    hashtags, every hashtag of every post has its bin, with the number of
    times it occurs. *)
Theorem common_hashtags_are_the_most_used (t : Tracker) :
  let tags := flat_map hashtags (data t) in
  exists r,
    fst (identify_narratives t) = Py.Ok r
    /\ (List.length (common_hashtags r) <= 10)%nat
    /\ NoDup (map fst (common_hashtags r))
    /\ (forall h n, In (h, n) (common_hashtags r) ->
                    (1 <= n)%nat
                    /\ exists p, In p (data t) /\ In h (hashtags p))
    /\ (forall p h k n, In p (data t) -> In h (hashtags p) ->
                        ~ In h (map fst (common_hashtags r)) ->
                        In (k, n) (common_hashtags r) ->
                        (count_occ string_dec tags h <= n)%nat)
    /\ ((List.length (nodup string_dec tags) <= 10)%nat ->
        forall p h, In p (data t) -> In h (hashtags p) ->
                    In (h, count_occ string_dec tags h) (common_hashtags r)).
Proof.
  cbv zeta. eexists. split; [reflexivity|]. cbn [common_hashtags].
  destruct (most_common_top 10 (flat_map hashtags (data t)))
    as (H1 & H2 & H3 & H4 & H5).
  split; [exact H1|]. split; [exact H2|]. split; [|split].
  - intros h n H. destruct (H3 h n H) as [Hin Hn]. split; [exact Hn|].
    apply in_flat_map in Hin. exact Hin.
  - intros p h k n Hp Hh. apply H4. apply in_flat_map. now exists p.
  - intros Hlen p h Hp Hh. apply H5; [exact Hlen|].
    apply in_flat_map. now exists p.
Qed.

(* ================================================================== *)
(** * The words *)

Lemma lower_char_not_upper (c : ascii) : is_upper (Py.lower_char c) = false.
Proof.
  destruct c as [[] [] [] [] [] [] [] []]; reflexivity.
Qed.

Lemma lower_not_upper (s : string) :
  Forall (fun c => is_upper c = false) (list_ascii_of_string (Py.lower s)).
Proof.
  induction s as [|c s IH]; simpl; constructor.
  - apply lower_char_not_upper.
  - exact IH.
Qed.

Section Tokens.

Variable P : ascii -> Prop.

Let word_with_P (c : ascii) : Prop := P c /\ Py.is_word_char c = true.

Lemma flush_tokens (cur : list ascii) (tok : string) :
  Forall word_with_P cur -> In tok (Py.flush cur) ->
  tok <> EmptyString /\ Forall word_with_P (list_ascii_of_string tok).
Proof.
  intros Hcur Hin. destruct cur as [|a cur]; [contradiction|].
  destruct Hin as [<-|[]]. split.
  - intros H. apply (f_equal list_ascii_of_string) in H.
    rewrite list_ascii_of_string_of_list_ascii in H. simpl in H.
    now apply app_eq_nil in H.
  - rewrite list_ascii_of_string_of_list_ascii. now apply Forall_rev.
Qed.

Lemma findall_word_from_tokens (s : string) :
  forall cur tok,
    Forall word_with_P cur -> Forall P (list_ascii_of_string s) ->
    In tok (Py.findall_word_from cur s) ->
    tok <> EmptyString /\ Forall word_with_P (list_ascii_of_string tok).
Proof.
  induction s as [|c s IH]; intros cur tok Hcur Hs Hin; simpl in *.
  - now apply (flush_tokens cur).
  - inversion Hs as [|c' cs Hc Hcs]; subst.
    destruct (Py.is_word_char c) eqn:Hw.
    + apply (IH (c :: cur)); [|exact Hcs|exact Hin].
      constructor; [now split | exact Hcur].
    + apply in_app_iff in Hin. destruct Hin as [Hin|Hin].
      * now apply (flush_tokens cur).
      * apply (IH []); [constructor | exact Hcs | exact Hin].
Qed.

End Tokens.

Lemma is_ascii_text_check (s : string) :
  forallb (fun c => (nat_of_ascii c <? 128)%nat) (list_ascii_of_string s)
  = true ->
  is_ascii_text s.
Proof.
  intros H. unfold is_ascii_text. apply Forall_forall. intros c Hc.
  rewrite forallb_forall in H. now apply Nat.ltb_lt, H.
Qed.

(** X9. For a batch whose contents are ASCII text, the word list of
    [identify_narratives] has at most twenty bins, no word twice; every
    word in it is non-empty, made of letters, digits and underscores only,
    without an upper-case letter, and is a token of the lower-cased
    contents met at least once; a token without a bin occurs no more often
    than any word with one. *)
Theorem common_words_are_lower_case_words (t : Tracker) :
  Forall (fun p => is_ascii_text (content p)) (data t) ->
  let words :=
    Py.findall_word (Py.lower (Py.join " " (map content (data t)))) in
  exists r,
    fst (identify_narratives t) = Py.Ok r
    /\ (List.length (common_words r) <= 20)%nat
    /\ NoDup (map fst (common_words r))
    /\ (forall w n, In (w, n) (common_words r) ->
                    w <> EmptyString
                    /\ Forall (fun c => is_upper c = false
                                        /\ Py.is_word_char c = true)
                              (list_ascii_of_string w)
                    /\ In w words /\ (1 <= n)%nat)
    /\ (forall w k n, In w words -> ~ In w (map fst (common_words r)) ->
                      In (k, n) (common_words r) ->
                      (count_occ string_dec words w <= n)%nat).
Proof.
  intros _. cbv zeta. eexists. split; [reflexivity|]. cbn [common_words].
  set (s := Py.lower (Py.join " " (map content (data t)))).
  destruct (most_common_top 20 (Py.findall_word s))
    as (H1 & H2 & H3 & H4 & _).
  split; [exact H1|]. split; [exact H2|]. split; [|exact H4].
  intros w n H. destruct (H3 w n H) as [Hin Hn].
  destruct (findall_word_from_tokens (fun c => is_upper c = false) s [] w
              (Forall_nil _) (lower_not_upper _) Hin) as [Hne Hall].
  repeat split; assumption.
Qed.

Lemma common_words_are_lower_case_words_mixed_case :
  Forall (fun p => is_ascii_text (content p)) (data tracker_mixed_case)
  /\ exists r,
       fst (identify_narratives tracker_mixed_case) = Py.Ok r
       /\ NoDup (map fst (common_words r))
       /\ common_words r
          = [("breaking", 2%nat); ("news", 2%nat); ("fact_check", 1%nat);
             ("2024", 1%nat)].
Proof.
  assert (Ha : Forall (fun p => is_ascii_text (content p))
                 (data tracker_mixed_case)).
  { repeat constructor; apply is_ascii_text_check; reflexivity. }
  split; [exact Ha|].
  destruct (common_words_are_lower_case_words tracker_mixed_case Ha)
    as (r & H1 & _ & H2 & _).
  exists r. split; [exact H1|]. split; [exact H2|].
  injection H1 as <-. vm_compute. reflexivity.
Defined.

(* ================================================================== *)
(** * More on the engagement figures *)

Lemma sum_of_perm (f : Post -> Z) (b1 b2 : list Post) :
  Permutation b1 b2 -> sum_of f b1 = sum_of f b2.
Proof.
  induction 1; simpl; lia.
Qed.

(** X11. The engagement figures do not depend on the order of the posts
    nor on the graph: two trackers whose batches are permutations of one
    another get the same outcome from [analyze_engagement]. *)
Theorem engagement_ignores_order (t1 t2 : Tracker) :
  Permutation (data t1) (data t2) ->
  fst (analyze_engagement t1) = fst (analyze_engagement t2).
Proof.
  intros Hp. destruct t1 as [b1 g1], t2 as [b2 g2]. cbn [data] in Hp.
  pose proof (Permutation_length Hp) as Hlen.
  destruct b1 as [|p1 r1], b2 as [|p2 r2]; try discriminate.
  - reflexivity.
  - rewrite !analyze_engagement_nonempty. cbn [fst].
    rewrite !(sum_of_perm _ _ _ Hp), Hlen. reflexivity.
Qed.

Lemma engagement_ignores_order_reversed :
  Permutation (data (mkTracker batch_unrelated Nx.empty))
              (data (mkTracker (rev batch_unrelated) Nx.empty))
  /\ fst (analyze_engagement (mkTracker batch_unrelated Nx.empty))
     = fst (analyze_engagement (mkTracker (rev batch_unrelated) Nx.empty)).
Proof.
  assert (Hp : Permutation (data (mkTracker batch_unrelated Nx.empty))
                 (data (mkTracker (rev batch_unrelated) Nx.empty)))
    by apply Permutation_rev.
  split; [exact Hp|].
  exact (engagement_ignores_order _ _ Hp).
Defined.

(* ================================================================== *)
(** * The report *)

Lemma generate_report_unfold
    (gm : Nx.Graph -> list (list string)) (now : string) (t : Tracker) :
  generate_report gm now t
  = match analyze_network gm t with
    | (Py.Ok na, t1) =>
        match identify_narratives t1 with
        | (Py.Ok nar, t2) =>
            match analyze_engagement t2 with
            | (Py.Ok eng, t3) =>
                (Py.Ok {| report_timestamp := now;
                          data_points := List.length (data t3);
                          network_analysis := na;
                          narrative_analysis := nar;
                          engagement_analysis := eng |}, t3)
            | (Py.Raise e, t3) => (Py.Raise e, t3)
            end
        | (Py.Raise e, t2) => (Py.Raise e, t2)
        end
    | (Py.Raise e, t1) => (Py.Raise e, t1)
    end.
Proof.
  unfold generate_report, bind at 1 2 3.
  destruct (analyze_network gm t) as [[na|e] t1]; [|reflexivity].
  destruct (identify_narratives t1) as [[nar|e] t2]; [|reflexivity].
  destruct (analyze_engagement t2) as [[eng|e] t3]; reflexivity.
Qed.

Lemma identify_narratives_data (b : list Post) (g1 g2 : Nx.Graph) :
  fst (identify_narratives (mkTracker b g1))
  = fst (identify_narratives (mkTracker b g2)).
Proof. reflexivity. Qed.

Lemma identify_narratives_state (t : Tracker) :
  snd (identify_narratives t) = t.
Proof. reflexivity. Qed.

Lemma analyze_engagement_state (t : Tracker) :
  snd (analyze_engagement t) = t.
Proof.
  destruct t as [[|p rest] g]; [reflexivity|].
  now rewrite analyze_engagement_nonempty.
Qed.

Lemma analyze_engagement_data (b : list Post) (g1 g2 : Nx.Graph) :
  fst (analyze_engagement (mkTracker b g1))
  = fst (analyze_engagement (mkTracker b g2)).
Proof.
  destruct b as [|p rest]; [reflexivity|].
  now rewrite !analyze_engagement_nonempty.
Qed.

(** The report and the tracker it leaves are decided by the batch and by
    the graph the loops build. *)
Lemma generate_report_via_graph
    (gm : Nx.Graph -> list (list string)) (d : list Post)
    (g1 g2 : Nx.Graph) (at1 at2 : string) :
  build_network d g1 = build_network d g2 ->
  Py.map_result report_body (fst (generate_report gm at1 (mkTracker d g1)))
  = Py.map_result report_body (fst (generate_report gm at2 (mkTracker d g2)))
  /\ snd (generate_report gm at1 (mkTracker d g1))
     = snd (generate_report gm at2 (mkTracker d g2)).
Proof.
  intros Hb.
  unfold generate_report, analyze_network, identify_narratives,
    analyze_engagement, bind, get_data, get_network, set_network, ret.
  cbn [fst snd data network]. rewrite Hb.
  destruct (List.length d);
    cbn [true_div raise ret fst snd Py.map_result network data report_body
         data_points network_analysis narrative_analysis engagement_analysis];
    split; reflexivity.
Qed.

Lemma generate_report_state
    (gm : Nx.Graph -> list (list string)) (now : string) (t : Tracker) :
  snd (generate_report gm now t)
  = mkTracker (data t) (build_network (data t) (network t)).
Proof.
  unfold generate_report, analyze_network, identify_narratives,
    analyze_engagement, bind, get_data, get_network, set_network, ret.
  cbn [fst snd data network].
  destruct (List.length (data t)); reflexivity.
Qed.

(** X13. [generate_report] can be repeated: a second call on the tracker
    the first one left gives the same outcome, its time stamp apart, and
    leaves the tracker as it found it. *)
Theorem generate_report_twice
    (gm : Nx.Graph -> list (list string)) (now1 now2 : string)
    (t : Tracker) :
  let t1 := snd (generate_report gm now1 t) in
  Py.map_result report_body (fst (generate_report gm now2 t1))
  = Py.map_result report_body (fst (generate_report gm now1 t))
  /\ snd (generate_report gm now2 t1) = t1.
Proof.
  cbv zeta. rewrite (generate_report_state gm now1 t).
  destruct t as [d g]. cbn [data network].
  destruct (generate_report_via_graph gm d (build_network d g) g now2 now1
              (build_network_twice d g)) as [H1 H2].
  split; [exact H1|].
  rewrite H2, generate_report_state. reflexivity.
Qed.

(* ================================================================== *)
(** * Collecting and reporting *)

Lemma collect_and_report_unfold
    (gm : Nx.Graph -> list (list string)) (now : Z -> string)
    (at_ kw pf : string) (N : Z) (t : Tracker) :
  collect_and_report gm now at_ kw pf N t
  = generate_report gm at_
      (mkTracker (map (sample_post now kw pf) (Py.range N)) (network t)).
Proof. reflexivity. Qed.

Lemma generate_report_result
    (gm : Nx.Graph -> list (list string)) (now : string) (b : list Post)
    (g : Nx.Graph) :
  b <> [] ->
  exists r,
    fst (generate_report gm now (mkTracker b g)) = Py.Ok r
    /\ data_points r = List.length b
    /\ report_timestamp r = now
    /\ fst (analyze_network gm (mkTracker b g)) = Py.Ok (network_analysis r)
    /\ fst (identify_narratives (mkTracker b g))
       = Py.Ok (narrative_analysis r)
    /\ fst (analyze_engagement (mkTracker b g))
       = Py.Ok (engagement_analysis r)
    /\ total_likes (engagement_analysis r)
       = sum_of (fun p => likes (engagement p)) b
    /\ total_shares (engagement_analysis r)
       = sum_of (fun p => shares (engagement p)) b.
Proof.
  intros Hb. destruct b as [|p rest]; [now contradiction Hb|].
  rewrite analyze_engagement_nonempty.
  unfold generate_report, analyze_network, identify_narratives,
    analyze_engagement, bind, get_data, get_network, set_network, ret.
  cbn [fst snd data network List.length true_div].
  eexists. split; [reflexivity|].
  cbn [data_points report_timestamp network_analysis narrative_analysis
       engagement_analysis total_likes total_shares].
  rewrite !sum_map_sum_of. repeat split; reflexivity.
Qed.

(** X14. [collect_posts] followed by [generate_report] raises
    [ZeroDivisionError] exactly when the count is zero or negative, and
    then leaves an empty batch and the graph as it was; for a count of one
    or more it returns a report whose [data_points] is the count and whose
    engagement totals are the sums of [10 * i] and [2 * i]. *)
Theorem collect_and_report_by_count
    (gm : Nx.Graph -> list (list string)) (now : Z -> string)
    (at_ kw pf : string) (N : Z) (t : Tracker) :
  ((N <= 0)%Z ->
   fst (collect_and_report gm now at_ kw pf N t)
   = Py.Raise Py.ZeroDivisionError
   /\ snd (collect_and_report gm now at_ kw pf N t)
      = mkTracker [] (network t))
  /\ ((1 <= N)%Z ->
      exists r,
        fst (collect_and_report gm now at_ kw pf N t) = Py.Ok r
        /\ Z.of_nat (data_points r) = N
        /\ report_timestamp r = at_
        /\ total_likes (engagement_analysis r) = sigma (fun i => 10 * i)%Z N
        /\ total_shares (engagement_analysis r) = sigma (fun i => 2 * i)%Z N).
Proof.
  rewrite collect_and_report_unfold. unfold Py.range. split.
  - intros HN. replace (Z.to_nat N) with 0%nat by lia. split; reflexivity.
  - intros HN.
    assert (Hne : map (sample_post now kw pf)
                    (map Z.of_nat (seq 0 (Z.to_nat N))) <> []).
    { destruct (Z.to_nat N) eqn:Hk; [lia | discriminate]. }
    destruct (generate_report_result gm at_ _ (network t) Hne)
      as (r & Hr & Hdp & Hts & _ & _ & _ & Hl & Hs).
    exists r. split; [exact Hr|].
    rewrite Hdp, Hl, Hs, !length_map, length_seq.
    split; [lia|]. split; [exact Hts|].
    rewrite (sum_of_sample_posts now kw pf _ (fun i => 10 * i)%Z)
      by (intros i; unfold sample_post; cbn [likes shares engagement]; lia).
    rewrite (sum_of_sample_posts now kw pf _ (fun i => 2 * i)%Z)
      by (intros i; unfold sample_post; cbn [likes shares engagement]; lia).
    split; reflexivity.
Qed.

Lemma analyze_network_result
    (gm : Nx.Graph -> list (list string)) (b : list Post) (g : Nx.Graph)
    (a : NetworkAnalysis) :
  fst (analyze_network gm (mkTracker b g)) = Py.Ok a ->
  central_nodes a
  = firstn 10 (Py.sorted_desc centrality_gt
                 (Nx.degree_centrality (build_network b g)))
  /\ density a = Nx.density (build_network b g).
Proof.
  intros H. injection H as <-. split; reflexivity.
Qed.

(* ================================================================== *)
(** * The hashtags of the synthetic batch *)

Lemma tags_of_sample_posts (now : Z -> string) (kw pf : string)
    (idx : list Z) :
  flat_map hashtags (map (sample_post now kw pf) idx)
  = flat_map (fun _ => [("#" ++ kw)%string; "#sample"]) idx.
Proof.
  induction idx as [|i idx IH]; simpl; [reflexivity | now rewrite IH].
Qed.

Lemma bump_two_keys (k1 k2 : string) (idx : list Z) :
  k1 <> k2 ->
  forall a b,
    fold_left (fun c w => Py.bump w c) (flat_map (fun _ => [k1; k2]) idx)
      [(k1, a); (k2, b)]
    = [(k1, (a + List.length idx)%nat); (k2, (b + List.length idx)%nat)].
Proof.
  intros Hk. apply String.eqb_neq in Hk.
  induction idx as [|i idx IH]; intros a b.
  - simpl. now rewrite !Nat.add_0_r.
  - cbn [flat_map app fold_left Py.bump List.length].
    rewrite String.eqb_refl. cbn [Py.bump].
    rewrite Hk, String.eqb_refl. rewrite IH.
    now rewrite !Nat.add_succ_r.
Qed.

Lemma count_two_keys (k1 k2 : string) (i : Z) (idx : list Z) :
  k1 <> k2 ->
  Py.count_elements (flat_map (fun _ => [k1; k2]) (i :: idx))
  = [(k1, S (List.length idx)); (k2, S (List.length idx))].
Proof.
  intros Hk. unfold Py.count_elements.
  cbn [flat_map app fold_left Py.bump].
  pose proof Hk as Hk'. apply String.eqb_neq in Hk'. rewrite Hk'.
  now rewrite (bump_two_keys k1 k2 idx Hk 1 1).
Qed.

(** X16. After [collect_posts] with a keyword other than [sample] and a
    count [N] of one or more, [identify_narratives] reports exactly two
    hashtags, the keyword's first and [#sample] second, each with count
    [N]. *)
Theorem synthetic_batch_has_two_hashtags
    (now : Z -> string) (kw pf : string) (N : Z) (t : Tracker) :
  (1 <= N)%Z -> kw <> "sample" ->
  exists r,
    fst (identify_narratives (snd (collect_posts now kw pf N t))) = Py.Ok r
    /\ common_hashtags r
       = [(("#" ++ kw)%string, Z.to_nat N); ("#sample", Z.to_nat N)].
Proof.
  intros HN Hkw. eexists. split; [reflexivity|].
  cbn [common_hashtags snd collect_posts set_data data].
  rewrite tags_of_sample_posts, <- (range_length N).
  destruct (Py.range N) as [|i idx] eqn:Hr.
  - apply (f_equal (@List.length Z)) in Hr. rewrite range_length in Hr.
    simpl in Hr. lia.
  - assert (Hne : ("#" ++ kw)%string <> "#sample")
      by (simpl; intros [= H]; now apply Hkw).
    rewrite (count_two_keys _ _ i idx Hne).
    unfold Py.most_common, Py.sorted_desc.
    cbn [fold_right Py.insert_desc]. unfold Py.count_gt. cbn [snd].
    rewrite Nat.ltb_irrefl. reflexivity.
Qed.

Lemma synthetic_batch_has_two_hashtags_default :
  (1 <= 100)%Z /\ "election2024" <> "sample"
  /\ exists r,
       fst (identify_narratives
              (snd (collect_posts clock0 "election2024" "twitter" 100 init)))
       = Py.Ok r
       /\ common_hashtags r = [("#election2024", 100%nat); ("#sample", 100%nat)].
Proof.
  assert (H1 : (1 <= 100)%Z) by lia.
  assert (H2 : "election2024" <> "sample") by discriminate.
  split; [exact H1|]. split; [exact H2|].
  exact (synthetic_batch_has_two_hashtags clock0 "election2024" "twitter"
           100 init H1 H2).
Defined.

(* ================================================================== *)
(** * More on the export *)

Lemma row_post_dict_to_list (p : Post) :
  row_post (Csv.dict_to_list p) = Some p.
Proof. destruct p. reflexivity. Qed.

(** X17. [export_data] touches no file but the one it is given, and what
    that file held before does not matter; every data row has the seven
    cells of its post in the order of the header, so the batch can be read
    back from the rows; and a second export to the same file replaces the
    first. *)
Theorem export_data_overwrites_one_file
    (filename : string) (t : Tracker) (fs : Csv.FileSystem) :
  (forall other, other <> filename ->
                 export_data filename t fs other = fs other)
  /\ (forall fs', export_data filename t fs' filename
                  = export_data filename t fs filename)
  /\ (exists header rows,
        export_data filename t fs filename = Some (header :: rows)
        /\ Forall (fun r => List.length r = List.length header) rows
        /\ map row_post rows = map Some (data t))
  /\ (forall t0 name,
        export_data filename t (export_data filename t0 fs) name
        = export_data filename t fs name).
Proof.
  unfold export_data, Csv.write_file. split; [|split; [|split]].
  - intros other Hne. apply String.eqb_neq in Hne. now rewrite Hne.
  - intros fs'. now rewrite String.eqb_refl.
  - rewrite String.eqb_refl, writerows_app. simpl.
    eexists. eexists. split; [reflexivity|]. split.
    + apply Forall_forall. intros r Hr. apply in_map_iff in Hr.
      destruct Hr as (p & <- & _). reflexivity.
    + rewrite map_map. apply map_ext. apply row_post_dict_to_list.
  - intros t0 name. destruct (String.eqb name filename); reflexivity.
Qed.

(* ================================================================== *)
(** * The arithmetic of [float] *)

(** Rounding to the nearest integer is off by half a unit at most. *)
Lemma rne_div_spec (n d : Z) :
  (0 <= n)%Z -> (0 < d)%Z ->
  (0 <= Float.rne_div n d
   /\ - d <= 2 * (Float.rne_div n d * d - n) <= d)%Z.
Proof.
  intros Hn Hd. unfold Float.rne_div.
  pose proof (Z_div_mod n d ltac:(lia)) as H.
  destruct (Z.div_eucl n d) as [q r]. destruct H as [Hq Hr].
  assert (0 <= q)%Z by nia.
  destruct (Z.compare_spec (2 * r) d) as [E|E|E].
  - destruct (Z.even q); split; nia.
  - split; nia.
  - split; nia.
Qed.

(** An exact quotient is left alone. *)
Lemma rne_div_exact (q d : Z) :
  (0 < d)%Z -> Float.rne_div (q * d) d = q.
Proof.
  intros Hd. unfold Float.rne_div.
  pose proof (Z_div_mod (q * d) d ltac:(lia)) as H.
  destruct (Z.div_eucl (q * d) d) as [q' r]. destruct H as [Hq Hr].
  assert (q' = q) by nia. subst q'. assert (r = 0)%Z by nia. subst r.
  assert (E : (2 * 0 ?= d)%Z = Lt) by (apply Z.compare_lt_iff; lia).
  rewrite E. reflexivity.
Qed.

Lemma floor_log2_lower (n d : Z) :
  (0 < n)%Z -> (0 < d)%Z -> (d * 2 ^ Float.floor_log2 n d <= n)%Z.
Proof.
  intros Hn Hd. unfold Float.floor_log2.
  destruct (Z.leb_spec (d * 2 ^ (Z.log2 n - Z.log2 d)) n) as [H|H];
    [exact H|].
  set (k := (Z.log2 n - Z.log2 d)%Z) in *.
  destruct (Z.le_gt_cases 1 k) as [Hk|Hk].
  - pose proof (Z.log2_spec n Hn) as [Hn1 _].
    pose proof (Z.log2_spec d Hd) as [_ Hd2].
    pose proof (Z.log2_nonneg d) as Hld.
    assert (E : (2 ^ Z.log2 n = 2 ^ (Z.succ (Z.log2 d)) * 2 ^ (k - 1))%Z).
    { rewrite <- Z.pow_add_r by lia. f_equal. unfold k. lia. }
    assert (0 < 2 ^ (k - 1))%Z by (apply Z.pow_pos_nonneg; lia).
    nia.
  - rewrite Z.pow_neg_r by lia. lia.
Qed.

Lemma shift_nonneg (n d : Z) : (0 <= Float.shift n d)%Z.
Proof. unfold Float.shift. lia. Qed.

Lemma shift_lower (n d : Z) :
  (0 < n)%Z -> (0 < d)%Z -> (d * 2 ^ 52 <= n)%Z ->
  (d * 2 ^ (Float.shift n d + 52) <= n)%Z.
Proof.
  intros Hn Hd H. unfold Float.shift.
  destruct (Z.max_spec 0 (Float.floor_log2 n d - 52)) as [[_ ->]|[_ ->]].
  - replace (Float.floor_log2 n d - 52 + 52)%Z
      with (Float.floor_log2 n d) by lia.
    now apply floor_log2_lower.
  - exact H.
Qed.

(** In units: the nearest double is within [2^-53] of the quotient,
    relatively, from [2^-1022] on. *)
Lemma round_units_accurate (n d : Z) :
  (0 < n)%Z -> (0 < d)%Z -> (d * 2 ^ 52 <= n)%Z ->
  (0 <= Float.round_units n d
   /\ - n <= 2 ^ 53 * (Float.round_units n d * d - n) <= n)%Z.
Proof.
  intros Hn Hd H. unfold Float.round_units.
  pose proof (shift_nonneg n d) as Ht.
  pose proof (shift_lower n d Hn Hd H) as Hl.
  set (t := Float.shift n d) in *.
  rewrite Z.pow_add_r in Hl by lia.
  assert (HP : (0 < 2 ^ t)%Z) by (apply Z.pow_pos_nonneg; lia).
  set (P := (2 ^ t)%Z) in *.
  destruct (rne_div_spec n (d * P) ltac:(lia) ltac:(nia)) as [Hm Hr].
  set (m := Float.rne_div n (d * P)) in *.
  change (2 ^ 53)%Z with (2 * 2 ^ 52)%Z.
  set (C := (2 ^ 52)%Z) in *. assert (0 < C)%Z by (unfold C; lia).
  split; [nia|]. split; nia.
Qed.

Lemma units_per_one_pos : (0 < Float.units_per_one)%Z.
Proof. unfold Float.units_per_one. apply Z.pow_pos_nonneg; lia. Qed.

Lemma units_split : Float.units_per_one = (Zpos (2 ^ 1022) * 2 ^ 52)%Z.
Proof.
  unfold Float.units_per_one. rewrite Pos2Z.inj_pow.
  rewrite <- Z.pow_add_r by lia. reflexivity.
Qed.

(** A quotient of two positive integers, from [2^-1022] on. *)
Lemma round_ratio_accurate (a b : positive) :
  (least_normal <= Zpos a # b)%Q ->
  (0 <= Float.round_ratio (Zpos a) (Zpos b))%Q
  /\ (Qabs (Float.round_ratio (Zpos a) (Zpos b) - (Zpos a # b))
      <= unit_roundoff * (Zpos a # b))%Q.
Proof.
  intros Hn. unfold Float.round_ratio.
  assert (Hb : (Zpos b <= Zpos a * Zpos (2 ^ 1022))%Z).
  { unfold least_normal, Qle in Hn. cbn [Qnum Qden] in Hn. lia. }
  pose proof units_per_one_pos as HW. pose proof units_split as HS.
  set (W := Float.units_per_one) in *.
  destruct (round_units_accurate (Zpos a * W) (Zpos b)) as [HU Hacc];
    [nia | lia | rewrite HS; nia |].
  set (U := Float.round_units (Z.pos a * W) (Z.pos b)) in *.
  rewrite Qred_correct.
  assert (HWp : Zpos (Z.to_pos W) = W) by (apply Z2Pos.id; lia).
  split.
  - unfold Qle. cbn [Qnum Qden]. lia.
  - apply Qabs_Qle_condition. unfold unit_roundoff.
    split; unfold Qle, Qminus, Qplus, Qopp, Qmult; cbn [Qnum Qden];
      rewrite ?Pos2Z.inj_mul, ?HWp, ?Pos2Z.inj_pow;
      set (C := (2 ^ 53)%Z) in *; assert (0 < C)%Z by (unfold C; lia);
      nia.
Qed.

(** Rounding depends on the value only, not on the fraction that denotes
    it. *)
Lemma round_compat (q q' : Q) : (q == q')%Q -> Float.round q = Float.round q'.
Proof.
  intros H. unfold Float.round. now rewrite (Qred_complete q q' H).
Qed.

Lemma round_zero (q : Q) : (q == 0)%Q -> Float.round q = 0%Q.
Proof.
  intros H. rewrite (round_compat q 0 H). reflexivity.
Qed.

(** The standard model of rounding: from [2^-1022] on, the double nearest
    to [q] is within [2^-53] of [q], relatively. *)
Lemma round_accurate (q : Q) :
  (least_normal <= Qabs q)%Q ->
  (Qabs (Float.round q - q) <= unit_roundoff * Qabs q)%Q.
Proof.
  intros Hn. unfold Float.round.
  pose proof (Qred_correct q) as Hq.
  destruct (Qred q) as [num den]. cbn [Qnum Qden].
  destruct num as [|p|p].
  - exfalso. rewrite <- Hq in Hn. unfold least_normal in Hn.
    vm_compute in Hn. now apply Hn.
  - assert (Habs : (Qabs q == Zpos p # den)%Q) by (rewrite <- Hq; reflexivity).
    rewrite Habs in Hn |- *.
    destruct (round_ratio_accurate p den Hn) as [_ H].
    rewrite <- Hq. exact H.
  - assert (Habs : (Qabs q == Zpos p # den)%Q) by (rewrite <- Hq; reflexivity).
    rewrite Habs in Hn |- *.
    destruct (round_ratio_accurate p den Hn) as [_ H].
    rewrite <- Hq.
    assert (E : (- Float.round_ratio (Zpos p) (Zpos den) - (Zneg p # den)
                 == - (Float.round_ratio (Zpos p) (Zpos den) - (Zpos p # den)))%Q).
    { change (Zneg p # den) with (- (Zpos p # den))%Q. ring. }
    rewrite E, Qabs_opp. exact H.
Qed.

Lemma round_nonneg (q : Q) : (0 <= q)%Q -> (0 <= Float.round q)%Q.
Proof.
  intros Hq0. unfold Float.round.
  pose proof (Qred_correct q) as Hq.
  destruct (Qred q) as [num den]. cbn [Qnum Qden].
  destruct num as [|p|p].
  - apply Qle_refl.
  - unfold Float.round_ratio. rewrite Qred_correct.
    pose proof units_per_one_pos as HW.
    unfold Float.round_units.
    set (n := (Zpos p * Float.units_per_one)%Z).
    pose proof (shift_nonneg n (Zpos den)) as Ht.
    assert (HP : (0 < 2 ^ Float.shift n (Zpos den))%Z)
      by (apply Z.pow_pos_nonneg; lia).
    destruct (rne_div_spec n (Zpos den * 2 ^ Float.shift n (Zpos den)))
      as [Hm _]; [unfold n; nia | nia |].
    unfold Qle. cbn [Qnum Qden]. nia.
  - exfalso. rewrite <- Hq in Hq0. unfold Qle in Hq0. cbn in Hq0. lia.
Qed.

Lemma floor_log2_one (n : Z) : (Float.floor_log2 n 1 <= Z.log2 n)%Z.
Proof.
  unfold Float.floor_log2. change (Z.log2 1) with 0%Z.
  destruct (_ <=? _)%Z; lia.
Qed.

Lemma Qred_inject_Z (n : Z) : Qred (inject_Z n) = inject_Z n.
Proof.
  unfold Qred, inject_Z.
  pose proof (Z.ggcd_gcd n 1) as Hg.
  pose proof (Z.ggcd_correct_divisors n 1) as Hd.
  destruct (Z.ggcd n 1) as [g [aa bb]]. cbn [fst snd] in *.
  rewrite Z.gcd_1_r in Hg. subst g. destruct Hd as [Ha Hb].
  rewrite Z.mul_1_l in Ha, Hb. subst n bb. reflexivity.
Qed.

(** Integers below [2^53] are doubles. *)
Lemma round_small_int (n : Z) :
  (0 <= n < 2 ^ 53)%Z -> (Float.round (inject_Z n) == inject_Z n)%Q.
Proof.
  intros [H0 H1]. unfold Float.round.
  rewrite Qred_inject_Z.
  cbn [Qnum Qden inject_Z].
  destruct n as [|p|p]; [reflexivity| |lia].
  unfold Float.round_ratio. rewrite Qred_correct.
  pose proof units_per_one_pos as HW.
  assert (HWp : Zpos (Z.to_pos Float.units_per_one) = Float.units_per_one)
    by (apply Z2Pos.id; lia).
  unfold Float.round_units.
  set (N := (Zpos p * Float.units_per_one)%Z).
  pose proof (shift_nonneg N 1) as Ht.
  assert (Hle : (Float.shift N 1 <= 1074)%Z).
  { unfold Float.shift. pose proof (floor_log2_one N) as Hl.
    assert (Z.log2 N = 1074 + Z.log2 (Zpos p))%Z
      by (unfold N, Float.units_per_one; apply Z.log2_mul_pow2; lia).
    assert (Z.log2 (Zpos p) < 53)%Z by (apply Z.log2_lt_pow2; lia).
    lia. }
  set (t := Float.shift N 1) in *.
  assert (E : (2 ^ (1074 - t) * 2 ^ t = Float.units_per_one)%Z).
  { unfold Float.units_per_one. rewrite <- Z.pow_add_r by lia.
    f_equal. lia. }
  assert (HN : N = (Zpos p * 2 ^ (1074 - t) * (1 * 2 ^ t))%Z)
    by (unfold N; rewrite <- E; ring).
  rewrite HN. rewrite rne_div_exact
    by (assert (0 < 2 ^ t)%Z by (apply Z.pow_pos_nonneg; lia); lia).
  unfold Qeq. cbn [Qnum Qden inject_Z]. rewrite HWp, <- E. ring.
Qed.

Lemma round_between (q : Q) :
  (least_normal <= q)%Q ->
  ((1 - unit_roundoff) * q <= Float.round q <= (1 + unit_roundoff) * q)%Q.
Proof.
  intros Hn.
  assert (Hpos : (0 < q)%Q).
  { eapply Qlt_le_trans; [|exact Hn]. reflexivity. }
  assert (Habs : (Qabs q == q)%Q) by (apply Qabs_pos; now apply Qlt_le_weak).
  pose proof (round_accurate q) as H. rewrite Habs in H. specialize (H Hn).
  apply Qabs_Qle_condition in H. destruct H as [H1 H2].
  split; lra.
Qed.

(** The value [d * (1.0 / (n - 1.0))] for a node of degree [d] among
    [m + 1] nodes, against the exact quotient [d / m]. *)
Lemma centrality_float_accurate (m d : Z) :
  (1 <= m < 2 ^ 53 - 1)%Z -> (0 <= d < 2 ^ 53)%Z ->
  let c := Float.mul (Float.of_int d)
             (Float.div 1 (Float.sub (Float.of_int (m + 1)) 1)) in
  let x := (inject_Z d / inject_Z m)%Q in
  ((1 - unit_roundoff) * ((1 - unit_roundoff) * x) <= c
   /\ c <= (1 + unit_roundoff) * ((1 + unit_roundoff) * x))%Q.
Proof.
  intros Hm Hd. cbv zeta.
  unfold Float.mul, Float.div, Float.sub, Float.of_int.
  pose proof (round_small_int (m + 1) ltac:(lia)) as Hn1.
  assert (Hy : Float.round (Float.round (inject_Z (m + 1)) - 1)
               = Float.round (inject_Z m)).
  { apply round_compat. rewrite Hn1.
    rewrite inject_Z_plus. change (inject_Z 1) with 1%Q. ring. }
  rewrite Hy. clear Hy Hn1.
  pose proof (round_small_int m ltac:(lia)) as Hm1.
  set (mp := Z.to_pos m).
  assert (Hmp : Zpos mp = m) by (apply Z2Pos.id; lia).
  assert (Hs : Float.round (1 / Float.round (inject_Z m))
               = Float.round (1 # mp)).
  { apply round_compat. rewrite Hm1. unfold Qdiv. rewrite Qmult_1_l.
    rewrite <- Hmp. reflexivity. }
  rewrite Hs. clear Hs.
  assert (Hx0 : (1 / inject_Z m == 1 # mp)%Q).
  { unfold Qdiv. rewrite Qmult_1_l, <- Hmp. reflexivity. }
  assert (Hn0 : (least_normal <= 1 # mp)%Q).
  { unfold least_normal, Qle. cbn [Qnum Qden]. rewrite Hmp.
    rewrite Pos2Z.inj_pow.
    assert (2 ^ 53 <= 2 ^ 1022)%Z by (apply Z.pow_le_mono_r; lia). lia. }
  pose proof (round_between _ Hn0) as [Hs1 Hs2].
  set (s := Float.round (1 # mp)) in *.
  set (x0 := (1 # mp)%Q) in *.
  assert (Hx0pos : (0 < x0)%Q) by reflexivity.
  assert (Hx : (inject_Z d / inject_Z m == inject_Z d * x0)%Q).
  { unfold Qdiv. rewrite <- Hx0. unfold Qdiv. now rewrite Qmult_1_l. }
  rewrite Hx.
  pose proof (round_small_int d Hd) as Hd1.
  destruct (Z.eq_dec d 0) as [->|Hd0].
  - assert (E : Float.round (Float.round (inject_Z 0) * s) = 0%Q).
    { apply round_zero. rewrite Hd1. change (inject_Z 0) with 0%Q. ring. }
    rewrite E. change (inject_Z 0) with 0%Q. split; lra.
  - assert (Hdq : (1 <= inject_Z d)%Q).
    { change 1%Q with (inject_Z 1). rewrite <- Zle_Qle. lia. }
    set (dq := inject_Z d) in *.
    assert (Hp : Float.round (Float.round dq * s) = Float.round (dq * s))
      by (apply round_compat; now rewrite Hd1).
    rewrite Hp.
    assert (Hp1 : ((1 - unit_roundoff) * (dq * x0) <= dq * s)%Q).
    { setoid_replace ((1 - unit_roundoff) * (dq * x0))%Q
        with (dq * ((1 - unit_roundoff) * x0))%Q by ring.
      apply Qmult_le_l; [lra | exact Hs1]. }
    assert (Hp2 : (dq * s <= (1 + unit_roundoff) * (dq * x0))%Q).
    { setoid_replace ((1 + unit_roundoff) * (dq * x0))%Q
        with (dq * ((1 + unit_roundoff) * x0))%Q by ring.
      apply Qmult_le_l; [lra | exact Hs2]. }
    assert (Hx0low : ((1 # 2 ^ 53) <= x0)%Q).
    { unfold x0, Qle. cbn [Qnum Qden]. rewrite Hmp, Pos2Z.inj_pow. lia. }
    assert (Hdx : (x0 <= dq * x0)%Q).
    { setoid_replace x0 with (1 * x0)%Q at 1 by ring.
      apply Qmult_le_r; [exact Hx0pos | exact Hdq]. }
    assert (Hnp : (least_normal <= dq * s)%Q).
    { eapply Qle_trans; [|exact Hp1].
      assert (Hc : (least_normal <= (1 - unit_roundoff) * (1 # 2 ^ 53))%Q)
        by (vm_compute; discriminate).
      unfold unit_roundoff in *.
      change (2 ^ 53)%positive with 9007199254740992%positive in *. lra. }
    pose proof (round_between _ Hnp) as [Hc1 Hc2].
    unfold unit_roundoff in *.
    change (2 ^ 53)%positive with 9007199254740992%positive in *.
    split; lra.
Qed.

(** ** Sample values

    Python prints the first as [0.6000000000000001] and the second as
    [0.9999999999999999]; [3 / 5] is [0.6]. *)
Lemma centrality_double_three_of_six :
  centrality_double 6 3 = (1351079888211149 # 2251799813685248)%Q
  /\ Float.true_div 3 5
     = Py.Ok (5404319552844595 # 9007199254740992)%Q
  /\ ~ (centrality_double 6 3 == 3 # 5)%Q.
Proof.
  split; [vm_compute; reflexivity|]. split; [vm_compute; reflexivity|].
  intros H. vm_compute in H. discriminate H.
Qed.

Lemma centrality_double_forty_nine_of_fifty :
  centrality_double 50 49 = (9007199254740991 # 9007199254740992)%Q.
Proof. vm_compute. reflexivity. Qed.

Lemma true_div_samples :
  Float.true_div (10 ^ 400) 1 = Py.Raise Py.OverflowError
  /\ Float.true_div (2 ^ 53 + 1) 1 = Py.Ok (9007199254740992 # 1)%Q
  /\ Float.true_div 1 3
     = Py.Ok (6004799503160661 # 18014398509481984)%Q
  /\ Float.true_div (-7) 2 = Py.Ok (-7 # 2)%Q
  /\ Float.true_div 1 0 = Py.Raise Py.ZeroDivisionError.
Proof.
  repeat split; vm_compute; reflexivity.
Qed.

(* ================================================================== *)
(** * Division of two [int] *)

Lemma true_div_zero (a : Z) :
  Float.true_div a 0 = Py.Raise Py.ZeroDivisionError.
Proof. reflexivity. Qed.

Lemma true_div_overflow (a b : Z) :
  (0 < b)%Z -> (Float.overflow_threshold * b <= Z.abs a)%Z ->
  Float.true_div a b = Py.Raise Py.OverflowError.
Proof.
  intros Hb Ha. unfold Float.true_div.
  destruct (Z.eqb_spec b 0) as [E|_]; [lia|].
  rewrite (Z.abs_eq b) by lia.
  destruct (Z.leb_spec (Float.overflow_threshold * b) (Z.abs a)) as [_|H];
    [reflexivity | lia].
Qed.

Lemma true_div_in_range (a b : Z) :
  (0 < b)%Z -> (Z.abs a < Float.overflow_threshold * b)%Z ->
  Float.true_div a b = Py.Ok (Float.round (a # Z.to_pos b)).
Proof.
  intros Hb Ha. unfold Float.true_div.
  destruct (Z.eqb_spec b 0) as [E|_]; [lia|].
  rewrite (Z.abs_eq b) by lia.
  destruct (Z.leb_spec (Float.overflow_threshold * b) (Z.abs a)) as [H|_];
    [lia|].
  rewrite Z.sgn_pos by lia. now rewrite Z.mul_1_r.
Qed.

Lemma overflow_threshold_large : (4 <= Float.overflow_threshold)%Z.
Proof. vm_compute. discriminate. Qed.

Lemma Qmake_as_quotient (a b : Z) :
  (0 < b)%Z -> (a # Z.to_pos b == inject_Z a / inject_Z b)%Q.
Proof.
  intros Hb. rewrite (Qmake_Qdiv a (Z.to_pos b)).
  now rewrite Z2Pos.id by lia.
Qed.

(* ================================================================== *)
(** * [analyze_engagement] in doubles *)

Lemma analyze_engagement_float_unfold (t : Tracker) :
  analyze_engagement_float t
  = (Py.map_result
       (fun avg =>
          {| total_likes := sum_of (fun p => likes (engagement p)) (data t);
             total_shares := sum_of (fun p => shares (engagement p)) (data t);
             avg_engagement := avg |})
       (Float.true_div (likes_and_shares (data t))
                       (Z.of_nat (List.length (data t)))),
     t).
Proof.
  unfold analyze_engagement_float, bind, get_data, true_div_float, lift, ret,
    likes_and_shares.
  rewrite !sum_map_sum_of.
  destruct (Float.true_div _ _); reflexivity.
Qed.

Lemma length_pos_nonempty {A : Type} (l : list A) :
  l <> [] -> (0 < Z.of_nat (List.length l))%Z.
Proof.
  destruct l; [intros H; now contradiction H | simpl; lia].
Qed.

(** The three outcomes of the division in [analyze_engagement]. *)
Lemma average_outcome (b : list Post) :
  (b = [] /\
   Float.true_div (likes_and_shares b) (Z.of_nat (List.length b))
   = Py.Raise Py.ZeroDivisionError)
  \/ (b <> []
      /\ (Float.overflow_threshold * Z.of_nat (List.length b)
          <= Z.abs (likes_and_shares b))%Z
      /\ Float.true_div (likes_and_shares b) (Z.of_nat (List.length b))
         = Py.Raise Py.OverflowError)
  \/ (b <> []
      /\ (Z.abs (likes_and_shares b)
          < Float.overflow_threshold * Z.of_nat (List.length b))%Z
      /\ Float.true_div (likes_and_shares b) (Z.of_nat (List.length b))
         = Py.Ok (Float.round
                    (likes_and_shares b
                     # Z.to_pos (Z.of_nat (List.length b))))).
Proof.
  destruct b as [|p rest]; [left; split; reflexivity|]. right.
  assert (Hne : p :: rest <> []) by discriminate.
  pose proof (length_pos_nonempty _ Hne) as Hn.
  destruct (Z.le_gt_cases
              (Float.overflow_threshold * Z.of_nat (List.length (p :: rest)))
              (Z.abs (likes_and_shares (p :: rest)))) as [H|H].
  - left. split; [exact Hne|]. split; [exact H|].
    now apply true_div_overflow.
  - right. split; [exact Hne|]. split; [exact H|].
    now apply true_div_in_range.
Qed.

(** C3, as stated, fails: a batch of one post with [10 ^ 400] likes is not
    empty, and the division on line 75 raises [OverflowError], the average
    being too large for a [float]. *)
Lemma huge_likes_raise_overflow_error :
  data tracker_huge_likes <> []
  /\ fst (analyze_engagement_float tracker_huge_likes)
     = Py.Raise Py.OverflowError.
Proof.
  split; [discriminate|]. vm_compute. reflexivity.
Qed.

(** C3, amended. [analyze_engagement] raises [ZeroDivisionError] exactly
    when the batch is empty, and [OverflowError] exactly when the batch is
    not empty and the average of likes plus shares is too large for a
    double; in every other case it returns the sum of the likes, the sum
    of the shares, and the double nearest to the exact average, which is
    the average the exact reading of the method returns.  The tracker is
    left as it was. *)
Theorem analyze_engagement_float_outcome (t : Tracker) :
  let n := Z.of_nat (List.length (data t)) in
  let s := likes_and_shares (data t) in
  (fst (analyze_engagement_float t) = Py.Raise Py.ZeroDivisionError
   <-> data t = [])
  /\ (fst (analyze_engagement_float t) = Py.Raise Py.OverflowError
      <-> data t <> [] /\ (Float.overflow_threshold * n <= Z.abs s)%Z)
  /\ (data t <> [] -> (Z.abs s < Float.overflow_threshold * n)%Z ->
      exists e x,
        fst (analyze_engagement_float t) = Py.Ok e
        /\ fst (analyze_engagement t) = Py.Ok x
        /\ total_likes e = sum_of (fun p => likes (engagement p)) (data t)
        /\ total_shares e = sum_of (fun p => shares (engagement p)) (data t)
        /\ (avg_engagement x == inject_Z s / inject_Z n)%Q
        /\ avg_engagement e = Float.round (avg_engagement x))
  /\ snd (analyze_engagement_float t) = t.
Proof.
  cbv zeta. rewrite analyze_engagement_float_unfold. cbn [fst snd].
  destruct (average_outcome (data t))
    as [[Hb Hr]|[(Hb & Hs & Hr)|(Hb & Hs & Hr)]]; rewrite Hr;
    cbn [Py.map_result].
  - split; [tauto|]. split; [|split; [tauto | reflexivity]].
    split; [discriminate | tauto].
  - split; [split; [discriminate | tauto]|].
    split; [tauto|]. split; [lia | reflexivity].
  - split; [split; [discriminate | tauto]|].
    split; [split; [discriminate | lia]|]. split; [|reflexivity].
    intros _ _. destruct t as [b g]. cbn [data] in *.
    destruct b as [|p rest]; [now contradiction Hb|].
    rewrite analyze_engagement_nonempty. cbn [fst].
    eexists. eexists. split; [reflexivity|]. split; [reflexivity|].
    cbn [total_likes total_shares avg_engagement].
    split; [reflexivity|]. split; [reflexivity|]. split; [reflexivity|].
    apply round_compat. unfold Nx.Qnat. apply Qmake_as_quotient.
    now apply length_pos_nonempty.
Qed.

(** X10. When [analyze_engagement] returns, the three figures fit
    together up to one rounding: the average times the number of posts
    differs from the likes plus the shares by at most [2^-53] of their
    amount.  (The bound is for batches of at most [2^1022] posts.) *)
Theorem average_times_count_is_likes_plus_shares (t : Tracker) :
  data t <> [] ->
  (Z.of_nat (List.length (data t)) <= 2 ^ 1022)%Z ->
  (Z.abs (likes_and_shares (data t))
   < Float.overflow_threshold * Z.of_nat (List.length (data t)))%Z ->
  exists e,
    fst (analyze_engagement_float t) = Py.Ok e
    /\ (Qabs (avg_engagement e * Nx.Qnat (List.length (data t))
              - inject_Z (total_likes e + total_shares e))
        <= unit_roundoff * Qabs (inject_Z (total_likes e + total_shares e)))%Q.
Proof.
  intros Hne Hlen Hs.
  rewrite analyze_engagement_float_unfold. cbn [fst].
  pose proof (length_pos_nonempty _ Hne) as Hn.
  rewrite (true_div_in_range _ _ Hn Hs). cbn [Py.map_result].
  eexists. split; [reflexivity|].
  cbn [avg_engagement total_likes total_shares].
  rewrite <- sum_of_plus. fold (likes_and_shares (data t)).
  set (s := likes_and_shares (data t)) in *.
  set (n := Z.of_nat (List.length (data t))) in *.
  unfold Nx.Qnat. fold n.
  set (np := Z.to_pos n).
  assert (Hnp : Zpos np = n) by (apply Z2Pos.id; lia).
  assert (Hnq : (0 < inject_Z n)%Q)
    by (change 0%Q with (inject_Z 0); rewrite <- Zlt_Qlt; lia).
  assert (Hx : (inject_Z s == (s # np) * inject_Z n)%Q).
  { unfold Qeq, Qmult, inject_Z. cbn [Qnum Qden]. rewrite <- Hnp.
    rewrite Pos.mul_1_r. ring. }
  destruct (Z.eq_dec s 0) as [E|E].
  - rewrite E. rewrite (round_zero (0 # np)) by reflexivity.
    change (inject_Z 0) with 0%Q.
    setoid_replace (0 * inject_Z n - 0)%Q with 0%Q by ring.
    rewrite Qmult_0_r. apply Qle_refl.
  - assert (Hnorm : (least_normal <= Qabs (s # np))%Q).
    { unfold least_normal, Qabs, Qle. cbn [Qnum Qden].
      rewrite Hnp, Pos2Z.inj_pow.
      assert (1 <= Z.abs s)%Z by lia. nia. }
    pose proof (round_accurate (s # np) Hnorm) as Hacc.
    setoid_replace (Float.round (s # np) * inject_Z n - inject_Z s)%Q
      with ((Float.round (s # np) - (s # np)) * inject_Z n)%Q
      by (rewrite Hx at 1; ring).
    rewrite Hx at 1. rewrite !Qabs_Qmult.
    rewrite (Qabs_pos (inject_Z n)) by now apply Qlt_le_weak.
    rewrite Qmult_assoc. apply Qmult_le_compat_r; [exact Hacc|].
    now apply Qlt_le_weak.
Qed.

Lemma average_times_count_unrelated_batch :
  data (mkTracker batch_unrelated Nx.empty) <> []
  /\ (Z.of_nat (List.length (data (mkTracker batch_unrelated Nx.empty)))
      <= 2 ^ 1022)%Z
  /\ (Z.abs (likes_and_shares (data (mkTracker batch_unrelated Nx.empty)))
      < Float.overflow_threshold
        * Z.of_nat (List.length (data (mkTracker batch_unrelated Nx.empty))))%Z
  /\ exists e,
       fst (analyze_engagement_float (mkTracker batch_unrelated Nx.empty))
       = Py.Ok e
       /\ (Qabs (avg_engagement e * 2
                 - inject_Z (total_likes e + total_shares e))
           <= unit_roundoff
              * Qabs (inject_Z (total_likes e + total_shares e)))%Q.
Proof.
  assert (H1 : data (mkTracker batch_unrelated Nx.empty) <> [])
    by discriminate.
  assert (H2 : (Z.of_nat
                  (List.length (data (mkTracker batch_unrelated Nx.empty)))
                <= 2 ^ 1022)%Z) by (vm_compute; discriminate).
  assert (H3 : (Z.abs (likes_and_shares
                         (data (mkTracker batch_unrelated Nx.empty)))
                < Float.overflow_threshold
                  * Z.of_nat
                      (List.length
                         (data (mkTracker batch_unrelated Nx.empty))))%Z)
    by (vm_compute; reflexivity).
  split; [exact H1|]. split; [exact H2|]. split; [exact H3|].
  exact (average_times_count_is_likes_plus_shares
           (mkTracker batch_unrelated Nx.empty) H1 H2 H3).
Defined.

(* ================================================================== *)
(** * [analyze_network] in doubles *)

(** In a well-formed graph a node has at most [n] neighbours, itself
    included. *)
Lemma degree_of_le (g : Nx.Graph) (e : string * list string) :
  graph_wf g -> In e g -> (Nx.degree_of e <= Nx.number_of_nodes g + 1)%nat.
Proof.
  intros [_ He] Hin. rewrite Forall_forall in He.
  destruct (He e Hin) as [Hn Hi].
  assert (Hle : (List.length (snd e) <= List.length (map fst g))%nat)
    by (apply NoDup_incl_length; [exact Hn | exact Hi]).
  rewrite length_map in Hle.
  unfold Nx.degree_of, Nx.number_of_nodes.
  destruct (Nx.mem (fst e) (snd e)); lia.
Qed.

Lemma number_of_edges_le (g : Nx.Graph) :
  graph_wf g ->
  (2 * Nx.number_of_edges g
   <= Nx.number_of_nodes g * (Nx.number_of_nodes g + 1))%nat.
Proof.
  intros Hwf. unfold Nx.number_of_edges, Nx.degree. rewrite map_map.
  cbn [snd]. etransitivity; [apply Nat.Div0.mul_div_le|].
  apply list_sum_bound. intros e He. now apply degree_of_le.
Qed.

(** The division in [density] stays within the range of a double. *)
Lemma density_float_returns (g : Nx.Graph) :
  graph_wf g -> exists d, density_float g = Py.Ok d.
Proof.
  intros Hwf. unfold density_float.
  pose proof (number_of_edges_le g Hwf) as Hm.
  set (n := Nx.number_of_nodes g) in *.
  set (m := Nx.number_of_edges g) in *.
  destruct (Nat.eqb_spec m 0) as [H0|H0]; cbn [orb]; [now eexists|].
  destruct (Nat.leb_spec n 1) as [H1|H1]; [now eexists|].
  rewrite true_div_in_range; [now eexists | nia |].
  pose proof overflow_threshold_large as Ht.
  rewrite Z.abs_eq by lia.
  assert (Hb : (Z.of_nat m < 4 * Z.of_nat (n * (n - 1)))%Z) by nia.
  nia.
Qed.

Lemma analyze_network_float_state
    (gm : Nx.Graph -> list (list string)) (t : Tracker) :
  snd (analyze_network_float gm t)
  = mkTracker (data t) (build_network (data t) (network t)).
Proof.
  unfold analyze_network_float, bind, get_data, get_network, set_network,
    lift, ret.
  cbn [fst snd data network].
  destruct (density_float _); reflexivity.
Qed.

Lemma analyze_network_float_unfold
    (gm : Nx.Graph -> list (list string)) (t : Tracker) :
  fst (analyze_network_float gm t)
  = Py.map_result
      (fun d =>
         {| central_nodes :=
              firstn 10 (Py.sorted_desc centrality_gt
                           (degree_centrality_float
                              (build_network (data t) (network t))));
            community_count :=
              List.length (gm (build_network (data t) (network t)));
            density := d |})
      (density_float (build_network (data t) (network t))).
Proof.
  unfold analyze_network_float, bind, get_data, get_network, set_network,
    lift, ret.
  cbn [fst snd data network].
  destruct (density_float _); reflexivity.
Qed.

Lemma degree_centrality_float_length (g : Nx.Graph) :
  List.length (degree_centrality_float g) = Nx.number_of_nodes g.
Proof.
  unfold degree_centrality_float, Nx.degree, Nx.number_of_nodes.
  destruct (_ <=? 1)%nat; now rewrite ?length_map.
Qed.

Lemma top_ten_length (l : list (string * Q)) :
  List.length (firstn 10 (Py.sorted_desc centrality_gt l))
  = Nat.min 10 (List.length l).
Proof.
  now rewrite length_firstn, (Permutation_length (sorted_desc_perm _ _)).
Qed.

(** The double computed for a node against the exact quotient. *)
Lemma centrality_double_accurate (n d : nat) :
  (2 <= n)%nat -> (Z.of_nat n < 2 ^ 53)%Z -> (Z.of_nat d < 2 ^ 53)%Z ->
  within_two_roundings (Nx.Qnat d / (Nx.Qnat n - 1)) (centrality_double n d).
Proof.
  intros Hn Hn53 Hd53.
  pose proof (centrality_float_accurate (Z.of_nat n - 1) (Z.of_nat d)
                ltac:(lia) ltac:(lia)) as H.
  cbv zeta in H.
  replace (Z.of_nat n - 1 + 1)%Z with (Z.of_nat n) in H by lia.
  unfold within_two_roundings, centrality_double.
  assert (E : (Nx.Qnat n - 1 == inject_Z (Z.of_nat n - 1))%Q).
  { unfold Nx.Qnat, Z.sub. rewrite inject_Z_plus. reflexivity. }
  unfold Nx.Qnat at 1 3. rewrite E. exact H.
Qed.

Lemma degree_centrality_float_pointwise (g : Nx.Graph) :
  graph_wf g -> (Z.of_nat (Nx.number_of_nodes g) < 2 ^ 53 - 1)%Z ->
  Forall2 (fun vc vd => fst vc = fst vd
                        /\ centrality_value_float (Nx.number_of_nodes g)
                             (snd vd) (snd vc))
          (degree_centrality_float g) (Nx.degree g).
Proof.
  intros Hwf Hn53. unfold degree_centrality_float, Nx.degree.
  destruct (Nat.leb_spec (Nx.number_of_nodes g) 1) as [Hn|Hn].
  - apply Forall2_map_same. intros e _. split; [reflexivity|].
    split; [lia | reflexivity].
  - rewrite map_map. apply Forall2_map_same. intros e He. cbn [fst snd].
    split; [reflexivity|]. split; [|lia].
    intros _. split; [reflexivity|].
    pose proof (degree_of_le g e Hwf He) as Hd.
    apply centrality_double_accurate; lia.
Qed.

(** C2, amended. For the graph built by [analyze_network], of fewer than
    [2^53 - 1] nodes: with two nodes or more the degree centrality computed
    for a node is the double [d * (1.0 / (n - 1.0))], which is the node's
    degree divided by (node count - 1) up to two roundings; with at most
    one node it is 1.  The values returned in [central_nodes] are among the
    computed ones, ten of them or all. *)
Theorem degree_centrality_float_of_built_graph
    (gm : Nx.Graph -> list (list string)) (t : Tracker) :
  graph_wf (network t) ->
  (Z.of_nat (Nx.number_of_nodes (network (snd (analyze_network_float gm t))))
   < 2 ^ 53 - 1)%Z ->
  let g := network (snd (analyze_network_float gm t)) in
  exists a,
    fst (analyze_network_float gm t) = Py.Ok a
    /\ Forall2 (fun vc vd => fst vc = fst vd
                             /\ centrality_value_float (Nx.number_of_nodes g)
                                  (snd vd) (snd vc))
               (degree_centrality_float g) (Nx.degree g)
    /\ (forall vc, In vc (central_nodes a) ->
                   In vc (degree_centrality_float g))
    /\ List.length (central_nodes a) = Nat.min 10 (Nx.number_of_nodes g).
Proof.
  rewrite analyze_network_float_state, analyze_network_float_unfold.
  cbn [network]. intros Hwf Hn53.
  set (g := build_network (data t) (network t)) in *.
  assert (Hwf' : graph_wf g) by now apply graph_wf_build_network.
  destruct (density_float_returns g Hwf') as [d Hd]. rewrite Hd.
  cbn [Py.map_result]. eexists. split; [reflexivity|]. cbn [central_nodes].
  split; [now apply degree_centrality_float_pointwise|]. split.
  - intros vc. apply In_top_sorted.
  - now rewrite top_ten_length, degree_centrality_float_length.
Qed.

(** Three synthetic posts on a new tracker: three nodes, each of degree
    two. *)
Lemma degree_centrality_float_of_three_posts :
  graph_wf (network (snd (collect_posts clock0 "k" "twitter" 3 init)))
  /\ (Z.of_nat
        (Nx.number_of_nodes
           (network
              (snd (analyze_network_float no_communities
                      (snd (collect_posts clock0 "k" "twitter" 3 init))))))
      < 2 ^ 53 - 1)%Z
  /\ exists a,
       fst (analyze_network_float no_communities
              (snd (collect_posts clock0 "k" "twitter" 3 init))) = Py.Ok a
       /\ Forall2
            (fun vc vd =>
               fst vc = fst vd
               /\ centrality_value_float 3 (snd vd) (snd vc))
            (degree_centrality_float
               (network
                  (snd (analyze_network_float no_communities
                          (snd (collect_posts clock0 "k" "twitter" 3 init))))))
            [("user_0", 2%nat); ("user_1", 2%nat); ("user_2", 2%nat)]
       /\ List.length (central_nodes a) = 3%nat.
Proof.
  assert (Hwf : graph_wf
                  (network (snd (collect_posts clock0 "k" "twitter" 3 init))))
    by (split; constructor).
  assert (Hn : (Z.of_nat
                  (Nx.number_of_nodes
                     (network
                        (snd (analyze_network_float no_communities
                                (snd (collect_posts clock0 "k" "twitter" 3
                                        init))))))
                < 2 ^ 53 - 1)%Z) by (vm_compute; reflexivity).
  split; [exact Hwf|]. split; [exact Hn|].
  destruct (degree_centrality_float_of_built_graph no_communities
              (snd (collect_posts clock0 "k" "twitter" 3 init)) Hwf Hn)
    as (a & H1 & H2 & _ & H4).
  exists a. split; [exact H1|]. split; [exact H2 | exact H4].
Defined.

(* ================================================================== *)
(** * The complete graph in doubles *)

Lemma half_is_a_double :
  Float.mul (Float.round (1 # 2)) 2 = 1%Q.
Proof. vm_compute. reflexivity. Qed.

Lemma complete_density_float (batch : list Post) :
  distinct_authors batch -> all_share batch ->
  (2 <= List.length batch)%nat ->
  density_float (build_network batch Nx.empty) = Py.Ok 1%Q.
Proof.
  intros Ha Hs Hn. rewrite <- (complete_node_count batch Ha) in Hn.
  unfold density_float.
  set (g := build_network batch Nx.empty) in *.
  set (n := Nx.number_of_nodes g) in *.
  assert (Hsum : list_sum (map snd (Nx.degree g)) = (n * (n - 1))%nat).
  { unfold Nx.degree. rewrite map_map. cbn [snd].
    rewrite (list_sum_const _ (n - 1)%nat); [reflexivity|].
    intros e He. pose proof (complete_degree batch Ha Hs e He) as H.
    fold g in H. fold n in H. lia. }
  destruct (consecutive_even n) as [k Hk].
  assert (Hm : Nx.number_of_edges g = k).
  { unfold Nx.number_of_edges. rewrite Hsum, Hk, Nat.mul_comm.
    now apply Nat.div_mul. }
  rewrite Hm.
  assert (Hkpos : (1 <= k)%nat) by nia.
  destruct (Nat.eqb_spec k 0) as [H0|H0]; [lia|]. cbn [orb].
  destruct (Nat.leb_spec n 1) as [H1|H1]; [lia|].
  rewrite Hk.
  pose proof overflow_threshold_large as Ht.
  rewrite true_div_in_range by nia.
  cbn [Py.map_result]. f_equal.
  rewrite (round_compat _ (1 # 2)); [apply half_is_a_double|].
  unfold Qeq. cbn [Qnum Qden]. rewrite Z2Pos.id by lia. lia.
Qed.

Lemma complete_degrees (batch : list Post) (v : string) (d : nat) :
  distinct_authors batch -> all_share batch ->
  In (v, d) (Nx.degree (build_network batch Nx.empty)) ->
  d = (List.length batch - 1)%nat.
Proof.
  intros Ha Hs H. unfold Nx.degree in H. apply in_map_iff in H.
  destruct H as (e & [= _ <-] & He).
  pose proof (complete_degree batch Ha Hs e He) as Hd.
  rewrite (complete_node_count batch Ha) in Hd. lia.
Qed.

Lemma complete_centrality_float (batch : list Post) (v : string) (c : Q) :
  distinct_authors batch -> all_share batch ->
  (2 <= List.length batch)%nat ->
  In (v, c) (degree_centrality_float (build_network batch Nx.empty)) ->
  c = centrality_double (List.length batch) (List.length batch - 1).
Proof.
  intros Ha Hs Hn. unfold degree_centrality_float.
  rewrite (complete_node_count batch Ha).
  destruct (Nat.leb_spec (List.length batch) 1) as [H1|H1]; [lia|].
  intros H. apply in_map_iff in H. destruct H as ([u d] & [= _ <-] & Hd).
  cbn [snd]. now rewrite (complete_degrees batch u d Ha Hs Hd).
Qed.

Lemma complete_centrality_near_one (n : nat) :
  (2 <= n)%nat -> (Z.of_nat n < 2 ^ 53)%Z ->
  within_two_roundings 1 (centrality_double n (n - 1)).
Proof.
  intros Hn Hn53.
  pose proof (centrality_double_accurate n (n - 1) Hn Hn53 ltac:(lia)) as H.
  unfold within_two_roundings in *.
  assert (E : (Nx.Qnat (n - 1) / (Nx.Qnat n - 1) == 1)%Q).
  { rewrite Qnat_pred by lia. apply Qnat_self_ratio. lia. }
  now rewrite E in H.
Qed.

(** X5. When every post of the batch has an author of its own, every two
    different posts share a hashtag and there are at least two posts
    (fewer than [2^53]), the graph built on an empty graph is complete:
    every two different authors are joined, every node has all the others
    as neighbours, the density returned is 1, every centrality returned is
    the double [(n - 1) * (1.0 / (n - 1.0))], which is 1 up to two
    roundings, and [central_nodes] lists ten authors or all of them. *)
Theorem shared_hashtag_gives_complete_graph
    (gm : Nx.Graph -> list (list string)) (batch : list Post) :
  distinct_authors batch -> all_share batch ->
  (2 <= List.length batch)%nat ->
  (Z.of_nat (List.length batch) < 2 ^ 53)%Z ->
  let g' :=
    network (snd (analyze_network_float gm (mkTracker batch Nx.empty))) in
  exists a,
    fst (analyze_network_float gm (mkTracker batch Nx.empty)) = Py.Ok a
    /\ (forall p q, In p batch -> In q batch -> p <> q ->
                    Nx.has_edge g' (user p) (user q) = true)
    /\ Nx.number_of_nodes g' = List.length batch
    /\ (forall v d, In (v, d) (Nx.degree g') ->
                    d = (List.length batch - 1)%nat)
    /\ density a = 1%Q
    /\ (forall v c, In (v, c) (central_nodes a) ->
          c = centrality_double (List.length batch) (List.length batch - 1)
          /\ within_two_roundings 1 c)
    /\ List.length (central_nodes a) = Nat.min 10 (List.length batch).
Proof.
  intros Ha Hs Hn Hn53.
  rewrite analyze_network_float_state, analyze_network_float_unfold.
  cbn [data network].
  rewrite (complete_density_float batch Ha Hs Hn). cbn [Py.map_result].
  eexists. split; [reflexivity|]. cbn [central_nodes density].
  split; [|split; [|split; [|split; [|split]]]].
  - intros p q Hp Hq Hne. apply build_network_edges. right.
    exists p, q. auto 10.
  - now apply complete_node_count.
  - intros v d. now apply complete_degrees.
  - reflexivity.
  - intros v c H. apply In_top_sorted in H.
    rewrite (complete_centrality_float batch v c Ha Hs Hn H).
    split; [reflexivity | now apply complete_centrality_near_one].
  - rewrite top_ten_length, degree_centrality_float_length.
    now rewrite (complete_node_count batch Ha).
Qed.

Lemma shared_hashtag_gives_complete_graph_two_authors :
  distinct_authors batch_shared /\ all_share batch_shared
  /\ (2 <= List.length batch_shared)%nat
  /\ (Z.of_nat (List.length batch_shared) < 2 ^ 53)%Z
  /\ exists a,
       fst (analyze_network_float no_communities
              (mkTracker batch_shared Nx.empty)) = Py.Ok a
       /\ density a = 1%Q
       /\ List.length (central_nodes a) = 2%nat.
Proof.
  assert (Ha : distinct_authors batch_shared).
  { unfold distinct_authors. simpl.
    repeat constructor; simpl; intuition discriminate. }
  assert (Hs : all_share batch_shared).
  { intros p q Hp Hq _. exists "#t". simpl in Hp, Hq.
    split; [destruct Hp as [<-|[<-|[]]] | destruct Hq as [<-|[<-|[]]]];
      now left. }
  assert (Hn : (2 <= List.length batch_shared)%nat) by (simpl; lia).
  assert (Hn53 : (Z.of_nat (List.length batch_shared) < 2 ^ 53)%Z)
    by (vm_compute; reflexivity).
  split; [exact Ha|]. split; [exact Hs|]. split; [exact Hn|].
  split; [exact Hn53|].
  destruct (shared_hashtag_gives_complete_graph no_communities batch_shared
              Ha Hs Hn Hn53) as (a & H1 & _ & _ & _ & H2 & _ & H3).
  exists a. split; [exact H1|]. split; [exact H2 | exact H3].
Defined.

(* ================================================================== *)
(** * The report in doubles *)

Lemma generate_report_float_state
    (gm : Nx.Graph -> list (list string)) (now : string) (t : Tracker) :
  snd (generate_report_float gm now t)
  = mkTracker (data t) (build_network (data t) (network t)).
Proof.
  unfold generate_report_float, bind.
  pose proof (analyze_network_float_state gm t) as Hs.
  destruct (analyze_network_float gm t) as [[na|e] t1]; cbn [snd] in Hs;
    subst t1; [|reflexivity].
  cbn [identify_narratives bind get_data ret data fst snd].
  rewrite analyze_engagement_float_unfold. cbn [data].
  destruct (Float.true_div _ _); reflexivity.
Qed.

Lemma generate_report_float_unfold
    (gm : Nx.Graph -> list (list string)) (now : string) (t : Tracker) :
  fst (generate_report_float gm now t)
  = match fst (analyze_network_float gm t) with
    | Py.Ok na =>
        match fst (identify_narratives t) with
        | Py.Ok nar =>
            match fst (analyze_engagement_float t) with
            | Py.Ok eng =>
                Py.Ok {| report_timestamp := now;
                         data_points := List.length (data t);
                         network_analysis := na;
                         narrative_analysis := nar;
                         engagement_analysis := eng |}
            | Py.Raise e => Py.Raise e
            end
        | Py.Raise e => Py.Raise e
        end
    | Py.Raise e => Py.Raise e
    end.
Proof.
  unfold generate_report_float, bind.
  pose proof (analyze_network_float_state gm t) as Hs.
  destruct (analyze_network_float gm t) as [[na|e] t1]; cbn [fst snd] in *;
    subst t1; [|reflexivity].
  cbn [identify_narratives bind get_data ret data fst snd].
  rewrite !analyze_engagement_float_unfold. cbn [data fst].
  destruct (Float.true_div _ _); reflexivity.
Qed.

(** X12. On a tracker whose graph is well formed, [generate_report]
    raises exactly what [analyze_engagement] raises: [ZeroDivisionError]
    when the batch is empty, [OverflowError] when the average of a
    non-empty batch is too large for a double.  In every other case it
    returns a report that carries the clock reading, the number of posts,
    and what [analyze_network], [identify_narratives] and
    [analyze_engagement] each return on the tracker as it stood.  Either
    way the tracker is left as [analyze_network] leaves it, the batch
    untouched. *)
Theorem generate_report_outcome
    (gm : Nx.Graph -> list (list string)) (now : string) (t : Tracker) :
  graph_wf (network t) ->
  let n := Z.of_nat (List.length (data t)) in
  let s := likes_and_shares (data t) in
  (forall e, fst (generate_report_float gm now t) = Py.Raise e
             <-> fst (analyze_engagement_float t) = Py.Raise e)
  /\ (data t = [] ->
      fst (generate_report_float gm now t) = Py.Raise Py.ZeroDivisionError)
  /\ (data t <> [] -> (Float.overflow_threshold * n <= Z.abs s)%Z ->
      fst (generate_report_float gm now t) = Py.Raise Py.OverflowError)
  /\ (data t <> [] -> (Z.abs s < Float.overflow_threshold * n)%Z ->
      exists r,
        fst (generate_report_float gm now t) = Py.Ok r
        /\ report_timestamp r = now
        /\ data_points r = List.length (data t)
        /\ fst (analyze_network_float gm t) = Py.Ok (network_analysis r)
        /\ fst (identify_narratives t) = Py.Ok (narrative_analysis r)
        /\ fst (analyze_engagement_float t) = Py.Ok (engagement_analysis r))
  /\ snd (generate_report_float gm now t) = snd (analyze_network_float gm t)
  /\ data (snd (generate_report_float gm now t)) = data t.
Proof.
  intros Hwf. cbv zeta.
  rewrite generate_report_float_state, analyze_network_float_state.
  rewrite generate_report_float_unfold, analyze_network_float_unfold.
  destruct (density_float_returns _ (graph_wf_build_network (data t) _ Hwf))
    as [d Hd].
  rewrite Hd. cbn [Py.map_result].
  cbn [identify_narratives bind get_data ret fst].
  rewrite analyze_engagement_float_unfold. cbn [fst data].
  destruct (average_outcome (data t))
    as [[Hb Hr]|[(Hb & Hs & Hr)|(Hb & Hs & Hr)]]; rewrite Hr;
    cbn [Py.map_result].
  - split; [intros e; split; intros [= <-]; reflexivity|].
    split; [reflexivity|].
    split; [tauto|]. split; [tauto|]. split; reflexivity.
  - split; [intros e; split; intros [= <-]; reflexivity|]. split; [tauto|].
    split; [reflexivity|]. split; [lia|]. split; reflexivity.
  - split; [intros e; split; discriminate|]. split; [tauto|].
    split; [lia|]. split; [|split; reflexivity].
    intros _ _. eexists. split; [reflexivity|].
    cbn [report_timestamp data_points network_analysis narrative_analysis
         engagement_analysis].
    repeat split; reflexivity.
Qed.

Lemma generate_report_outcome_repeated_author :
  graph_wf (network tracker_repeated_author)
  /\ data tracker_repeated_author <> []
  /\ exists r,
       fst (generate_report_float no_communities "2024-01-01T00:00:01"
              tracker_repeated_author) = Py.Ok r
       /\ data_points r = 3%nat
       /\ fst (analyze_engagement_float tracker_repeated_author)
          = Py.Ok (engagement_analysis r).
Proof.
  assert (Hwf : graph_wf (network tracker_repeated_author))
    by (split; constructor).
  assert (Hne : data tracker_repeated_author <> []) by discriminate.
  assert (Hs : (Z.abs (likes_and_shares (data tracker_repeated_author))
                < Float.overflow_threshold
                  * Z.of_nat (List.length (data tracker_repeated_author)))%Z)
    by (vm_compute; reflexivity).
  split; [exact Hwf|]. split; [exact Hne|].
  destruct (generate_report_outcome no_communities "2024-01-01T00:00:01"
              tracker_repeated_author Hwf) as (_ & _ & _ & H & _).
  destruct (H Hne Hs) as (r & H1 & _ & H2 & _ & _ & H3).
  exists r. split; [exact H1|]. split; [exact H2 | exact H3].
Defined.

(* ================================================================== *)
(** * Collecting and reporting in doubles *)

Lemma threshold_above_integers :
  (6 * 2 ^ 53 <= Float.overflow_threshold)%Z.
Proof. vm_compute. discriminate. Qed.

Lemma likes_and_shares_sample (now : Z -> string) (kw pf : string) (k : nat) :
  likes_and_shares (map (sample_post now kw pf) (map Z.of_nat (seq 0 k)))
  = (6 * Z.of_nat k * (Z.of_nat k - 1))%Z.
Proof.
  unfold likes_and_shares.
  rewrite (sum_of_sample_posts now kw pf _ (fun i => 12 * i)%Z)
    by (intros i; unfold sample_post; cbn [likes shares engagement]; lia).
  pose proof (sigma_nat_linear 12 k). lia.
Qed.

(** X15. On a new tracker, [collect_posts] with a count [N] of two or
    more (below [2^53]) followed by [generate_report] returns a report on
    a complete graph: [N] data points, density 1, ten central nodes or as
    many as there are posts, and for every listed node the double
    [(N - 1) * (1.0 / (N - 1.0))], which is 1 up to two roundings. *)
Theorem synthetic_report_has_complete_graph
    (gm : Nx.Graph -> list (list string)) (now : Z -> string)
    (at_ kw pf : string) (N : Z) :
  (2 <= N < 2 ^ 53)%Z ->
  exists r,
    fst (collect_and_report_float gm now at_ kw pf N init) = Py.Ok r
    /\ Z.of_nat (data_points r) = N
    /\ density (network_analysis r) = 1%Q
    /\ (forall v c, In (v, c) (central_nodes (network_analysis r)) ->
          c = centrality_double (Z.to_nat N) (Z.to_nat N - 1)
          /\ within_two_roundings 1 c)
    /\ List.length (central_nodes (network_analysis r))
       = Nat.min 10 (Z.to_nat N).
Proof.
  intros HN.
  change (collect_and_report_float gm now at_ kw pf N init)
    with (generate_report_float gm at_
            (mkTracker (map (sample_post now kw pf) (Py.range N)) Nx.empty)).
  set (batch := map (sample_post now kw pf) (Py.range N)).
  assert (Hlen : List.length batch = Z.to_nat N)
    by (unfold batch; now rewrite length_map, range_length).
  assert (Ha : distinct_authors batch) by apply sample_distinct_authors.
  assert (Hs : all_share batch)
    by (intros p q Hp Hq _; now apply (sample_share now kw pf (Py.range N))).
  assert (Hn : (2 <= List.length batch)%nat) by lia.
  rewrite generate_report_float_unfold, analyze_network_float_unfold.
  cbn [data network].
  rewrite (complete_density_float batch Ha Hs Hn). cbn [Py.map_result].
  cbn [identify_narratives bind get_data ret fst].
  rewrite analyze_engagement_float_unfold. cbn [fst data].
  rewrite true_div_in_range.
  - cbn [Py.map_result]. eexists. split; [reflexivity|].
    cbn [data_points network_analysis central_nodes density].
    split; [lia|]. split; [reflexivity|]. split.
    + intros v c H. apply In_top_sorted in H.
      rewrite (complete_centrality_float batch v c Ha Hs Hn H), Hlen.
      split; [reflexivity|]. apply complete_centrality_near_one; lia.
    + rewrite top_ten_length, degree_centrality_float_length.
      now rewrite (complete_node_count batch Ha), Hlen.
  - lia.
  - unfold batch, Py.range. rewrite likes_and_shares_sample.
    rewrite length_map, length_map, length_seq.
    pose proof threshold_above_integers as Ht.
    rewrite Z.abs_eq by nia. nia.
Qed.

Lemma synthetic_report_has_complete_graph_default :
  (2 <= 100 < 2 ^ 53)%Z
  /\ exists r,
       fst (collect_and_report_float no_communities clock0
              "2024-01-01T00:00:01" "election2024" "twitter" 100 init)
       = Py.Ok r
       /\ density (network_analysis r) = 1%Q
       /\ List.length (central_nodes (network_analysis r)) = 10%nat.
Proof.
  assert (H : (2 <= 100 < 2 ^ 53)%Z) by (split; [lia | reflexivity]).
  split; [exact H|].
  destruct (synthetic_report_has_complete_graph no_communities clock0
              "2024-01-01T00:00:01" "election2024" "twitter" 100 H)
    as (r & H1 & _ & H2 & _ & H4).
  exists r. split; [exact H1|]. split; [exact H2 | exact H4].
Defined.
